(** * ITCH pcap to Parquet converters: decode pipeline and wide record

    A shallow embedding of the two converters of the repository,
    [nasdaq/nasdaq_equities_totalview_itch_v5_0.cpp] and
    [jnx/jnx_equities_pts_itch_v1_6.cpp].  Both files share, line for
    line, the pcap and MoldUDP64 header types and the driver
    ([converter::try_get_*_itch], [converter::process]); they differ in the
    message fields of the wide [record] and in the message dispatch.

    Pointers are addresses ([Z]) into a byte memory; unsigned integers of
    width w are [Z] with the wrap-around written out; [char] is the signed
    8-bit reading of a byte.  The two [while] loops of the driver take
    fuel, and a run that uses it up is reported as [unfinished]. *)

From Stdlib Require Import ZArith List Lia Bool String.
From Stdlib Require Import Strings.Byte.
From Stdlib Require Import Sorting.Sorted.
Import ListNotations.
Local Open Scope Z_scope.

(** ** Bytes, memory and integer conversions *)

Definition memory := Z -> byte.

(** The byte at address [p], as a number. *)
Definition load (m : memory) (p : Z) : Z := Z.of_N (Byte.to_N (m p)).

Definition wrap (w : Z) (v : Z) : Z := v mod 2 ^ w.

(** [static_cast<char>] of a byte value, [char] being signed. *)
Definition to_char (v : Z) : Z :=
  let b := wrap 8 v in if b <? 128 then b else b - 256.

(** [static_cast<uint8_t>] of a [char]. *)
Definition to_uint8 (c : Z) : Z := wrap 8 c.

(** Narrowing of a [size_t] difference to [std::int32_t]. *)
Definition to_int32 (v : Z) : Z :=
  let b := wrap 32 v in if b <? 2 ^ 31 then b else b - 2 ^ 32.

(** The value of a 64-bit signed integer, the [rep] of the durations of
[std::chrono], in two's complement. *)
Definition to_int64 (v : Z) : Z :=
  let b := wrap 64 v in if b <? 2 ^ 63 then b else b - 2 ^ 64.

(** [value = (value << 8) + byte], [n] times, in a [std::uint64_t]. *)
Fixpoint big_endian (m : memory) (p : Z) (n : nat) (value : Z) : Z :=
  match n with
  | O => value
  | S n' => big_endian m (p + 1) n' (wrap 64 (Z.shiftl value 8 + load m p))
  end.

(** [htobe16] of the 16-bit object at [p], [ntohs], and the wider
    variants: the host-order load followed by the swap to big endian reads
    the bytes most significant first on either endianness. *)
Definition be16 (m : memory) (p : Z) : Z := big_endian m p 2 0.
Definition be32 (m : memory) (p : Z) : Z := big_endian m p 4 0.
Definition be64 (m : memory) (p : Z) : Z := big_endian m p 8 0.

(** The [len] characters at [p]: [std::string_view] copied to a string. *)
Definition string_view (m : memory) (p : Z) (len : Z) : list byte :=
  map (fun i => m (p + Z.of_nat i)) (seq 0 (Z.to_nat len)).

(** ** Column values *)

Inductive value : Type :=
  | uint8 (v : Z)
  | uint16 (v : Z)
  | uint32 (v : Z)
  | uint64 (v : Z)
  | micros (v : Z)
  | utf8 (s : list byte).

(** The C++ type of a [data] member, as the stream operators see it. *)
Inductive data_type : Type :=
  | t_uint8 | t_uint16 | t_uint32 | t_uint64 | t_micros | t_string.

Definition type_of (v : value) : data_type :=
  match v with
  | uint8 _ => t_uint8
  | uint16 _ => t_uint16
  | uint32 _ => t_uint32
  | uint64 _ => t_uint64
  | micros _ => t_micros
  | utf8 _ => t_string
  end.

Definition data_type_eqb (a b : data_type) : bool :=
  match a, b with
  | t_uint8, t_uint8 | t_uint16, t_uint16 | t_uint32, t_uint32
  | t_uint64, t_uint64 | t_micros, t_micros | t_string, t_string => true
  | _, _ => false
  end.

(** ** Field codecs: the bodies of the [set] members *)

(** The scan of a fixed-width text field:
    [for (; index < size; ++index) if (current[index] == ' ') break;] *)
Fixpoint scan (m : memory) (current : Z) (todo : nat) (index : Z) : Z :=
  match todo with
  | O => index
  | S todo' =>
      if load m (current + index) =? 32 then index
      else scan m current todo' (index + 1)
  end.

Definition set_text (size : Z) (m : memory) (current : Z) : value :=
  utf8 (string_view m current (scan m current (Z.to_nat size) 0)).

(** The [char] at [current] assigned to a [std::uint8_t]. *)
Definition set_char (m : memory) (current : Z) : value :=
  uint8 (to_uint8 (to_char (load m current))).

Definition set_uint16 (m : memory) (current : Z) : value := uint16 (be16 m current).
Definition set_uint32 (m : memory) (current : Z) : value := uint32 (be32 m current).
Definition set_uint64 (m : memory) (current : Z) : value := uint64 (be64 m current).

(** The 6-byte [timestamp::set] loop of the NASDAQ feed. *)
Definition set_uint48 (m : memory) (current : Z) : value :=
  uint64 (big_endian m current 6 0).

(** ** Parquet schema nodes *)

Inductive Repetition : Type := REQUIRED | OPTIONAL.
Inductive PhysicalType : Type := INT32 | INT64 | BYTE_ARRAY.
Inductive ConvertedType : Type :=
  | UINT_8 | UINT_16 | UINT_32 | UINT_64 | UTF8 | TIMESTAMP_MICROS.

Record node : Type := Make {
  name : string;
  repetition : Repetition;
  parquet_type : PhysicalType;
  converted_type : ConvertedType
}.

Definition is_required (n : node) : bool :=
  match repetition n with REQUIRED => true | OPTIONAL => false end.

Definition is_optional (n : node) : bool := negb (is_required n).

(** [node()] of the six header structs, identical in both feeds. *)
Definition pcap_index_node : node := Make "pcap_index" REQUIRED INT64 UINT_64.
Definition pcap_timestamp_node : node := Make "timestamp" REQUIRED INT64 TIMESTAMP_MICROS.
Definition session_node : node := Make "session" REQUIRED BYTE_ARRAY UTF8.
Definition message_sequence_node : node := Make "message_sequence" REQUIRED INT64 UINT_64.
Definition message_index_node : node := Make "message_index" REQUIRED INT32 UINT_16.
Definition message_type_node : node := Make "message_type" REQUIRED INT32 UINT_8.

(** Strictly increasing by [String.compare], the byte-wise order. *)
Fixpoint strictly_sorted (l : list string) : bool :=
  match l with
  | [] => true
  | a :: t =>
      match t with
      | [] => true
      | b :: _ => String.ltb a b && strictly_sorted t
      end
  end.

(** ** The Parquet streams

    [parquet::StreamWriter] and [parquet::StreamReader] belong to Arrow, not
    to the repository.  They are taken at their interface: a writer receives
    one cell per column, [EndRow] closes the row; a reader hands the cells
    back in the order written.  A [std::optional] without a value is the
    null cell. *)

Definition cell := option value.
Definition row := list cell.

Record StreamWriter : Type := mk_writer {
  rows : list row;
  open_row : row
}.

Definition new_writer : StreamWriter := mk_writer [] [].

Definition put (c : cell) (w : StreamWriter) : StreamWriter :=
  mk_writer (rows w) (open_row w ++ [c]).

Definition EndRow (w : StreamWriter) : StreamWriter :=
  mk_writer (rows w ++ [open_row w]) [].

Record StreamReader : Type := mk_reader {
  unread : row;
  later : list row
}.

Definition open_reader (file : list row) : option StreamReader :=
  match file with
  | [] => None
  | r :: rs => Some (mk_reader r rs)
  end.

(** [stream >> x] for a required column of C++ type [t]. *)
Definition get_required (t : data_type) (rd : StreamReader) : option (value * StreamReader) :=
  match unread rd with
  | Some v :: rest =>
      if data_type_eqb (type_of v) t then Some (v, mk_reader rest (later rd)) else None
  | _ => None
  end.

(** [stream >> x] for a [std::optional] column of C++ type [t]. *)
Definition get_optional (t : data_type) (rd : StreamReader) : option (cell * StreamReader) :=
  match unread rd with
  | Some v :: rest =>
      if data_type_eqb (type_of v) t then Some (Some v, mk_reader rest (later rd)) else None
  | None :: rest => Some (None, mk_reader rest (later rd))
  | [] => None
  end.

(** [stream >> parquet::EndRow]: the row has to be used up. *)
Definition EndRow_read (rd : StreamReader) : option (list row) :=
  match unread rd with
  | [] => Some (later rd)
  | _ :: _ => None
  end.

(** ** Capture header *)

Record pcap_pkthdr : Type := mk_pkthdr {
  tv_sec : Z;
  tv_usec : Z
}.

(** [std::chrono::seconds{tv_sec} + std::chrono::microseconds{tv_usec}] as
microseconds: the seconds are converted by a multiplication in the 64-bit
signed [rep], then the sum is taken in it. *)
Definition microseconds (header : pcap_pkthdr) : Z :=
  to_int64 (to_int64 (tv_sec header * 1000000) + tv_usec header).

Definition ETHERTYPE_IP : Z := 0x0800.
Definition IPPROTO_UDP : Z := 17.
Definition sizeof_udphdr : Z := 8.

(** A run of a loop on bounded fuel. *)
Inductive run (A : Type) : Type :=
  | finished (a : A)
  | unfinished (a : A).
Arguments finished {A} a.
Arguments unfinished {A} a.

Definition state {A : Type} (r : run A) : A :=
  match r with finished a => a | unfinished a => a end.

Definition is_finished {A : Type} (r : run A) : bool :=
  match r with finished _ => true | unfinished _ => false end.

(** ** The wide record and the driver, for either feed *)

Section converter.

(** What distinguishes a feed: its message fields with their [size], the
value [set] decodes and the C++ type of [data]; the order in which
[record::reset], [operator<<] and [operator>>] visit the fields; and the
dispatch [converter::process] on a message. *)
Context {field : Type}.
Variable field_eqb : field -> field -> bool.
Variable size : field -> Z.
Variable decode : field -> memory -> Z -> value.
Variable field_type : field -> data_type.
Variable reset_order : list field.
Variable written_fields : list field.
Variable read_fields : list field.
Variable process_message : memory -> Z -> (field -> cell) * Z -> (field -> cell) * Z.

(** Assignment to the [data] member of field [f]. *)
Definition store (f : field) (c : cell) (fs : field -> cell) : field -> cell :=
  fun g => if field_eqb g f then c else fs g.

(** [record.f.set(message)]: the optional gets a value and the cursor moves
by the size of the field. *)
Definition set (f : field) (m : memory) (st : (field -> cell) * Z) : (field -> cell) * Z :=
  (store f (Some (decode f m (snd st))) (fst st), snd st + size f).

(** A [process_*_message] body: [set] on each field of the layout. *)
Definition set_all (m : memory) (layout : list field) (st : (field -> cell) * Z)
  : (field -> cell) * Z :=
  fold_left (fun st f => set f m st) layout st.

(** [record::reset] on the message fields. *)
Definition reset_fields (fs : field -> cell) : field -> cell :=
  fold_left (fun fs f => store f None fs) reset_order fs.

Record record : Type := mk_record {
  pcap_index : Z;
  pcap_timestamp : Z;
  session : list byte;
  message_sequence : Z;
  message_index_count : Z;
  message_index : Z;
  message_length : Z;
  message_type : Z;
  fields : field -> cell
}.

(** [record{}]: value-initialised, every optional empty. *)
Definition new_record : record :=
  mk_record 0 0 [] 0 0 0 0 0 (fun _ => None).

Definition pcap_index_increment (r : record) : record :=
  mk_record (wrap 64 (pcap_index r + 1)) (pcap_timestamp r) (session r)
    (message_sequence r) (message_index_count r) (message_index r)
    (message_length r) (message_type r) (fields r).

Definition pcap_timestamp_set (header : pcap_pkthdr) (r : record) : record :=
  mk_record (pcap_index r) (microseconds header) (session r)
    (message_sequence r) (message_index_count r) (message_index r)
    (message_length r) (message_type r) (fields r).

Definition session_set (m : memory) (current : Z) (r : record) : record * Z :=
  (mk_record (pcap_index r) (pcap_timestamp r) (string_view m current 10)
     (message_sequence r) (message_index_count r) (message_index r)
     (message_length r) (message_type r) (fields r),
   current + 10).

Definition message_sequence_set (m : memory) (current : Z) (r : record) : record * Z :=
  (mk_record (pcap_index r) (pcap_timestamp r) (session r)
     (be64 m current) (message_index_count r) (message_index r)
     (message_length r) (message_type r) (fields r),
   current + 8).

Definition message_sequence_increment (r : record) : record :=
  mk_record (pcap_index r) (pcap_timestamp r) (session r)
    (wrap 64 (message_sequence r + 1)) (message_index_count r) (message_index r)
    (message_length r) (message_type r) (fields r).

Definition message_index_set (m : memory) (current : Z) (r : record) : record * Z :=
  (mk_record (pcap_index r) (pcap_timestamp r) (session r)
     (message_sequence r) (be16 m current) 0
     (message_length r) (message_type r) (fields r),
   current + 2).

(** [data++; return data <= count;] on two [std::uint16_t]. *)
Definition message_index_increment (r : record) : bool * record :=
  let data := wrap 16 (message_index r + 1) in
  (data <=? message_index_count r,
   mk_record (pcap_index r) (pcap_timestamp r) (session r)
     (message_sequence r) (message_index_count r) data
     (message_length r) (message_type r) (fields r)).

(** Returns the record, the advanced [current] and [message]. *)
Definition message_length_set (m : memory) (current : Z) (r : record) : record * Z * Z :=
  let data := be16 m current in
  (mk_record (pcap_index r) (pcap_timestamp r) (session r)
     (message_sequence r) (message_index_count r) (message_index r)
     data (message_type r) (fields r),
   current + 2 + data, current + 2).

Definition message_type_set (m : memory) (message : Z) (r : record) : record * Z :=
  (mk_record (pcap_index r) (pcap_timestamp r) (session r)
     (message_sequence r) (message_index_count r) (message_index r)
     (message_length r) (to_char (load m message)) (fields r),
   message + 1).

Definition with_fields (fs : field -> cell) (r : record) : record :=
  mk_record (pcap_index r) (pcap_timestamp r) (session r)
    (message_sequence r) (message_index_count r) (message_index r)
    (message_length r) (message_type r) fs.

Definition reset (r : record) : record := with_fields (reset_fields (fields r)) r.

(** [operator<<] of a record on a [parquet::StreamWriter]: the cells in the
    order of the operator; [message_length] is not among them. *)
Definition header_cells (r : record) : row :=
  [ Some (uint64 (pcap_index r));
    Some (micros (pcap_timestamp r));
    Some (utf8 (session r));
    Some (uint64 (message_sequence r));
    Some (uint16 (message_index r));
    Some (uint8 (to_uint8 (message_type r))) ].

Definition record_cells (r : record) : row :=
  header_cells r ++ map (fields r) written_fields.

Definition write_record (w : StreamWriter) (r : record) : StreamWriter :=
  EndRow (fold_left (fun w c => put c w) (record_cells r) w).

(** [operator>>] of a record on a [parquet::StreamReader]. *)
Fixpoint read_message_fields (fs : list field) (rd : StreamReader) (acc : field -> cell)
  : option ((field -> cell) * StreamReader) :=
  match fs with
  | [] => Some (acc, rd)
  | f :: fs' =>
      match get_optional (field_type f) rd with
      | Some (c, rd') => read_message_fields fs' rd' (store f c acc)
      | None => None
      end
  end.

Definition read_record (rd : StreamReader) (r : record) : option (record * list row) :=
  match get_required t_uint64 rd with
  | Some (uint64 a, rd1) =>
  match get_required t_micros rd1 with
  | Some (micros b, rd2) =>
  match get_required t_string rd2 with
  | Some (utf8 c, rd3) =>
  match get_required t_uint64 rd3 with
  | Some (uint64 d, rd4) =>
  match get_required t_uint16 rd4 with
  | Some (uint16 e, rd5) =>
  match get_required t_uint8 rd5 with
  | Some (uint8 g, rd6) =>
  match read_message_fields read_fields rd6 (fields r) with
  | Some (fs, rd7) =>
  match EndRow_read rd7 with
  | Some rest =>
      Some (mk_record a b c d (message_index_count r) e (message_length r)
              (to_char g) fs, rest)
  | None => None end
  | None => None end
  | _ => None end
  | _ => None end
  | _ => None end
  | _ => None end
  | _ => None end
  | _ => None end.

Record converter : Type := mk_converter {
  the_record : record;
  writer : StreamWriter
}.

Definition new_converter : converter := mk_converter new_record new_writer.

(** [while (ntohs(...) != ETHERTYPE_IP) payload += 4;] on the 16-bit
    object at [payload]. *)
Fixpoint skip_shims (fuel : nat) (m : memory) (payload : Z) : run Z :=
  match fuel with
  | O => unfinished payload
  | S fuel' =>
      if be16 m payload =? ETHERTYPE_IP then finished payload
      else skip_shims fuel' m (payload + 4)
  end.

(** [converter::try_get_nasdaq_itch] and [converter::try_get_jnx_itch]:
    the record, the returned flag, [*payload] and [*length]. *)
Definition try_get_itch (fuel : nat) (m : memory) (r : record) (packet : Z)
  : run (record * bool * Z * Z) :=
  let r1 := pcap_index_increment r in
  let payload := packet + 12 in
  match skip_shims fuel m payload with
  | unfinished payload' => unfinished (r1, false, payload', 0)
  | finished payload1 =>
      let payload2 := payload1 + 2 in
      let ipheader := payload2 in
      let ip_length := Z.land (load m ipheader) 15 * 4 in
      let payload3 := payload2 + ip_length in
      if load m (ipheader + 9) =? IPPROTO_UDP then
        let udp := payload3 in
        let length := to_int32 (wrap 64 (be16 m (udp + 4) - sizeof_udphdr)) in
        finished (r1, true, payload3 + sizeof_udphdr, length)
      else finished (r1, false, 0, 0)
  end.

(** The body of the [while] loop of [converter::process]: one message
    block.  Returns the converter and the advanced [current]. *)
Definition process_block (m : memory) (cv : converter) (current : Z) : converter * Z :=
  let r1 := reset (the_record cv) in
  let '(r2, current', message) := message_length_set m current r1 in
  let '(r3, message') := message_type_set m message r2 in
  let r4 := message_sequence_increment r3 in
  let r5 := with_fields (fst (process_message m (message_type r4) (fields r4, message'))) r4 in
  (mk_converter r5 (write_record (writer cv) r5), current').

(** The record that one block leaves behind and writes. *)
Definition block_record (m : memory) (r : record) (current : Z) : record :=
  let message_type := to_char (load m (current + 2)) in
  mk_record (pcap_index r) (pcap_timestamp r) (session r)
    (wrap 64 (message_sequence r + 1)) (message_index_count r) (message_index r)
    (be16 m current) message_type
    (fst (process_message m message_type (reset_fields (fields r), current + 2 + 1))).

(** [while (record.message_index.increment()) { ... }] *)
Fixpoint message_loop (fuel : nat) (m : memory) (cv : converter) (current : Z)
  : run converter :=
  match fuel with
  | O => unfinished cv
  | S fuel' =>
      let (more, r1) := message_index_increment (the_record cv) in
      let cv1 := mk_converter r1 (writer cv) in
      if more then
        let (cv2, current') := process_block m cv1 current in
        message_loop fuel' m cv2 current'
      else finished cv1
  end.

(** The record when the loop of [converter::process] is entered: the pcap
timestamp and the three fields of the MoldUDP64 header are set. *)
Definition header_record (m : memory) (header : pcap_pkthdr) (r : record) (payload : Z) : record :=
  mk_record (pcap_index r) (microseconds header)
    (string_view m payload 10) (be64 m (payload + 10)) (be16 m (payload + 10 + 8)) 0
    (message_length r) (message_type r) (fields r).

(** [converter::process] on a captured packet. *)
Definition process (fuel : nat) (m : memory) (header : pcap_pkthdr) (packet : Z)
  (cv : converter) : run converter :=
  match try_get_itch fuel m (the_record cv) packet with
  | unfinished (r1, _, _, _) => unfinished (mk_converter r1 (writer cv))
  | finished (r1, false, _, _) => finished (mk_converter r1 (writer cv))
  | finished (r1, true, current, length) =>
      let r2 := pcap_timestamp_set header r1 in
      let (r3, current1) := session_set m current r2 in
      let (r4, current2) := message_sequence_set m current1 r3 in
      let (r5, current3) := message_index_set m current2 r4 in
      message_loop fuel m (mk_converter r5 (writer cv)) current3
  end.

End converter.

(** ** NASDAQ TotalView-ITCH 5.0 *)

Module nasdaq.

(** The message fields of [record], in the order of its members. *)
Inductive field : Type :=
  | attribution
  | auction_collar_extension
  | auction_collar_reference_price
  | authenticity
  | breached_level
  | buy_sell_indicator
  | canceled_shares
  | cross_price
  | cross_shares
  | cross_type
  | current_reference_price
  | etp_flag
  | etp_leverage_factor
  | event_code
  | executed_shares
  | execution_price
  | far_price
  | financial_status_indicator
  | imbalance_direction
  | imbalance_shares
  | interest_flag
  | inverse_indicator
  | ipo_flag
  | ipo_price
  | ipo_quotation_release_qualifier
  | ipo_quotation_release_time
  | issue_classification
  | issue_sub_type
  | level_1
  | level_2
  | level_3
  | locate_code
  | lower_auction_collar_price
  | luld_reference_price_tier
  | market_category
  | market_maker_mode
  | market_participant_state
  | match_number
  | mpid
  | near_price
  | new_order_reference_number
  | order_reference_number
  | original_order_reference_number
  | paired_shares
  | price
  | price_variation_indicator
  | primary_market_maker
  | printable
  | reason
  | reg_sho_action
  | reserved
  | round_lot_size
  | round_lots_only
  | shares
  | short_sale_threshold_indicator
  | stock
  | stock_locate
  | timestamp
  | tracking_number
  | trading_state
  | upper_auction_collar_price.

Scheme Equality for field.

(** [static constexpr std::uint32_t size]. *)
Definition size (f : field) : Z :=
  match f with
  | attribution => 4
  | auction_collar_extension => 4
  | auction_collar_reference_price => 4
  | authenticity => 1
  | breached_level => 1
  | buy_sell_indicator => 1
  | canceled_shares => 4
  | cross_price => 4
  | cross_shares => 8
  | cross_type => 1
  | current_reference_price => 4
  | etp_flag => 1
  | etp_leverage_factor => 4
  | event_code => 1
  | executed_shares => 4
  | execution_price => 4
  | far_price => 4
  | financial_status_indicator => 1
  | imbalance_direction => 1
  | imbalance_shares => 8
  | interest_flag => 1
  | inverse_indicator => 1
  | ipo_flag => 1
  | ipo_price => 4
  | ipo_quotation_release_qualifier => 1
  | ipo_quotation_release_time => 4
  | issue_classification => 1
  | issue_sub_type => 2
  | level_1 => 8
  | level_2 => 8
  | level_3 => 8
  | locate_code => 2
  | lower_auction_collar_price => 4
  | luld_reference_price_tier => 1
  | market_category => 1
  | market_maker_mode => 1
  | market_participant_state => 1
  | match_number => 8
  | mpid => 4
  | near_price => 4
  | new_order_reference_number => 8
  | order_reference_number => 8
  | original_order_reference_number => 8
  | paired_shares => 8
  | price => 4
  | price_variation_indicator => 1
  | primary_market_maker => 1
  | printable => 1
  | reason => 4
  | reg_sho_action => 1
  | reserved => 1
  | round_lot_size => 4
  | round_lots_only => 1
  | shares => 4
  | short_sale_threshold_indicator => 1
  | stock => 8
  | stock_locate => 2
  | timestamp => 6
  | tracking_number => 2
  | trading_state => 1
  | upper_auction_collar_price => 4
  end.

(** The value [set] decodes at [current]. *)
Definition decode (f : field) : memory -> Z -> value :=
  match f with
  | attribution => set_text (size attribution)
  | auction_collar_extension => set_uint32
  | auction_collar_reference_price => set_uint32
  | authenticity => set_char
  | breached_level => set_char
  | buy_sell_indicator => set_char
  | canceled_shares => set_uint32
  | cross_price => set_uint32
  | cross_shares => set_uint64
  | cross_type => set_char
  | current_reference_price => set_uint32
  | etp_flag => set_char
  | etp_leverage_factor => set_uint32
  | event_code => set_char
  | executed_shares => set_uint32
  | execution_price => set_uint32
  | far_price => set_uint32
  | financial_status_indicator => set_char
  | imbalance_direction => set_char
  | imbalance_shares => set_uint64
  | interest_flag => set_char
  | inverse_indicator => set_char
  | ipo_flag => set_char
  | ipo_price => set_uint32
  | ipo_quotation_release_qualifier => set_char
  | ipo_quotation_release_time => set_uint32
  | issue_classification => set_char
  | issue_sub_type => set_text (size issue_sub_type)
  | level_1 => set_uint64
  | level_2 => set_uint64
  | level_3 => set_uint64
  | locate_code => set_uint16
  | lower_auction_collar_price => set_uint32
  | luld_reference_price_tier => set_char
  | market_category => set_char
  | market_maker_mode => set_char
  | market_participant_state => set_char
  | match_number => set_uint64
  | mpid => set_text (size mpid)
  | near_price => set_uint32
  | new_order_reference_number => set_uint64
  | order_reference_number => set_uint64
  | original_order_reference_number => set_uint64
  | paired_shares => set_uint64
  | price => set_uint32
  | price_variation_indicator => set_char
  | primary_market_maker => set_char
  | printable => set_char
  | reason => set_text (size reason)
  | reg_sho_action => set_char
  | reserved => set_char
  | round_lot_size => set_uint32
  | round_lots_only => set_char
  | shares => set_uint32
  | short_sale_threshold_indicator => set_char
  | stock => set_text (size stock)
  | stock_locate => set_uint16
  | timestamp => set_uint48
  | tracking_number => set_uint16
  | trading_state => set_char
  | upper_auction_collar_price => set_uint32
  end.

(** The C++ type inside [std::optional<...> data]. *)
Definition field_type (f : field) : data_type :=
  match f with
  | attribution => t_string
  | auction_collar_extension => t_uint32
  | auction_collar_reference_price => t_uint32
  | authenticity => t_uint8
  | breached_level => t_uint8
  | buy_sell_indicator => t_uint8
  | canceled_shares => t_uint32
  | cross_price => t_uint32
  | cross_shares => t_uint64
  | cross_type => t_uint8
  | current_reference_price => t_uint32
  | etp_flag => t_uint8
  | etp_leverage_factor => t_uint32
  | event_code => t_uint8
  | executed_shares => t_uint32
  | execution_price => t_uint32
  | far_price => t_uint32
  | financial_status_indicator => t_uint8
  | imbalance_direction => t_uint8
  | imbalance_shares => t_uint64
  | interest_flag => t_uint8
  | inverse_indicator => t_uint8
  | ipo_flag => t_uint8
  | ipo_price => t_uint32
  | ipo_quotation_release_qualifier => t_uint8
  | ipo_quotation_release_time => t_uint32
  | issue_classification => t_uint8
  | issue_sub_type => t_string
  | level_1 => t_uint64
  | level_2 => t_uint64
  | level_3 => t_uint64
  | locate_code => t_uint16
  | lower_auction_collar_price => t_uint32
  | luld_reference_price_tier => t_uint8
  | market_category => t_uint8
  | market_maker_mode => t_uint8
  | market_participant_state => t_uint8
  | match_number => t_uint64
  | mpid => t_string
  | near_price => t_uint32
  | new_order_reference_number => t_uint64
  | order_reference_number => t_uint64
  | original_order_reference_number => t_uint64
  | paired_shares => t_uint64
  | price => t_uint32
  | price_variation_indicator => t_uint8
  | primary_market_maker => t_uint8
  | printable => t_uint8
  | reason => t_string
  | reg_sho_action => t_uint8
  | reserved => t_uint8
  | round_lot_size => t_uint32
  | round_lots_only => t_uint8
  | shares => t_uint32
  | short_sale_threshold_indicator => t_uint8
  | stock => t_string
  | stock_locate => t_uint16
  | timestamp => t_uint64
  | tracking_number => t_uint16
  | trading_state => t_uint8
  | upper_auction_collar_price => t_uint32
  end.

(** [node()]: name, repetition, physical and converted type. *)
Definition field_node (f : field) : node :=
  match f with
  | attribution => Make "attribution" OPTIONAL BYTE_ARRAY UTF8
  | auction_collar_extension => Make "auction_collar_extension" OPTIONAL INT32 UINT_32
  | auction_collar_reference_price => Make "auction_collar_reference_price" OPTIONAL INT32 UINT_32
  | authenticity => Make "authenticity" OPTIONAL INT32 UINT_8
  | breached_level => Make "breached_level" OPTIONAL INT32 UINT_8
  | buy_sell_indicator => Make "buy_sell_indicator" OPTIONAL INT32 UINT_8
  | canceled_shares => Make "canceled_shares" OPTIONAL INT32 UINT_32
  | cross_price => Make "cross_price" OPTIONAL INT32 UINT_32
  | cross_shares => Make "cross_shares" OPTIONAL INT64 UINT_64
  | cross_type => Make "cross_type" OPTIONAL INT32 UINT_8
  | current_reference_price => Make "current_reference_price" OPTIONAL INT32 UINT_32
  | etp_flag => Make "etp_flag" OPTIONAL INT32 UINT_8
  | etp_leverage_factor => Make "etp_leverage_factor" OPTIONAL INT32 UINT_32
  | event_code => Make "event_code" OPTIONAL INT32 UINT_8
  | executed_shares => Make "executed_shares" OPTIONAL INT32 UINT_32
  | execution_price => Make "execution_price" OPTIONAL INT32 UINT_32
  | far_price => Make "far_price" OPTIONAL INT32 UINT_32
  | financial_status_indicator => Make "financial_status_indicator" OPTIONAL INT32 UINT_8
  | imbalance_direction => Make "imbalance_direction" OPTIONAL INT32 UINT_8
  | imbalance_shares => Make "imbalance_shares" OPTIONAL INT64 UINT_64
  | interest_flag => Make "interest_flag" OPTIONAL INT32 UINT_8
  | inverse_indicator => Make "inverse_indicator" OPTIONAL INT32 UINT_8
  | ipo_flag => Make "ipo_flag" OPTIONAL INT32 UINT_8
  | ipo_price => Make "ipo_price" OPTIONAL INT32 UINT_32
  | ipo_quotation_release_qualifier => Make "ipo_quotation_release_qualifier" OPTIONAL INT32 UINT_8
  | ipo_quotation_release_time => Make "ipo_quotation_release_time" OPTIONAL INT32 UINT_32
  | issue_classification => Make "issue_classification" OPTIONAL INT32 UINT_8
  | issue_sub_type => Make "issue_sub_type" OPTIONAL BYTE_ARRAY UTF8
  | level_1 => Make "level_1" OPTIONAL INT64 UINT_64
  | level_2 => Make "level_2" OPTIONAL INT64 UINT_64
  | level_3 => Make "level_3" OPTIONAL INT64 UINT_64
  | locate_code => Make "locate_code" OPTIONAL INT32 UINT_16
  | lower_auction_collar_price => Make "lower_auction_collar_price" OPTIONAL INT32 UINT_32
  | luld_reference_price_tier => Make "luld_reference_price_tier" OPTIONAL INT32 UINT_8
  | market_category => Make "market_category" OPTIONAL INT32 UINT_8
  | market_maker_mode => Make "market_maker_mode" OPTIONAL INT32 UINT_8
  | market_participant_state => Make "market_participant_state" OPTIONAL INT32 UINT_8
  | match_number => Make "match_number" OPTIONAL INT64 UINT_64
  | mpid => Make "mpid" OPTIONAL BYTE_ARRAY UTF8
  | near_price => Make "near_price" OPTIONAL INT32 UINT_32
  | new_order_reference_number => Make "new_order_reference_number" OPTIONAL INT64 UINT_64
  | order_reference_number => Make "order_reference_number" OPTIONAL INT64 UINT_64
  | original_order_reference_number => Make "original_order_reference_number" OPTIONAL INT64 UINT_64
  | paired_shares => Make "paired_shares" OPTIONAL INT64 UINT_64
  | price => Make "price" OPTIONAL INT32 UINT_32
  | price_variation_indicator => Make "price_variation_indicator" OPTIONAL INT32 UINT_8
  | primary_market_maker => Make "primary_market_maker" OPTIONAL INT32 UINT_8
  | printable => Make "printable" OPTIONAL INT32 UINT_8
  | reason => Make "reason" OPTIONAL BYTE_ARRAY UTF8
  | reg_sho_action => Make "reg_sho_action" OPTIONAL INT32 UINT_8
  | reserved => Make "reserved" OPTIONAL INT32 UINT_8
  | round_lot_size => Make "round_lot_size" OPTIONAL INT32 UINT_32
  | round_lots_only => Make "round_lots_only" OPTIONAL INT32 UINT_8
  | shares => Make "shares" OPTIONAL INT32 UINT_32
  | short_sale_threshold_indicator => Make "short_sale_threshold_indicator" OPTIONAL INT32 UINT_8
  | stock => Make "stock" OPTIONAL BYTE_ARRAY UTF8
  | stock_locate => Make "stock_locate" OPTIONAL INT32 UINT_16
  | timestamp => Make "timestamp" OPTIONAL INT64 UINT_64
  | tracking_number => Make "tracking_number" OPTIONAL INT32 UINT_16
  | trading_state => Make "trading_state" OPTIONAL INT32 UINT_8
  | upper_auction_collar_price => Make "upper_auction_collar_price" OPTIONAL INT32 UINT_32
  end.

(** The order of [record::reset]. *)
Definition reset_order : list field :=
  [ attribution; auction_collar_extension; auction_collar_reference_price;
    authenticity; breached_level; buy_sell_indicator; canceled_shares; cross_price;
    cross_shares; cross_type; current_reference_price; etp_flag;
    etp_leverage_factor; event_code; executed_shares; execution_price; far_price;
    financial_status_indicator; imbalance_direction; imbalance_shares;
    interest_flag; inverse_indicator; ipo_flag; ipo_price;
    ipo_quotation_release_qualifier; ipo_quotation_release_time;
    issue_classification; issue_sub_type; level_1; level_2; level_3; locate_code;
    lower_auction_collar_price; luld_reference_price_tier; market_category;
    market_maker_mode; market_participant_state; match_number; mpid; near_price;
    new_order_reference_number; order_reference_number;
    original_order_reference_number; paired_shares; price;
    price_variation_indicator; primary_market_maker; printable; reason;
    reg_sho_action; reserved; round_lot_size; round_lots_only; shares;
    short_sale_threshold_indicator; stock; stock_locate; timestamp; tracking_number;
    trading_state; upper_auction_collar_price ].

Definition set := set field_beq size decode.

Definition set_all := set_all field_beq size decode.

(** [record::nodes]. *)
Definition nodes : list node :=
  [ pcap_index_node; pcap_timestamp_node; session_node;
    message_sequence_node; message_index_node; message_type_node ]
  ++ map field_node
    [ attribution; auction_collar_extension; auction_collar_reference_price;
      authenticity; breached_level; buy_sell_indicator; canceled_shares;
      cross_price; cross_shares; cross_type; current_reference_price; etp_flag;
      etp_leverage_factor; event_code; executed_shares; execution_price; far_price;
      financial_status_indicator; imbalance_direction; imbalance_shares;
      interest_flag; inverse_indicator; ipo_flag; ipo_price;
      ipo_quotation_release_qualifier; ipo_quotation_release_time;
      issue_classification; issue_sub_type; level_1; level_2; level_3; locate_code;
      lower_auction_collar_price; luld_reference_price_tier; market_category;
      market_maker_mode; market_participant_state; match_number; mpid; near_price;
      new_order_reference_number; order_reference_number;
      original_order_reference_number; paired_shares; price;
      price_variation_indicator; primary_market_maker; printable; reason;
      reg_sho_action; reserved; round_lot_size; round_lots_only; shares;
      short_sale_threshold_indicator; stock; stock_locate; timestamp;
      tracking_number; trading_state; upper_auction_collar_price ].

(** The message fields in the order of [operator<<] on the writer. *)
Definition written_fields : list field :=
  [ attribution; auction_collar_extension; auction_collar_reference_price;
    authenticity; breached_level; buy_sell_indicator; canceled_shares; cross_price;
    cross_shares; cross_type; current_reference_price; etp_flag;
    etp_leverage_factor; event_code; executed_shares; execution_price; far_price;
    financial_status_indicator; imbalance_direction; imbalance_shares;
    interest_flag; inverse_indicator; ipo_flag; ipo_price;
    ipo_quotation_release_qualifier; ipo_quotation_release_time;
    issue_classification; issue_sub_type; level_1; level_2; level_3; locate_code;
    lower_auction_collar_price; luld_reference_price_tier; market_category;
    market_maker_mode; market_participant_state; match_number; mpid; near_price;
    new_order_reference_number; order_reference_number;
    original_order_reference_number; paired_shares; price;
    price_variation_indicator; primary_market_maker; printable; reason;
    reg_sho_action; reserved; round_lot_size; round_lots_only; shares;
    short_sale_threshold_indicator; stock; stock_locate; timestamp; tracking_number;
    trading_state; upper_auction_collar_price ].

(** The message fields in the order of [operator>>] on the reader. *)
Definition read_fields : list field :=
  [ attribution; auction_collar_extension; auction_collar_reference_price;
    authenticity; breached_level; buy_sell_indicator; canceled_shares; cross_price;
    cross_shares; cross_type; current_reference_price; etp_flag;
    etp_leverage_factor; event_code; executed_shares; execution_price; far_price;
    financial_status_indicator; imbalance_direction; imbalance_shares;
    interest_flag; inverse_indicator; ipo_flag; ipo_price;
    ipo_quotation_release_qualifier; ipo_quotation_release_time;
    issue_classification; issue_sub_type; level_1; level_2; level_3; locate_code;
    lower_auction_collar_price; luld_reference_price_tier; market_category;
    market_maker_mode; market_participant_state; match_number; mpid; near_price;
    new_order_reference_number; order_reference_number;
    original_order_reference_number; paired_shares; price;
    price_variation_indicator; primary_market_maker; printable; reason;
    reg_sho_action; reserved; round_lot_size; round_lots_only; shares;
    short_sale_threshold_indicator; stock; stock_locate; timestamp; tracking_number;
    trading_state; upper_auction_collar_price ].

(** The message layouts: the fields the [process_*_message] functions
    set, in order. *)
Definition add_order_no_mpid_attribution_message : list field :=
  [ stock_locate; tracking_number; timestamp; order_reference_number;
    buy_sell_indicator; shares; stock; price ].

Definition add_order_with_mpid_attribution_message : list field :=
  [ stock_locate; tracking_number; timestamp; order_reference_number;
    buy_sell_indicator; shares; stock; price; attribution ].

Definition broken_trade_message : list field :=
  [ stock_locate; tracking_number; timestamp; match_number ].

Definition cross_trade_message : list field :=
  [ stock_locate; tracking_number; timestamp; cross_shares; stock; cross_price;
    match_number; cross_type ].

Definition ipo_quoting_period_update : list field :=
  [ stock_locate; tracking_number; timestamp; stock; ipo_quotation_release_time;
    ipo_quotation_release_qualifier; ipo_price ].

Definition luld_auction_collar_message : list field :=
  [ stock_locate; tracking_number; timestamp; stock; auction_collar_reference_price;
    upper_auction_collar_price; lower_auction_collar_price; auction_collar_extension ].

Definition market_participant_position_message : list field :=
  [ stock_locate; tracking_number; timestamp; mpid; stock; primary_market_maker;
    market_maker_mode; market_participant_state ].

Definition mwcb_decline_level_message : list field :=
  [ stock_locate; tracking_number; timestamp; level_1; level_2; level_3 ].

Definition mwcb_status_level_message : list field :=
  [ stock_locate; tracking_number; timestamp; breached_level ].

Definition net_order_imbalance_indicator_message : list field :=
  [ stock_locate; tracking_number; timestamp; paired_shares; imbalance_shares;
    imbalance_direction; stock; far_price; near_price; current_reference_price;
    cross_type; price_variation_indicator ].

Definition non_cross_trade_message : list field :=
  [ stock_locate; tracking_number; timestamp; order_reference_number;
    buy_sell_indicator; shares; stock; price; match_number ].

Definition order_cancel_message : list field :=
  [ stock_locate; tracking_number; timestamp; order_reference_number;
    canceled_shares ].

Definition order_delete_message : list field :=
  [ stock_locate; tracking_number; timestamp; order_reference_number ].

Definition order_executed_message : list field :=
  [ stock_locate; tracking_number; timestamp; order_reference_number;
    executed_shares; match_number ].

Definition order_executed_with_price_message : list field :=
  [ stock_locate; tracking_number; timestamp; order_reference_number;
    executed_shares; match_number; printable; execution_price ].

Definition order_replace_message : list field :=
  [ stock_locate; tracking_number; timestamp; original_order_reference_number;
    new_order_reference_number; shares; price ].

Definition reg_sho_short_sale_price_test_restricted_indicator_message : list field :=
  [ locate_code; tracking_number; timestamp; stock; reg_sho_action ].

Definition retail_interest_message : list field :=
  [ stock_locate; tracking_number; timestamp; stock; interest_flag ].

Definition stock_directory_message : list field :=
  [ stock_locate; tracking_number; timestamp; stock; market_category;
    financial_status_indicator; round_lot_size; round_lots_only;
    issue_classification; issue_sub_type; authenticity;
    short_sale_threshold_indicator; ipo_flag; luld_reference_price_tier; etp_flag;
    etp_leverage_factor; inverse_indicator ].

Definition stock_trading_action_message : list field :=
  [ stock_locate; tracking_number; timestamp; stock; trading_state; reserved; reason ].

Definition system_event_message : list field :=
  [ stock_locate; tracking_number; timestamp; event_code ].

Definition process_add_order_no_mpid_attribution_message (m : memory) (st : (field -> cell) * Z) :=
  set_all m add_order_no_mpid_attribution_message st.

Definition process_add_order_with_mpid_attribution_message (m : memory) (st : (field -> cell) * Z) :=
  set_all m add_order_with_mpid_attribution_message st.

Definition process_broken_trade_message (m : memory) (st : (field -> cell) * Z) :=
  set_all m broken_trade_message st.

Definition process_cross_trade_message (m : memory) (st : (field -> cell) * Z) :=
  set_all m cross_trade_message st.

Definition process_ipo_quoting_period_update (m : memory) (st : (field -> cell) * Z) :=
  set_all m ipo_quoting_period_update st.

Definition process_luld_auction_collar_message (m : memory) (st : (field -> cell) * Z) :=
  set_all m luld_auction_collar_message st.

Definition process_market_participant_position_message (m : memory) (st : (field -> cell) * Z) :=
  set_all m market_participant_position_message st.

Definition process_mwcb_decline_level_message (m : memory) (st : (field -> cell) * Z) :=
  set_all m mwcb_decline_level_message st.

Definition process_mwcb_status_level_message (m : memory) (st : (field -> cell) * Z) :=
  set_all m mwcb_status_level_message st.

Definition process_net_order_imbalance_indicator_message (m : memory) (st : (field -> cell) * Z) :=
  set_all m net_order_imbalance_indicator_message st.

Definition process_non_cross_trade_message (m : memory) (st : (field -> cell) * Z) :=
  set_all m non_cross_trade_message st.

Definition process_order_cancel_message (m : memory) (st : (field -> cell) * Z) :=
  set_all m order_cancel_message st.

Definition process_order_delete_message (m : memory) (st : (field -> cell) * Z) :=
  set_all m order_delete_message st.

Definition process_order_executed_message (m : memory) (st : (field -> cell) * Z) :=
  set_all m order_executed_message st.

Definition process_order_executed_with_price_message (m : memory) (st : (field -> cell) * Z) :=
  set_all m order_executed_with_price_message st.

Definition process_order_replace_message (m : memory) (st : (field -> cell) * Z) :=
  set_all m order_replace_message st.

Definition process_reg_sho_short_sale_price_test_restricted_indicator_message (m : memory) (st : (field -> cell) * Z) :=
  set_all m reg_sho_short_sale_price_test_restricted_indicator_message st.

Definition process_retail_interest_message (m : memory) (st : (field -> cell) * Z) :=
  set_all m retail_interest_message st.

Definition process_stock_directory_message (m : memory) (st : (field -> cell) * Z) :=
  set_all m stock_directory_message st.

Definition process_stock_trading_action_message (m : memory) (st : (field -> cell) * Z) :=
  set_all m stock_trading_action_message st.

Definition process_system_event_message (m : memory) (st : (field -> cell) * Z) :=
  set_all m system_event_message st.

(** The [switch] of [converter::process] on the message type. *)
Definition process_message (m : memory) (message_type : Z) (st : (field -> cell) * Z)
  : (field -> cell) * Z :=
  match message_type with
  | 83 (* 'S' *) => process_system_event_message m st
  | 82 (* 'R' *) => process_stock_directory_message m st
  | 72 (* 'H' *) => process_stock_trading_action_message m st
  | 89 (* 'Y' *) => process_reg_sho_short_sale_price_test_restricted_indicator_message m st
  | 76 (* 'L' *) => process_market_participant_position_message m st
  | 86 (* 'V' *) => process_mwcb_decline_level_message m st
  | 87 (* 'W' *) => process_mwcb_status_level_message m st
  | 75 (* 'K' *) => process_ipo_quoting_period_update m st
  | 65 (* 'A' *) => process_add_order_no_mpid_attribution_message m st
  | 74 (* 'J' *) => process_luld_auction_collar_message m st
  | 70 (* 'F' *) => process_add_order_with_mpid_attribution_message m st
  | 69 (* 'E' *) => process_order_executed_message m st
  | 67 (* 'C' *) => process_order_executed_with_price_message m st
  | 88 (* 'X' *) => process_order_cancel_message m st
  | 68 (* 'D' *) => process_order_delete_message m st
  | 85 (* 'U' *) => process_order_replace_message m st
  | 80 (* 'P' *) => process_non_cross_trade_message m st
  | 81 (* 'Q' *) => process_cross_trade_message m st
  | 66 (* 'B' *) => process_broken_trade_message m st
  | 73 (* 'I' *) => process_net_order_imbalance_indicator_message m st
  | 78 (* 'N' *) => process_retail_interest_message m st
  | _ => st
  end.

(** The catalog: message type to message layout. *)
Definition catalog (message_type : Z) : option (list field) :=
  match message_type with
  | 83 (* 'S' *) => Some system_event_message
  | 82 (* 'R' *) => Some stock_directory_message
  | 72 (* 'H' *) => Some stock_trading_action_message
  | 89 (* 'Y' *) => Some reg_sho_short_sale_price_test_restricted_indicator_message
  | 76 (* 'L' *) => Some market_participant_position_message
  | 86 (* 'V' *) => Some mwcb_decline_level_message
  | 87 (* 'W' *) => Some mwcb_status_level_message
  | 75 (* 'K' *) => Some ipo_quoting_period_update
  | 65 (* 'A' *) => Some add_order_no_mpid_attribution_message
  | 74 (* 'J' *) => Some luld_auction_collar_message
  | 70 (* 'F' *) => Some add_order_with_mpid_attribution_message
  | 69 (* 'E' *) => Some order_executed_message
  | 67 (* 'C' *) => Some order_executed_with_price_message
  | 88 (* 'X' *) => Some order_cancel_message
  | 68 (* 'D' *) => Some order_delete_message
  | 85 (* 'U' *) => Some order_replace_message
  | 80 (* 'P' *) => Some non_cross_trade_message
  | 81 (* 'Q' *) => Some cross_trade_message
  | 66 (* 'B' *) => Some broken_trade_message
  | 73 (* 'I' *) => Some net_order_imbalance_indicator_message
  | 78 (* 'N' *) => Some retail_interest_message
  | _ => None
  end.

Definition record : Type := @record field.
Definition converter : Type := @converter field.

Definition reset_fields := reset_fields field_beq reset_order.

Definition write_record : StreamWriter -> record -> StreamWriter :=
  write_record written_fields.

Definition read_record : StreamReader -> record -> option (record * list row) :=
  read_record field_beq field_type read_fields.

Definition try_get_nasdaq_itch := @try_get_itch field.

Definition process_block : memory -> converter -> Z -> converter * Z :=
  process_block field_beq reset_order written_fields process_message.

Definition message_loop : nat -> memory -> converter -> Z -> run converter :=
  message_loop field_beq reset_order written_fields process_message.

Definition process : nat -> memory -> pcap_pkthdr -> Z -> converter -> run converter :=
  process field_beq reset_order written_fields process_message.

End nasdaq.

(** ** JNX PTS-ITCH 1.6 *)

Module jnx.

(** The message fields of [record], in the order of its members. *)
Inductive field : Type :=
  | attribution
  | buy_sell_indicator
  | executed_quantity
  | group
  | lower_price_limit
  | match_number
  | new_order_number
  | order_number
  | order_type
  | orderbook_code
  | orderbook_id
  | original_order_number
  | price
  | price_decimals
  | price_start
  | price_tick_size
  | price_tick_size_table_id
  | quantity
  | round_lot_size
  | short_selling_state
  | system_event
  | timestamp_nanoseconds
  | timestamp_seconds
  | trading_state
  | upper_price_limit.

Scheme Equality for field.

(** [static constexpr std::uint32_t size]. *)
Definition size (f : field) : Z :=
  match f with
  | attribution => 4
  | buy_sell_indicator => 1
  | executed_quantity => 4
  | group => 4
  | lower_price_limit => 4
  | match_number => 8
  | new_order_number => 8
  | order_number => 8
  | order_type => 1
  | orderbook_code => 12
  | orderbook_id => 4
  | original_order_number => 8
  | price => 4
  | price_decimals => 4
  | price_start => 4
  | price_tick_size => 4
  | price_tick_size_table_id => 4
  | quantity => 4
  | round_lot_size => 4
  | short_selling_state => 1
  | system_event => 1
  | timestamp_nanoseconds => 4
  | timestamp_seconds => 4
  | trading_state => 1
  | upper_price_limit => 4
  end.

(** The value [set] decodes at [current]. *)
Definition decode (f : field) : memory -> Z -> value :=
  match f with
  | attribution => set_text (size attribution)
  | buy_sell_indicator => set_char
  | executed_quantity => set_uint32
  | group => set_text (size group)
  | lower_price_limit => set_uint32
  | match_number => set_uint64
  | new_order_number => set_uint64
  | order_number => set_uint64
  | order_type => set_char
  | orderbook_code => set_text (size orderbook_code)
  | orderbook_id => set_uint32
  | original_order_number => set_uint64
  | price => set_uint32
  | price_decimals => set_uint32
  | price_start => set_uint32
  | price_tick_size => set_uint32
  | price_tick_size_table_id => set_uint32
  | quantity => set_uint32
  | round_lot_size => set_uint32
  | short_selling_state => set_char
  | system_event => set_char
  | timestamp_nanoseconds => set_uint32
  | timestamp_seconds => set_uint32
  | trading_state => set_char
  | upper_price_limit => set_uint32
  end.

(** The C++ type inside [std::optional<...> data]. *)
Definition field_type (f : field) : data_type :=
  match f with
  | attribution => t_string
  | buy_sell_indicator => t_uint8
  | executed_quantity => t_uint32
  | group => t_string
  | lower_price_limit => t_uint32
  | match_number => t_uint64
  | new_order_number => t_uint64
  | order_number => t_uint64
  | order_type => t_uint8
  | orderbook_code => t_string
  | orderbook_id => t_uint32
  | original_order_number => t_uint64
  | price => t_uint32
  | price_decimals => t_uint32
  | price_start => t_uint32
  | price_tick_size => t_uint32
  | price_tick_size_table_id => t_uint32
  | quantity => t_uint32
  | round_lot_size => t_uint32
  | short_selling_state => t_uint8
  | system_event => t_uint8
  | timestamp_nanoseconds => t_uint32
  | timestamp_seconds => t_uint32
  | trading_state => t_uint8
  | upper_price_limit => t_uint32
  end.

(** [node()]: name, repetition, physical and converted type. *)
Definition field_node (f : field) : node :=
  match f with
  | attribution => Make "attribution" OPTIONAL BYTE_ARRAY UTF8
  | buy_sell_indicator => Make "buy_sell_indicator" OPTIONAL INT32 UINT_8
  | executed_quantity => Make "executed_quantity" OPTIONAL INT32 UINT_32
  | group => Make "group" OPTIONAL BYTE_ARRAY UTF8
  | lower_price_limit => Make "lower_price_limit" OPTIONAL INT32 UINT_32
  | match_number => Make "match_number" OPTIONAL INT64 UINT_64
  | new_order_number => Make "new_order_number" OPTIONAL INT64 UINT_64
  | order_number => Make "order_number" OPTIONAL INT64 UINT_64
  | order_type => Make "order_type" OPTIONAL INT32 UINT_8
  | orderbook_code => Make "orderbook_code" OPTIONAL BYTE_ARRAY UTF8
  | orderbook_id => Make "orderbook_id" OPTIONAL INT32 UINT_32
  | original_order_number => Make "original_order_number" OPTIONAL INT64 UINT_64
  | price => Make "price" OPTIONAL INT32 UINT_32
  | price_decimals => Make "price_decimals" OPTIONAL INT32 UINT_32
  | price_start => Make "price_start" OPTIONAL INT32 UINT_32
  | price_tick_size => Make "price_tick_size" OPTIONAL INT32 UINT_32
  | price_tick_size_table_id => Make "price_tick_size_table_id" OPTIONAL INT32 UINT_32
  | quantity => Make "quantity" OPTIONAL INT32 UINT_32
  | round_lot_size => Make "round_lot_size" OPTIONAL INT32 UINT_32
  | short_selling_state => Make "short_selling_state" OPTIONAL INT32 UINT_8
  | system_event => Make "system_event" OPTIONAL INT32 UINT_8
  | timestamp_nanoseconds => Make "timestamp_nanoseconds" OPTIONAL INT32 UINT_32
  | timestamp_seconds => Make "timestamp_seconds" OPTIONAL INT32 UINT_32
  | trading_state => Make "trading_state" OPTIONAL INT32 UINT_8
  | upper_price_limit => Make "upper_price_limit" OPTIONAL INT32 UINT_32
  end.

(** The order of [record::reset]. *)
Definition reset_order : list field :=
  [ attribution; buy_sell_indicator; executed_quantity; group; lower_price_limit;
    match_number; new_order_number; order_number; order_type; orderbook_code;
    orderbook_id; original_order_number; price; price_decimals; price_start;
    price_tick_size; price_tick_size_table_id; quantity; round_lot_size;
    short_selling_state; system_event; timestamp_nanoseconds; timestamp_seconds;
    trading_state; upper_price_limit ].

Definition set := set field_beq size decode.

Definition set_all := set_all field_beq size decode.

(** [record::nodes]. *)
Definition nodes : list node :=
  [ pcap_index_node; pcap_timestamp_node; session_node;
    message_sequence_node; message_index_node; message_type_node ]
  ++ map field_node
    [ attribution; buy_sell_indicator; executed_quantity; group; lower_price_limit;
      match_number; new_order_number; order_number; order_type; orderbook_code;
      orderbook_id; original_order_number; price; price_decimals; price_start;
      price_tick_size; price_tick_size_table_id; quantity; round_lot_size;
      short_selling_state; system_event; timestamp_nanoseconds; timestamp_seconds;
      trading_state; upper_price_limit ].

(** The message fields in the order of [operator<<] on the writer. *)
Definition written_fields : list field :=
  [ attribution; buy_sell_indicator; executed_quantity; group; lower_price_limit;
    match_number; new_order_number; order_number; order_type; orderbook_code;
    orderbook_id; original_order_number; price; price_decimals; price_start;
    price_tick_size; price_tick_size_table_id; quantity; round_lot_size;
    short_selling_state; system_event; timestamp_nanoseconds; timestamp_seconds;
    trading_state; upper_price_limit ].

(** The message fields in the order of [operator>>] on the reader. *)
Definition read_fields : list field :=
  [ attribution; buy_sell_indicator; executed_quantity; group; lower_price_limit;
    match_number; new_order_number; order_number; order_type; orderbook_code;
    orderbook_id; original_order_number; price; price_decimals; price_start;
    price_tick_size; price_tick_size_table_id; quantity; round_lot_size;
    short_selling_state; system_event; timestamp_nanoseconds; timestamp_seconds;
    trading_state; upper_price_limit ].

(** The message layouts: the fields the [process_*_message] functions
    set, in order. *)
Definition order_added_with_attributes_message : list field :=
  [ timestamp_nanoseconds; order_number; buy_sell_indicator; quantity; orderbook_id;
    group; price; attribution; order_type ].

Definition order_added_without_attributes_message : list field :=
  [ timestamp_nanoseconds; order_number; buy_sell_indicator; quantity; orderbook_id;
    group; price ].

Definition order_deleted_message : list field :=
  [ timestamp_nanoseconds; order_number ].

Definition order_executed_message : list field :=
  [ timestamp_nanoseconds; order_number; executed_quantity; match_number ].

Definition order_replaced_message : list field :=
  [ timestamp_nanoseconds; original_order_number; new_order_number; quantity; price ].

Definition orderbook_directory_message : list field :=
  [ timestamp_nanoseconds; orderbook_id; orderbook_code; group; round_lot_size;
    price_tick_size_table_id; price_decimals; upper_price_limit; lower_price_limit ].

Definition price_tick_size_message : list field :=
  [ timestamp_nanoseconds; price_tick_size_table_id; price_tick_size; price_start ].

Definition short_selling_price_restriction_state_message : list field :=
  [ timestamp_nanoseconds; orderbook_id; group; short_selling_state ].

Definition system_event_message : list field :=
  [ timestamp_nanoseconds; group; system_event ].

Definition timestamp_seconds_message : list field :=
  [ timestamp_seconds ].

Definition trading_state_message : list field :=
  [ timestamp_nanoseconds; orderbook_id; group; trading_state ].

Definition process_order_added_with_attributes_message (m : memory) (st : (field -> cell) * Z) :=
  set_all m order_added_with_attributes_message st.

Definition process_order_added_without_attributes_message (m : memory) (st : (field -> cell) * Z) :=
  set_all m order_added_without_attributes_message st.

Definition process_order_deleted_message (m : memory) (st : (field -> cell) * Z) :=
  set_all m order_deleted_message st.

Definition process_order_executed_message (m : memory) (st : (field -> cell) * Z) :=
  set_all m order_executed_message st.

Definition process_order_replaced_message (m : memory) (st : (field -> cell) * Z) :=
  set_all m order_replaced_message st.

Definition process_orderbook_directory_message (m : memory) (st : (field -> cell) * Z) :=
  set_all m orderbook_directory_message st.

Definition process_price_tick_size_message (m : memory) (st : (field -> cell) * Z) :=
  set_all m price_tick_size_message st.

Definition process_short_selling_price_restriction_state_message (m : memory) (st : (field -> cell) * Z) :=
  set_all m short_selling_price_restriction_state_message st.

Definition process_system_event_message (m : memory) (st : (field -> cell) * Z) :=
  set_all m system_event_message st.

Definition process_timestamp_seconds_message (m : memory) (st : (field -> cell) * Z) :=
  set_all m timestamp_seconds_message st.

Definition process_trading_state_message (m : memory) (st : (field -> cell) * Z) :=
  set_all m trading_state_message st.

(** The [switch] of [converter::process] on the message type. *)
Definition process_message (m : memory) (message_type : Z) (st : (field -> cell) * Z)
  : (field -> cell) * Z :=
  match message_type with
  | 84 (* 'T' *) => process_timestamp_seconds_message m st
  | 83 (* 'S' *) => process_system_event_message m st
  | 76 (* 'L' *) => process_price_tick_size_message m st
  | 82 (* 'R' *) => process_orderbook_directory_message m st
  | 72 (* 'H' *) => process_trading_state_message m st
  | 89 (* 'Y' *) => process_short_selling_price_restriction_state_message m st
  | 65 (* 'A' *) => process_order_added_without_attributes_message m st
  | 70 (* 'F' *) => process_order_added_with_attributes_message m st
  | 69 (* 'E' *) => process_order_executed_message m st
  | 68 (* 'D' *) => process_order_deleted_message m st
  | 85 (* 'U' *) => process_order_replaced_message m st
  | _ => st
  end.

(** The catalog: message type to message layout. *)
Definition catalog (message_type : Z) : option (list field) :=
  match message_type with
  | 84 (* 'T' *) => Some timestamp_seconds_message
  | 83 (* 'S' *) => Some system_event_message
  | 76 (* 'L' *) => Some price_tick_size_message
  | 82 (* 'R' *) => Some orderbook_directory_message
  | 72 (* 'H' *) => Some trading_state_message
  | 89 (* 'Y' *) => Some short_selling_price_restriction_state_message
  | 65 (* 'A' *) => Some order_added_without_attributes_message
  | 70 (* 'F' *) => Some order_added_with_attributes_message
  | 69 (* 'E' *) => Some order_executed_message
  | 68 (* 'D' *) => Some order_deleted_message
  | 85 (* 'U' *) => Some order_replaced_message
  | _ => None
  end.

Definition record : Type := @record field.
Definition converter : Type := @converter field.

Definition reset_fields := reset_fields field_beq reset_order.

Definition write_record : StreamWriter -> record -> StreamWriter :=
  write_record written_fields.

Definition read_record : StreamReader -> record -> option (record * list row) :=
  read_record field_beq field_type read_fields.

Definition try_get_jnx_itch := @try_get_itch field.

Definition process_block : memory -> converter -> Z -> converter * Z :=
  process_block field_beq reset_order written_fields process_message.

Definition message_loop : nat -> memory -> converter -> Z -> run converter :=
  message_loop field_beq reset_order written_fields process_message.

Definition process : nat -> memory -> pcap_pkthdr -> Z -> converter -> run converter :=
  process field_beq reset_order written_fields process_message.

End jnx.

(** ** Captured frames used as examples *)

Definition byte_of (v : Z) : byte :=
  match Byte.of_N (Z.to_N v) with Some b => b | None => x00 end.

(** A memory that holds [bytes] from address [base] on and zero elsewhere. *)
Definition memory_of (base : Z) (bytes : list Z) : memory :=
  fun p => if p <? base then x00 else nth (Z.to_nat (p - base)) (map byte_of bytes) x00.

Definition text (s : string) : list Z :=
  map (fun c => Z.of_N (Ascii.N_of_ascii c)) (list_ascii_of_string s).

(** [v] on [n] bytes, most significant first. *)
Fixpoint be_bytes (n : nat) (v : Z) : list Z :=
  match n with
  | O => []
  | S n' => be_bytes n' (v / 256) ++ [v mod 256]
  end.

(** Ethernet, a 20-byte IPv4 header with protocol 17, and a UDP header that
announces [udp_length] bytes. *)
Definition ethernet_ipv4_udp (udp_length : Z) : list Z :=
  [0; 0; 0; 0; 0; 1;  0; 0; 0; 0; 0; 2;  8; 0]
  ++ [0x45; 0; 0; 0;  0; 0; 0; 0;  64; 17; 0; 0;  10; 0; 0; 1;  10; 0; 0; 2]
  ++ [0x30; 0x39; 0x30; 0x39] ++ be_bytes 2 udp_length ++ [0; 0].

Definition frame (payload : list Z) : list Z :=
  ethernet_ipv4_udp (8 + Z.of_nat (List.length payload)) ++ payload.

Definition moldudp64 (session : string) (sequence count : Z) : list Z :=
  text session ++ be_bytes 8 sequence ++ be_bytes 2 count.

Definition block (body : list Z) : list Z :=
  be_bytes 2 (Z.of_nat (List.length body)) ++ body.

Definition a_header : pcap_pkthdr := mk_pkthdr 1700000000 250000.

(** Scenario A: one System Event message, Sequence 100, Count 1. *)
Definition system_event_body : list Z :=
  text "S" ++ be_bytes 2 0 ++ be_bytes 2 0 ++ be_bytes 6 57600 ++ text "O".

Definition scenario_A : memory :=
  memory_of 0 (frame (moldudp64 "SESSION001" 100 1 ++ block system_event_body)).

(** Scenario B: one Add Order message for the stock AAPL. *)
Definition add_order_body : list Z :=
  text "A" ++ be_bytes 2 1 ++ be_bytes 2 0 ++ be_bytes 6 1 ++ be_bytes 8 256
  ++ text "B" ++ be_bytes 4 100 ++ text "AAPL    " ++ be_bytes 4 1500000.

Definition scenario_B : memory :=
  memory_of 0 (frame (moldudp64 "SESSION001" 100 1 ++ block add_order_body)).

(** Scenario C: an Order Delete message, then a message of type 0x7A. *)
Definition order_delete_body : list Z :=
  text "D" ++ be_bytes 2 1 ++ be_bytes 2 0 ++ be_bytes 6 1 ++ be_bytes 8 256.

Definition scenario_C : memory :=
  memory_of 0 (frame (moldudp64 "SESSION001" 100 2
                      ++ block order_delete_body ++ block [0x7A; 1; 2])).

(** A heartbeat: Count 0. *)
Definition heartbeat : memory :=
  memory_of 0 (frame (moldudp64 "SESSION001" 100 0)).

(** End of session: Count 0xFFFF. *)
Definition end_of_session : memory :=
  memory_of 0 (frame (moldudp64 "SESSION001" 100 0xFFFF)).

(** A datagram whose UDP header announces the 20 bytes of the MoldUDP64
header only, while Count says 3. *)
Definition short_datagram : memory :=
  memory_of 0 (ethernet_ipv4_udp 28 ++ moldudp64 "SESSION001" 100 3).

(** A stock field with an interior space, and one with a leading space. *)
Definition interior_space : memory := memory_of 0 (text "AB CD   ").
Definition leading_space : memory := memory_of 0 (text " ABC    ").
Definition all_spaces : memory := memory_of 0 (text "        ").

(** Scenario A with a Session of ten spaces. *)
Definition blank_session : memory :=
  memory_of 0 (frame (moldudp64 "          " 100 1 ++ block system_event_body)).

(** Scenario E of the JNX feed: Timestamp Seconds, then Trading State. *)
Definition timestamp_seconds_body : list Z := text "T" ++ be_bytes 4 34200.

Definition trading_state_body : list Z :=
  text "H" ++ be_bytes 4 1000 ++ be_bytes 4 1301 ++ text "JPN " ++ text "T".

Definition scenario_E : memory :=
  memory_of 0 (frame (moldudp64 "SESSION001" 7 2
                      ++ block timestamp_seconds_body ++ block trading_state_body)).

(** Scenario A behind one 802.1Q tag. *)
Definition tagged_frame : memory :=
  memory_of 0 ([0; 0; 0; 0; 0; 1;  0; 0; 0; 0; 0; 2;  0x81; 0; 0; 5]
               ++ skipn 12 (frame (moldudp64 "SESSION001" 100 1 ++ block system_event_body))).

(** Six bytes with all bits set. *)
Definition all_ones : memory := memory_of 0 [255; 255; 255; 255; 255; 255].

(** The physical and converted type that the stream operators of Arrow
require of the column, for a value of each C++ type. *)
Definition column_type (t : data_type) : PhysicalType * ConvertedType :=
  match t with
  | t_uint8 => (INT32, UINT_8)
  | t_uint16 => (INT32, UINT_16)
  | t_uint32 => (INT32, UINT_32)
  | t_uint64 => (INT64, UINT_64)
  | t_micros => (INT64, TIMESTAMP_MICROS)
  | t_string => (BYTE_ARRAY, UTF8)
  end.

(** The message-field cell of [f] in a row laid out as [fs]. *)
Fixpoint position {field : Type} (eqb : field -> field -> bool) (f : field) (fs : list field) : nat :=
  match fs with
  | [] => O
  | g :: fs' => if eqb g f then O else S (position eqb f fs')
  end.

Definition column {field : Type} (eqb : field -> field -> bool) (fs : list field)
  (f : field) (r : row) : cell :=
  nth (6 + position eqb f fs) r None.

Definition message_type_of (r : row) : cell := nth 5 r None.
Definition message_sequence_of (r : row) : cell := nth 3 r None.
Definition message_index_of (r : row) : cell := nth 4 r None.

(** ** The capture loop and the read-back pass *)

Definition pcap_index_of (r : row) : cell := nth 0 r None.
Definition pcap_timestamp_of (r : row) : cell := nth 1 r None.
Definition session_of (r : row) : cell := nth 2 r None.

(** The address of the k-th message block behind [current], every block
before it being stepped over by its declared length. *)
Fixpoint block_address (m : memory) (current : Z) (k : nat) : Z :=
  match k with
  | O => current
  | S k' => block_address m (current + 2 + be16 m current) k'
  end.

(** The bytes that the fields of a layout span. *)
Definition width {field : Type} (size : field -> Z) (layout : list field) : Z :=
  fold_right (fun f n => size f + n) 0 layout.

(** A value within the range of its C++ type; a text is any text. *)
Definition in_range (v : value) : Prop :=
  match v with
  | uint8 v => 0 <= v < 2 ^ 8
  | uint16 v => 0 <= v < 2 ^ 16
  | uint32 v => 0 <= v < 2 ^ 32
  | uint64 v => 0 <= v < 2 ^ 64
  | micros v => - 2 ^ 63 <= v < 2 ^ 63
  | utf8 _ => True
  end.

(** Two memories with the same [n] bytes from [p] on. *)
Definition agree (m1 m2 : memory) (p n : Z) : Prop :=
  forall i, 0 <= i < n -> m1 (p + i) = m2 (p + i).

(** What [pcap_next_ex] hands to [write_parquet]: the return value 1 with a
header and a packet in the capture buffer as it is then, or another return
value (0 on a timeout, -1 on an error, -2 at the end of the file). *)
Inductive pcap_next : Type :=
  | next_packet (m : memory) (header : pcap_pkthdr) (packet : Z)
  | next_other (code : Z).

Definition is_packet (e : pcap_next) : bool :=
  match e with next_packet _ _ _ => true | next_other _ => false end.

Section program.

Context {field : Type}.
Variable field_eqb : field -> field -> bool.
Variable field_type : field -> data_type.
Variable reset_order : list field.
Variable written_fields : list field.
Variable read_fields : list field.
Variable process_message : memory -> Z -> (field -> cell) * Z -> (field -> cell) * Z.

(** The loop of [write_parquet]: [converter.process] on return value 1; on
any other return value, as at the end of the capture, the loop is left. *)
Fixpoint write_parquet_loop (fuel : nat) (capture : list pcap_next) (cv : @converter field)
  : run (@converter field) :=
  match capture with
  | [] => finished cv
  | next_other _ :: _ => finished cv
  | next_packet m header packet :: rest =>
      match process field_eqb reset_order written_fields process_message
              fuel m header packet cv with
      | finished cv' => write_parquet_loop fuel rest cv'
      | unfinished cv' => unfinished cv'
      end
  end.

(** [converter::close] ends the row group: the file holds the rows ended so
far. *)
Definition close (cv : @converter field) : list row := rows (writer cv).

(** [write_parquet], from the opened capture on: the rows of the file. *)
Definition write_parquet (fuel : nat) (capture : list pcap_next) : run (list row) :=
  match write_parquet_loop fuel capture new_converter with
  | finished cv => finished (close cv)
  | unfinished cv => unfinished (close cv)
  end.

(** A row that the converter can have written: the cells of a record with a
[char] as message type and, in every message field that is set, a value of
the C++ type of the field. *)
Definition readable (cells : row) : Prop :=
  exists r : @record field,
    cells = record_cells written_fields r /\
    -128 <= message_type r < 128 /\
    forall f v, fields r f = Some v -> type_of v = field_type f.

(** The loop of [read_parquet], the printing left aside:
[while (!reader.eof()) reader >> record], on one record throughout. *)
Fixpoint read_records (file : list row) (r : record) : option (list record) :=
  match file with
  | [] => Some []
  | cells :: rest =>
      match read_record field_eqb field_type read_fields (mk_reader cells rest) r with
      | Some (r', _) =>
          match read_records rest r' with
          | Some rs => Some (r' :: rs)
          | None => None
          end
      | None => None
      end
  end.

End program.

Definition nasdaq_write_parquet : nat -> list pcap_next -> run (list row) :=
  write_parquet nasdaq.field_beq nasdaq.reset_order nasdaq.written_fields
    nasdaq.process_message.

Definition nasdaq_read_records : list row -> nasdaq.record -> option (list nasdaq.record) :=
  read_records nasdaq.field_beq nasdaq.field_type nasdaq.read_fields.

Definition jnx_write_parquet : nat -> list pcap_next -> run (list row) :=
  write_parquet jnx.field_beq jnx.reset_order jnx.written_fields jnx.process_message.

Definition jnx_read_records : list row -> jnx.record -> option (list jnx.record) :=
  read_records jnx.field_beq jnx.field_type jnx.read_fields.

(** An Ethernet and IPv4 frame that carries TCP (protocol 6). *)
Definition tcp_frame : memory :=
  memory_of 0 ([0; 0; 0; 0; 0; 1;  0; 0; 0; 0; 0; 2;  8; 0]
               ++ [0x45; 0; 0; 40;  0; 0; 0; 0;  64; 6; 0; 0;  10; 0; 0; 1;  10; 0; 0; 2]
               ++ repeat 0 20).

(** A buffer of zero bytes: no EtherType in it is IPv4. *)
Definition zeros : memory := memory_of 0 [].

(** Scenario A with a declared message length of 1 instead of 12. *)
Definition short_length : memory :=
  memory_of 0 (frame (moldudp64 "SESSION001" 100 1 ++ be_bytes 2 1 ++ system_event_body)).

(** A capture of three packets, a timeout, and a fourth packet. *)
Definition a_capture : list pcap_next :=
  [ next_packet scenario_A a_header 0;
    next_packet tcp_frame a_header 0;
    next_packet scenario_C a_header 0;
    next_other 0;
    next_packet scenario_B a_header 0 ].

(** * Properties *)

(** ** Bytes and integers *)

Lemma load_range (m : memory) (p : Z) : 0 <= load m p < 256.
Proof.
  unfold load. pose proof (Byte.to_N_bounded (m p)). lia.
Qed.

Lemma be16_eq (m : memory) (p : Z) : be16 m p = load m p * 256 + load m (p + 1).
Proof.
  unfold be16. cbn [big_endian]. unfold wrap.
  pose proof (load_range m p). pose proof (load_range m (p + 1)).
  change (Z.shiftl 0 8) with 0. rewrite Z.add_0_l.
  rewrite (Z.mod_small (load m p)) by lia.
  rewrite Z.shiftl_mul_pow2 by lia.
  change (2 ^ 8) with 256. apply Z.mod_small. lia.
Qed.

Lemma be16_range (m : memory) (p : Z) : 0 <= be16 m p < 65536.
Proof.
  rewrite be16_eq.
  pose proof (load_range m p). pose proof (load_range m (p + 1)). lia.
Qed.

Lemma to_char_range (v : Z) : -128 <= to_char v < 128.
Proof.
  unfold to_char, wrap. change (2 ^ 8) with 256.
  pose proof (Z.mod_pos_bound v 256 ltac:(lia)).
  destruct (v mod 256 <? 128) eqn:E; [apply Z.ltb_lt in E | apply Z.ltb_ge in E]; lia.
Qed.

Lemma to_char_to_uint8 (c : Z) : -128 <= c < 128 -> to_char (to_uint8 c) = c.
Proof.
  intros H. unfold to_char, to_uint8, wrap. change (2 ^ 8) with 256.
  rewrite Z.mod_mod by lia.
  destruct (Z_lt_dec c 0) as [Hn | Hp].
  - replace (c mod 256) with (c + 256).
    + destruct (c + 256 <? 128) eqn:E; [apply Z.ltb_lt in E | ]; lia.
    + apply Z.mod_unique with (q := -1); lia.
  - rewrite Z.mod_small by lia.
    destruct (c <? 128) eqn:E; [ | apply Z.ltb_ge in E ]; lia.
Qed.

Lemma to_uint8_to_char (v : Z) : 0 <= v < 256 -> to_uint8 (to_char v) = v.
Proof.
  intros H. unfold to_char, to_uint8, wrap. change (2 ^ 8) with 256.
  rewrite (Z.mod_small v) by lia.
  destruct (v <? 128) eqn:E.
  - apply Z.mod_small. lia.
  - apply Z.ltb_ge in E. symmetry. apply Z.mod_unique with (q := -1); lia.
Qed.

Lemma to_char_small (v : Z) : 0 <= v < 128 -> to_char v = v.
Proof.
  intros H. unfold to_char, wrap. change (2 ^ 8) with 256.
  rewrite Z.mod_small by lia.
  destruct (v <? 128) eqn:E; [reflexivity | apply Z.ltb_ge in E; lia].
Qed.

Lemma wrap_wrap_succ (w a k : Z) : wrap w (wrap w (a + 1) + k) = wrap w (a + (k + 1)).
Proof.
  unfold wrap. rewrite Zplus_mod_idemp_l. f_equal. lia.
Qed.

(** ** The scan of a text field *)

Lemma scan_bounds (m : memory) (current : Z) (todo : nat) (index : Z) :
  index <= scan m current todo index <= index + Z.of_nat todo.
Proof.
  revert index. induction todo as [ | todo IH]; intros index; cbn [scan].
  - lia.
  - destruct (load m (current + index) =? 32); [lia | ].
    specialize (IH (index + 1)). lia.
Qed.

Lemma scan_before (m : memory) (current : Z) (todo : nat) (index i : Z) :
  index <= i < scan m current todo index -> load m (current + i) <> 32.
Proof.
  revert index. induction todo as [ | todo IH]; intros index; cbn [scan].
  - lia.
  - destruct (load m (current + index) =? 32) eqn:E; [lia | ].
    intros H. destruct (Z.eq_dec i index) as [-> | Hne].
    + now apply Z.eqb_neq.
    + apply (IH (index + 1)). lia.
Qed.

Lemma scan_stops (m : memory) (current : Z) (todo : nat) (index : Z) :
  scan m current todo index < index + Z.of_nat todo ->
  load m (current + scan m current todo index) = 32.
Proof.
  revert index. induction todo as [ | todo IH]; intros index; cbn [scan].
  - lia.
  - destruct (load m (current + index) =? 32) eqn:E.
    + intros _. now apply Z.eqb_eq.
    + intros H. apply IH. lia.
Qed.

Lemma scan_space_first (m : memory) (current : Z) (todo : nat) :
  (todo = O \/ load m current = 32) -> scan m current todo 0 = 0.
Proof.
  destruct todo as [ | todo]; cbn [scan]; [reflexivity | ].
  intros [H | H]; [discriminate | ].
  rewrite Z.add_0_r, H. reflexivity.
Qed.

Lemma set_text_spec (size : Z) (m : memory) (current : Z) :
  0 <= size ->
  exists k,
    0 <= k <= size /\
    set_text size m current = utf8 (string_view m current k) /\
    (forall i, 0 <= i < k -> load m (current + i) <> 32) /\
    (k < size -> load m (current + k) = 32).
Proof.
  intros Hsize. exists (scan m current (Z.to_nat size) 0).
  pose proof (scan_bounds m current (Z.to_nat size) 0) as Hb.
  rewrite Z2Nat.id in Hb by exact Hsize.
  split; [lia | ]. split; [reflexivity | ]. split.
  - intros i Hi. now apply (scan_before m current (Z.to_nat size) 0).
  - intros Hk. apply scan_stops. rewrite Z2Nat.id by exact Hsize. lia.
Qed.

(** ** The writer *)

Lemma fold_put (cells : row) (w : StreamWriter) :
  fold_left (fun w c => put c w) cells w = mk_writer (rows w) (open_row w ++ cells).
Proof.
  revert w. induction cells as [ | c cells IH]; intros w; cbn [fold_left].
  - rewrite app_nil_r. now destruct w.
  - rewrite IH. unfold put; cbn [rows open_row]. now rewrite <- app_assoc.
Qed.

Section converter_facts.

Context {field : Type}.
Variable field_eqb : field -> field -> bool.
Variable size : field -> Z.
Variable decode : field -> memory -> Z -> value.
Variable field_type : field -> data_type.
Variable reset_order : list field.
Variable written_fields : list field.
Variable read_fields : list field.
Variable process_message : memory -> Z -> (field -> cell) * Z -> (field -> cell) * Z.

Hypothesis field_eqb_eq : forall a b : field, field_eqb a b = true <-> a = b.

Local Set Default Proof Using "Type".

Local Abbreviation store := (store field_eqb).
Local Abbreviation set_all := (set_all field_eqb size decode).
Local Abbreviation reset_fields := (reset_fields field_eqb reset_order).
Local Abbreviation write_record := (write_record written_fields).
Local Abbreviation record_cells := (record_cells written_fields).
Local Abbreviation process_block := (process_block field_eqb reset_order written_fields process_message).
Local Abbreviation message_loop := (message_loop field_eqb reset_order written_fields process_message).
Local Abbreviation process := (process field_eqb reset_order written_fields process_message).
Local Abbreviation block_record := (block_record field_eqb reset_order process_message).

Lemma field_eqb_refl (a : field) : field_eqb a a = true.
Proof using field_eqb_eq.
  now apply field_eqb_eq.
Qed.

Lemma field_eqb_false (a b : field) : field_eqb a b = false -> a <> b.
Proof using field_eqb_eq.
  intros E H. subst b. rewrite field_eqb_refl in E. discriminate.
Qed.

Lemma store_same (f : field) (c : cell) (fs : field -> cell) : store f c fs f = c.
Proof using field_eqb_eq.
  unfold store. now rewrite field_eqb_refl.
Qed.

Lemma store_other (f g : field) (c : cell) (fs : field -> cell) :
  g <> f -> store f c fs g = fs g.
Proof using field_eqb_eq.
  intros H. unfold store.
  destruct (field_eqb g f) eqn:E; [ | reflexivity].
  now apply field_eqb_eq in E.
Qed.

(** After [reset] every field that [reset] names is empty. *)
Lemma reset_fields_spec (fs : field -> cell) (f : field) :
  In f reset_order -> reset_fields fs f = None.
Proof using field_eqb_eq.
  unfold reset_fields.
  set (order := reset_order). clearbody order.
  revert fs. induction order as [ | g order IH] using rev_ind; intros fs H.
  - destruct H.
  - rewrite fold_left_app. cbn [fold_left].
    destruct (field_eqb f g) eqn:E.
    + apply field_eqb_eq in E. subst g. apply store_same.
    + apply field_eqb_false in E. rewrite store_other by exact E.
      apply IH. apply in_app_or in H. destruct H as [H | [H | []]]; [exact H | ].
      now subst g.
Qed.

(** A message body sets the fields of its layout and no other. *)
Lemma set_all_fields (m : memory) (layout : list field) (st : (field -> cell) * Z) (f : field) :
  fst (set_all m layout st) f <> None <-> In f layout \/ fst st f <> None.
Proof using field_eqb_eq.
  unfold set_all.
  revert st. induction layout as [ | g layout IH]; intros st; cbn [fold_left].
  - cbn [In]. split; [intros H; now right | intros [[] | H]; exact H].
  - rewrite IH. unfold set; cbn [fst snd In].
    destruct (field_eqb f g) eqn:E.
    + apply field_eqb_eq in E. subst g. rewrite store_same.
      split; intros _; [left; now left | right; discriminate].
    + apply field_eqb_false in E. rewrite store_other by exact E.
      split.
      * intros [H | H]; [left; now right | now right].
      * intros [[H | H] | H]; [now symmetry in H | now left | now right].
Qed.

(** The cursor ends behind the last field of the layout. *)
Lemma set_all_cursor (m : memory) (layout : list field) (st : (field -> cell) * Z) :
  snd (set_all m layout st) = snd st + fold_right (fun f n => size f + n) 0 layout.
Proof.
  unfold set_all.
  revert st. induction layout as [ | g layout IH]; intros st; cbn [fold_left fold_right].
  - lia.
  - rewrite IH. unfold set; cbn [snd]. lia.
Qed.

Lemma write_record_rows (w : StreamWriter) (r : record) :
  rows (write_record w r) = rows w ++ [open_row w ++ record_cells r].
Proof.
  unfold write_record. rewrite fold_put. reflexivity.
Qed.

Lemma write_record_open_row (w : StreamWriter) (r : record) :
  open_row (write_record w r) = [].
Proof.
  reflexivity.
Qed.

Lemma process_block_eq (m : memory) (cv : converter) (current : Z) :
  process_block m cv current =
  (mk_converter (block_record m (the_record cv) current)
     (write_record (writer cv) (block_record m (the_record cv) current)),
   current + 2 + be16 m current).
Proof.
  reflexivity.
Qed.

Lemma message_loop_S (fuel : nat) (m : memory) (cv : converter) (current : Z) :
  message_loop (S fuel) m cv current =
  let step := message_index_increment (the_record cv) in
  if fst step then
    message_loop fuel m
      (fst (process_block m (mk_converter (snd step) (writer cv)) current))
      (current + 2 + be16 m current)
  else finished (mk_converter (snd step) (writer cv)).
Proof.
  reflexivity.
Qed.

(** With Count below 0xFFFF the loop leaves after Count - index blocks, one
row written for each. *)
Lemma message_loop_finishes (m : memory) (fuel : nat) (cv : converter) (current : Z) :
  0 <= message_index (the_record cv) <= message_index_count (the_record cv) ->
  message_index_count (the_record cv) < 65535 ->
  (Z.to_nat (message_index_count (the_record cv) - message_index (the_record cv)) < fuel)%nat ->
  exists cv',
    message_loop fuel m cv current = finished cv' /\
    Z.of_nat (List.length (rows (writer cv'))) =
      Z.of_nat (List.length (rows (writer cv)))
      + (message_index_count (the_record cv) - message_index (the_record cv)) /\
    pcap_index (the_record cv') = pcap_index (the_record cv).
Proof.
  revert cv current. induction fuel as [ | fuel IH]; intros cv current Hi Hc Hf; [lia | ].
  rewrite message_loop_S. cbn zeta.
  unfold message_index_increment; cbn [fst snd].
  assert (wrap 16 (message_index (the_record cv) + 1) = message_index (the_record cv) + 1) as ->
    by (apply Z.mod_small; change (2 ^ 16) with 65536; lia).
  destruct (message_index (the_record cv) + 1 <=? message_index_count (the_record cv)) eqn:E.
  - apply Z.leb_le in E.
    rewrite process_block_eq; cbn [fst the_record writer].
    match goal with |- context [message_loop fuel m ?c ?p] =>
      destruct (IH c p) as (cv' & Hrun & Hrows & Hpcap) end.
    + cbn [the_record block_record message_index message_index_count]. lia.
    + cbn [the_record block_record message_index message_index_count]. lia.
    + cbn [the_record block_record message_index message_index_count]. lia.
    + exists cv'. split; [exact Hrun | ]. split.
      * rewrite Hrows. cbn [writer the_record block_record message_index message_index_count].
        rewrite write_record_rows, length_app. cbn [List.length]. lia.
      * rewrite Hpcap. reflexivity.
  - apply Z.leb_gt in E. eexists. split; [reflexivity | ].
    cbn [writer the_record pcap_index]. split; [lia | reflexivity].
Qed.

(** With Count equal to 0xFFFF the guard [data <= count] holds for every
16-bit [data]: the loop uses up any fuel and has written one row per turn. *)
Lemma message_loop_never_finishes (m : memory) (fuel : nat) (cv : converter) (current : Z) :
  message_index_count (the_record cv) = 65535 ->
  exists cv',
    message_loop fuel m cv current = unfinished cv' /\
    List.length (rows (writer cv')) = (List.length (rows (writer cv)) + fuel)%nat.
Proof.
  revert cv current. induction fuel as [ | fuel IH]; intros cv current Hc.
  - exists cv. split; [reflexivity | lia].
  - rewrite message_loop_S. cbn zeta.
    unfold message_index_increment; cbn [fst snd]. rewrite Hc.
    assert ((wrap 16 (message_index (the_record cv) + 1) <=? 65535) = true) as ->.
    { apply Z.leb_le. unfold wrap. change (2 ^ 16) with 65536.
      pose proof (Z.mod_pos_bound (message_index (the_record cv) + 1) 65536 ltac:(lia)). lia. }
    rewrite process_block_eq; cbn [fst the_record writer].
    match goal with |- context [message_loop fuel m ?c ?p] =>
      destruct (IH c p) as (cv' & Hrun & Hrows) end.
    + reflexivity.
    + exists cv'. split; [exact Hrun | ].
      rewrite Hrows. cbn [writer]. rewrite write_record_rows, length_app. cbn [List.length]. lia.
Qed.

(** Whatever holds of the record of every block holds of every row the loop
writes, finished or not. *)
Lemma message_loop_rows (m : memory) (Q : row -> Prop) :
  (forall r current, Q (record_cells (block_record m r current))) ->
  forall (fuel : nat) (cv : converter) (current : Z),
  open_row (writer cv) = [] ->
  exists new,
    rows (writer (state (message_loop fuel m cv current))) = rows (writer cv) ++ new /\
    Forall Q new.
Proof.
  intros HQ. induction fuel as [ | fuel IH]; intros cv current Hopen.
  - exists []. split; [now rewrite app_nil_r | constructor].
  - rewrite message_loop_S. cbn zeta.
    destruct (fst (message_index_increment (the_record cv))).
    + rewrite process_block_eq; cbn [fst the_record writer].
      match goal with |- context [message_loop fuel m ?c ?p] =>
        destruct (IH c p) as (new & Hrows & Hnew) end.
      * reflexivity.
      * rewrite Hrows. cbn [writer]. rewrite write_record_rows, Hopen. cbn [app].
        eexists (_ :: new). rewrite <- app_assoc. split; [reflexivity | ].
        constructor; [apply HQ | exact Hnew].
    + exists []. split; [now rewrite app_nil_r | constructor].
Qed.

(** The k-th row of a packet, counted from 0, carries the sequence of the
header plus k + 1: the increment comes before the write. *)
Lemma message_loop_sequences (m : memory) (fuel : nat) (cv : converter) (current : Z) :
  open_row (writer cv) = [] ->
  exists new,
    rows (writer (state (message_loop fuel m cv current))) = rows (writer cv) ++ new /\
    forall k : nat, (k < List.length new)%nat ->
      message_sequence_of (nth k new []) =
      Some (uint64 (wrap 64 (message_sequence (the_record cv) + (Z.of_nat k + 1)))).
Proof.
  revert cv current. induction fuel as [ | fuel IH]; intros cv current Hopen.
  - exists []. split; [now rewrite app_nil_r | cbn [List.length]; lia].
  - rewrite message_loop_S. cbn zeta.
    destruct (fst (message_index_increment (the_record cv))).
    + rewrite process_block_eq; cbn [fst the_record writer].
      match goal with |- context [message_loop fuel m ?c ?p] =>
        destruct (IH c p) as (new & Hrows & Hnew) end.
      * reflexivity.
      * rewrite Hrows. cbn [writer]. rewrite write_record_rows, Hopen. cbn [app].
        eexists (_ :: new). rewrite <- app_assoc. split; [reflexivity | ].
        intros [ | k] Hk.
        -- reflexivity.
        -- cbn [nth]. rewrite Hnew by (cbn [List.length] in Hk; lia).
           cbn [the_record block_record message_index_increment snd message_sequence].
           rewrite wrap_wrap_succ. do 3 f_equal. lia.
    + exists []. split; [now rewrite app_nil_r | cbn [List.length]; lia].
Qed.

(** The demuxer increments [pcap_index] first, whatever follows. *)
Lemma try_get_itch_record (fuel : nat) (m : memory) (r : @record field) (packet : Z) :
  fst (fst (fst (state (try_get_itch fuel m r packet)))) = pcap_index_increment r.
Proof.
  unfold try_get_itch.
  destruct (skip_shims fuel m (packet + 12)); [ | reflexivity].
  destruct (load m (a + 2 + 9) =? IPPROTO_UDP); reflexivity.
Qed.

Lemma try_get_itch_fuel (fuel : nat) (m : memory) (r : @record field) (packet : Z) res :
  try_get_itch fuel m r packet = finished res -> (0 < fuel)%nat.
Proof.
  destruct fuel; [ | lia]. discriminate.
Qed.

Lemma process_eq (fuel : nat) (m : memory) (header : pcap_pkthdr) (packet : Z)
  (cv : converter) (r1 : record) (payload length : Z) :
  try_get_itch fuel m (the_record cv) packet = finished (r1, true, payload, length) ->
  process fuel m header packet cv =
  message_loop fuel m (mk_converter (header_record m header r1 payload) (writer cv))
    (payload + 10 + 8 + 2).
Proof.
  intros H. unfold process. rewrite H. reflexivity.
Qed.

(** ** Reading a row back *)

Lemma position_nth (g : field -> cell) (f : field) (fs : list field) :
  In f fs -> nth (position field_eqb f fs) (map g fs) None = g f.
Proof using field_eqb_eq.
  induction fs as [ | h fs IH]; intros H; [destruct H | ].
  cbn [position map]. destruct (field_eqb h f) eqn:E.
  - apply field_eqb_eq in E. now subst h.
  - apply field_eqb_false in E. cbn [nth]. apply IH.
    destruct H as [H | H]; [contradiction | exact H].
Qed.

Lemma column_record_cells (r : record) (f : field) :
  In f written_fields ->
  column field_eqb written_fields f (record_cells r) = fields r f.
Proof using field_eqb_eq.
  intros H. unfold column, record_cells, header_cells.
  cbn [app Nat.add nth]. now apply position_nth.
Qed.

Lemma set_all_typed (m : memory) (layout : list field) (st : (field -> cell) * Z) :
  (forall f p, type_of (decode f m p) = field_type f) ->
  (forall f v, fst st f = Some v -> type_of v = field_type f) ->
  forall f v, fst (set_all m layout st) f = Some v -> type_of v = field_type f.
Proof using field_eqb_eq.
  intros Hdecode. unfold set_all.
  revert st. induction layout as [ | g layout IH]; intros st Hst; cbn [fold_left].
  - exact Hst.
  - apply IH. intros f v. unfold set; cbn [fst].
    unfold store. destruct (field_eqb f g) eqn:E.
    + apply field_eqb_eq in E. subst g. intros [= <-]. apply Hdecode.
    + apply Hst.
Qed.

Lemma data_type_eqb_refl (t : data_type) : data_type_eqb t t = true.
Proof.
  now destruct t.
Qed.

(** Reading the message fields in the order they were written returns each
cell to its field. *)
Lemma read_message_fields_written (from : field -> cell) (fs : list field)
  (rest : row) (rs : list row) (acc : field -> cell) :
  (forall f v, from f = Some v -> type_of v = field_type f) ->
  exists acc',
    read_message_fields field_eqb field_type fs (mk_reader (map from fs ++ rest) rs) acc
    = Some (acc', mk_reader rest rs) /\
    forall f, acc' f = if existsb (field_eqb f) fs then from f else acc f.
Proof using field_eqb_eq.
  intros Htyped. revert acc. induction fs as [ | g fs IH]; intros acc.
  - exists acc. split; reflexivity.
  - cbn [map app read_message_fields].
    assert (get_optional (field_type g) (mk_reader (from g :: map from fs ++ rest) rs)
            = Some (from g, mk_reader (map from fs ++ rest) rs)) as ->.
    { unfold get_optional; cbn [unread later].
      destruct (from g) as [v | ] eqn:E; [ | reflexivity].
      now rewrite (Htyped g v E), data_type_eqb_refl. }
    destruct (IH (store g (from g) acc)) as (acc' & Hread & Hacc).
    exists acc'. split; [exact Hread | ].
    intros f. rewrite Hacc. cbn [existsb].
    destruct (existsb (field_eqb f) fs); [now rewrite orb_true_r | ].
    rewrite orb_false_r. unfold store.
    destruct (field_eqb f g) eqn:E; [ | reflexivity].
    apply field_eqb_eq in E. now subst g.
Qed.

(** [operator>>] after [operator<<], when both visit the message fields in
the same order. *)
Lemma read_record_written (r r0 : record) (rs : list row) :
  -128 <= message_type r < 128 ->
  (forall f v, fields r f = Some v -> type_of v = field_type f) ->
  exists fs,
    read_record field_eqb field_type written_fields
      (mk_reader (record_cells r) rs) r0
    = Some (mk_record (pcap_index r) (pcap_timestamp r) (session r) (message_sequence r)
              (message_index_count r0) (message_index r) (message_length r0)
              (message_type r) fs, rs) /\
    forall f, fs f = if existsb (field_eqb f) written_fields then fields r f else fields r0 f.
Proof using field_eqb_eq.
  intros Hchar Htyped.
  destruct (read_message_fields_written (fields r) written_fields [] rs (fields r0) Htyped)
    as (fs & Hread & Hfs).
  exists fs. split; [ | exact Hfs].
  unfold read_record, record_cells, header_cells, get_required.
  cbn [unread later app type_of data_type_eqb].
  rewrite app_nil_r in Hread. rewrite Hread.
  unfold EndRow_read; cbn [unread later].
  now rewrite to_char_to_uint8.
Qed.

(** ** A whole packet *)

Lemma process_finishes (fuel : nat) (m : memory) (header : pcap_pkthdr) (packet : Z)
  (cv : converter) (r1 : record) (payload length : Z) :
  try_get_itch fuel m (the_record cv) packet = finished (r1, true, payload, length) ->
  be16 m (payload + 18) < 65535 ->
  (Z.to_nat (be16 m (payload + 18)) < fuel)%nat ->
  exists cv',
    process fuel m header packet cv = finished cv' /\
    Z.of_nat (List.length (rows (writer cv'))) =
      Z.of_nat (List.length (rows (writer cv))) + be16 m (payload + 18) /\
    pcap_index (the_record cv') = wrap 64 (pcap_index (the_record cv) + 1).
Proof.
  intros Hget Hcount Hfuel.
  rewrite (process_eq _ _ _ _ _ _ _ _ Hget).
  pose proof (be16_range m (payload + 18)) as Hrange.
  replace (payload + 10 + 8) with (payload + 18) by lia.
  match goal with |- context [message_loop fuel m ?c ?p] =>
    destruct (message_loop_finishes m fuel c p) as (cv' & Hrun & Hrows & Hpcap) end.
  - cbn [the_record header_record message_index message_index_count].
    replace (payload + 10 + 8) with (payload + 18) by lia. lia.
  - cbn [the_record header_record message_index_count].
    replace (payload + 10 + 8) with (payload + 18) by lia. lia.
  - cbn [the_record header_record message_index message_index_count].
    replace (payload + 10 + 8) with (payload + 18) by lia.
    rewrite Z.sub_0_r. exact Hfuel.
  - exists cv'. split; [exact Hrun | ].
    cbn [the_record header_record message_index message_index_count writer pcap_index]
      in Hrows, Hpcap.
    replace (payload + 10 + 8) with (payload + 18) in Hrows by lia.
    split; [lia | ].
    rewrite Hpcap.
    pose proof (try_get_itch_record fuel m (the_record cv) packet) as Hrec.
    rewrite Hget in Hrec. cbn [state fst] in Hrec. now subst r1.
Qed.

Lemma process_never_finishes (fuel : nat) (m : memory) (header : pcap_pkthdr) (packet : Z)
  (cv : converter) (r1 : record) (payload length : Z) :
  try_get_itch fuel m (the_record cv) packet = finished (r1, true, payload, length) ->
  be16 m (payload + 18) = 65535 ->
  exists cv',
    process fuel m header packet cv = unfinished cv' /\
    List.length (rows (writer cv')) = (List.length (rows (writer cv)) + fuel)%nat.
Proof.
  intros Hget Hcount.
  rewrite (process_eq _ _ _ _ _ _ _ _ Hget).
  match goal with |- context [message_loop fuel m ?c ?p] =>
    destruct (message_loop_never_finishes m fuel c p) as (cv' & Hrun & Hrows) end.
  - cbn [the_record header_record message_index_count].
    replace (payload + 10 + 8) with (payload + 18) by lia. exact Hcount.
  - exists cv'. split; [exact Hrun | exact Hrows].
Qed.

Lemma process_rows (m : memory) (Q : row -> Prop) :
  (forall r current, Q (record_cells (block_record m r current))) ->
  forall (fuel : nat) (header : pcap_pkthdr) (packet : Z) (cv : converter),
  open_row (writer cv) = [] ->
  exists new,
    rows (writer (state (process fuel m header packet cv))) = rows (writer cv) ++ new /\
    Forall Q new.
Proof.
  intros HQ fuel header packet cv Hopen.
  destruct (try_get_itch fuel m (the_record cv) packet)
    as [[[[r1 [ | ]] payload] length] | [[[r1 b] payload] length]] eqn:Hget.
  - rewrite (process_eq _ _ _ _ _ _ _ _ Hget).
    match goal with |- context [message_loop fuel m ?c ?p] =>
      destruct (message_loop_rows m Q HQ fuel c p) as (new & Hrows & Hnew) end;
      [exact Hopen | ].
    exists new. split; [exact Hrows | exact Hnew].
  - unfold process. rewrite Hget. cbn [state writer].
    exists []. split; [now rewrite app_nil_r | constructor].
  - unfold process. rewrite Hget. cbn [state writer].
    exists []. split; [now rewrite app_nil_r | constructor].
Qed.

Lemma process_sequences (fuel : nat) (m : memory) (header : pcap_pkthdr) (packet : Z)
  (cv : converter) (r1 : record) (payload length : Z) :
  try_get_itch fuel m (the_record cv) packet = finished (r1, true, payload, length) ->
  open_row (writer cv) = [] ->
  exists new,
    rows (writer (state (process fuel m header packet cv))) = rows (writer cv) ++ new /\
    forall k : nat, (k < List.length new)%nat ->
      message_sequence_of (nth k new []) =
      Some (uint64 (wrap 64 (be64 m (payload + 10) + (Z.of_nat k + 1)))).
Proof.
  intros Hget Hopen.
  rewrite (process_eq _ _ _ _ _ _ _ _ Hget).
  match goal with |- context [message_loop fuel m ?c ?p] =>
    destruct (message_loop_sequences m fuel c p) as (new & Hrows & Hnew) end;
    [exact Hopen | ].
  exists new. split; [exact Hrows | ].
  intros k Hk. rewrite (Hnew k Hk). reflexivity.
Qed.

Lemma message_loop_open_row (m : memory) (fuel : nat) (cv : converter) (current : Z) :
  open_row (writer cv) = [] ->
  open_row (writer (state (message_loop fuel m cv current))) = [].
Proof.
  revert cv current. induction fuel as [ | fuel IH]; intros cv current Hopen;
    [exact Hopen | ].
  rewrite message_loop_S. cbn zeta.
  destruct (fst (message_index_increment (the_record cv))); [ | exact Hopen].
  apply IH. reflexivity.
Qed.

(** Between two packets no row is left open. *)
Lemma process_open_row (fuel : nat) (m : memory) (header : pcap_pkthdr) (packet : Z)
  (cv : converter) :
  open_row (writer cv) = [] ->
  open_row (writer (state (process fuel m header packet cv))) = [].
Proof.
  intros Hopen.
  destruct (try_get_itch fuel m (the_record cv) packet)
    as [[[[r1 [ | ]] payload] length] | [[[r1 b] payload] length]] eqn:Hget.
  - rewrite (process_eq _ _ _ _ _ _ _ _ Hget). now apply message_loop_open_row.
  - unfold process. rewrite Hget. exact Hopen.
  - unfold process. rewrite Hget. exact Hopen.
Qed.

(** ** Text fields *)

Lemma set_value (f : field) (m : memory) (fs : field -> cell) (current : Z) :
  fst (set field_eqb size decode f m (fs, current)) f = Some (decode f m current) /\
  snd (set field_eqb size decode f m (fs, current)) = current + size f.
Proof using field_eqb_eq.
  unfold set; cbn [fst snd]. now rewrite store_same.
Qed.

Lemma set_text_field (f : field) (m : memory) (fs : field -> cell) (current : Z) :
  decode f = set_text (size f) -> 0 <= size f ->
  exists k,
    0 <= k <= size f /\
    fst (set field_eqb size decode f m (fs, current)) f
    = Some (utf8 (string_view m current k)) /\
    snd (set field_eqb size decode f m (fs, current)) = current + size f /\
    (forall i, 0 <= i < k -> load m (current + i) <> 32) /\
    (k < size f -> load m (current + k) = 32).
Proof using field_eqb_eq.
  intros Hdecode Hsize.
  destruct (set_text_spec (size f) m current Hsize) as (k & Hk & Hset & Hbefore & Hat).
  destruct (set_value f m fs current) as [Hvalue Hcursor].
  exists k. rewrite Hvalue, Hcursor, Hdecode, Hset.
  split; [exact Hk | ]. split; [reflexivity | ]. split; [reflexivity | ].
  split; [exact Hbefore | exact Hat].
Qed.

Lemma set_text_field_spaces (f : field) (m : memory) (fs : field -> cell) (current : Z) :
  decode f = set_text (size f) -> 0 < size f ->
  (forall i, 0 <= i < size f -> load m (current + i) = 32) ->
  fst (set field_eqb size decode f m (fs, current)) f = Some (utf8 []).
Proof using field_eqb_eq.
  intros Hdecode Hsize Hspaces.
  destruct (set_value f m fs current) as [Hvalue _].
  rewrite Hvalue, Hdecode. unfold set_text.
  rewrite scan_space_first; [reflexivity | ].
  right. specialize (Hspaces 0). rewrite Z.add_0_r in Hspaces. apply Hspaces. lia.
Qed.

(** ** Dispatch through the catalog *)

Section catalog_facts.

(** The catalog of the feed, and what ties it to the code of the feed: the
[switch] runs the layout of the type; its labels are ASCII letters;
[record::reset] and [operator<<] name every message field; [set] stores a
value of the C++ type of the field. *)
Variable catalog : Z -> option (list field).

Hypothesis process_message_catalog :
  forall m T st,
    process_message m T st =
    match catalog T with Some layout => set_all m layout st | None => st end.
Hypothesis catalog_labels :
  forall T, match catalog T with Some _ => 0 <= T < 128 | None => True end.
Hypothesis reset_order_complete : forall f, In f reset_order.
Hypothesis written_fields_complete : forall f, In f written_fields.
Hypothesis decode_typed : forall f m p, type_of (decode f m p) = field_type f.

(** The [char] of a byte selects what the byte selects. *)
Lemma catalog_to_char (v : Z) : 0 <= v < 256 -> catalog (to_char v) = catalog v.
Proof using catalog_labels.
  intros Hv. destruct (Z_lt_dec v 128) as [Hsmall | Hlarge].
  - now rewrite to_char_small by lia.
  - pose proof (catalog_labels v) as H1. pose proof (catalog_labels (to_char v)) as H2.
    assert (to_char v < 0) as Hneg.
    { unfold to_char, wrap. change (2 ^ 8) with 256. rewrite Z.mod_small by lia.
      destruct (v <? 128) eqn:E; [apply Z.ltb_lt in E | ]; lia. }
    destruct (catalog v), (catalog (to_char v)); try reflexivity; lia.
Qed.

Lemma block_record_message_type (m : memory) (r : record) (current : Z) :
  message_type_of (record_cells (block_record m r current))
  = Some (uint8 (load m (current + 2))).
Proof.
  unfold message_type_of, record_cells, header_cells.
  cbn [app nth block_record message_type].
  now rewrite to_uint8_to_char by apply load_range.
Qed.

(** The fields of the record of a block: the layout of its type run on the
reset fields. *)
Lemma block_record_fields (m : memory) (r : record) (current : Z) :
  fields (block_record m r current) =
  match catalog (load m (current + 2)) with
  | Some layout => fst (set_all m layout (reset_fields (fields r), current + 2 + 1))
  | None => reset_fields (fields r)
  end.
Proof using process_message_catalog catalog_labels.
  cbn [block_record fields]. rewrite process_message_catalog.
  rewrite catalog_to_char by apply load_range.
  now destruct (catalog (load m (current + 2))).
Qed.

Lemma block_record_layout (m : memory) (r : record) (current : Z) (layout : list field) :
  catalog (load m (current + 2)) = Some layout ->
  forall f, fields (block_record m r current) f <> None <-> In f layout.
Proof using field_eqb_eq process_message_catalog catalog_labels reset_order_complete.
  intros Hcat f. rewrite block_record_fields, Hcat, set_all_fields. cbn [fst].
  rewrite reset_fields_spec by apply reset_order_complete.
  split; [intros [H | H]; [exact H | contradiction] | now left].
Qed.

Lemma block_record_unknown (m : memory) (r : record) (current : Z) :
  catalog (load m (current + 2)) = None ->
  forall f, fields (block_record m r current) f = None.
Proof using field_eqb_eq process_message_catalog catalog_labels reset_order_complete.
  intros Hcat f. rewrite block_record_fields, Hcat.
  apply reset_fields_spec, reset_order_complete.
Qed.

(** Every record the converter writes has a [char] as message type and, in
every message field that is set, a value of the C++ type of the field. *)
Lemma block_record_typed (m : memory) (r : record) (current : Z) :
  -128 <= message_type (block_record m r current) < 128 /\
  forall f v, fields (block_record m r current) f = Some v -> type_of v = field_type f.
Proof using field_eqb_eq process_message_catalog catalog_labels reset_order_complete
  decode_typed.
  split; [apply to_char_range | ].
  rewrite block_record_fields.
  destruct (catalog (load m (current + 2))) as [layout | ].
  - apply set_all_typed; [intros f p; apply decode_typed | ].
    intros f v. cbn [fst]. rewrite reset_fields_spec by apply reset_order_complete.
    discriminate.
  - intros f v. rewrite reset_fields_spec by apply reset_order_complete. discriminate.
Qed.

(** The rows of catalogued messages hold the layout of their type. *)
Lemma rows_hold_their_layout (fuel : nat) (m : memory) (header : pcap_pkthdr)
  (packet : Z) (cv : converter) :
  open_row (writer cv) = [] ->
  exists new,
    rows (writer (state (process fuel m header packet cv))) = rows (writer cv) ++ new /\
    forall (row : row) (T : Z) (layout : list field),
      In row new ->
      message_type_of row = Some (uint8 T) ->
      catalog T = Some layout ->
      forall f, column field_eqb written_fields f row <> None <-> In f layout.
Proof using field_eqb_eq process_message_catalog catalog_labels reset_order_complete
  written_fields_complete.
  intros Hopen.
  destruct (process_rows m
              (fun row => forall T layout,
                 message_type_of row = Some (uint8 T) ->
                 catalog T = Some layout ->
                 forall f, column field_eqb written_fields f row <> None <-> In f layout))
    with (fuel := fuel) (header := header) (packet := packet) (cv := cv)
    as (new & Hrows & Hnew).
  - intros r current T layout HT Hcat f.
    rewrite column_record_cells by apply written_fields_complete.
    rewrite block_record_message_type in HT. injection HT as HT.
    apply block_record_layout. now rewrite HT.
  - exact Hopen.
  - exists new. split; [exact Hrows | ].
    intros row T layout Hin. revert T layout.
    now apply (proj1 (Forall_forall _ new) Hnew).
Qed.

(** A block of a type the catalog lacks is stepped over by its declared
length, and a row is written for it all the same. *)
Lemma unknown_block_null_row (m : memory) (cv : converter) (current : Z) :
  open_row (writer cv) = [] ->
  catalog (load m (current + 2)) = None ->
  snd (process_block m cv current) = current + 2 + be16 m current /\
  exists row : row,
    rows (writer (fst (process_block m cv current))) = rows (writer cv) ++ [row] /\
    message_type_of row = Some (uint8 (load m (current + 2))) /\
    forall f, column field_eqb written_fields f row = None.
Proof using field_eqb_eq process_message_catalog catalog_labels reset_order_complete
  written_fields_complete.
  intros Hopen Hcat. rewrite process_block_eq.
  cbn [fst snd writer]. split; [reflexivity | ].
  rewrite write_record_rows, Hopen. cbn [app].
  eexists. split; [reflexivity | ]. split.
  - apply block_record_message_type.
  - intros f. rewrite column_record_cells by apply written_fields_complete.
    now apply block_record_unknown.
Qed.

End catalog_facts.

End converter_facts.


(** ** The two feeds *)

(** Case analysis on a [char] against the labels of a [switch]. *)
Ltac by_message_type T :=
  let p := fresh "p" in
  destruct T as [ | p | p]; try reflexivity;
  do 7 (try (destruct p as [p | p | ]; try reflexivity)).

Lemma nasdaq_field_beq_eq (a b : nasdaq.field) : nasdaq.field_beq a b = true <-> a = b.
Proof.
  split; [apply nasdaq.internal_field_dec_bl | apply nasdaq.internal_field_dec_lb].
Qed.

(** [record::reset] names every message field of the NASDAQ record. *)
Lemma nasdaq_reset_order_complete (f : nasdaq.field) : In f nasdaq.reset_order.
Proof.
  assert (existsb (nasdaq.field_beq f) nasdaq.reset_order = true) as H
    by (destruct f; reflexivity).
  apply existsb_exists in H. destruct H as (g & Hin & Heq).
  apply nasdaq_field_beq_eq in Heq. now subst g.
Qed.

(** So does [operator<<]. *)
Lemma nasdaq_written_fields_complete (f : nasdaq.field) : In f nasdaq.written_fields.
Proof.
  assert (existsb (nasdaq.field_beq f) nasdaq.written_fields = true) as H
    by (destruct f; reflexivity).
  apply existsb_exists in H. destruct H as (g & Hin & Heq).
  apply nasdaq_field_beq_eq in Heq. now subst g.
Qed.

(** [operator>>] visits the fields in the order of [operator<<], and the
schema lists them in that order too. *)
Lemma nasdaq_orders_agree :
  nasdaq.read_fields = nasdaq.written_fields /\
  nasdaq.reset_order = nasdaq.written_fields /\
  skipn 6 nasdaq.nodes = map nasdaq.field_node nasdaq.written_fields.
Proof.
  repeat split.
Qed.

(** What [set] stores has the C++ type of the [data] member. *)
Lemma nasdaq_decode_typed (f : nasdaq.field) (m : memory) (p : Z) :
  type_of (nasdaq.decode f m p) = nasdaq.field_type f.
Proof.
  destruct f; reflexivity.
Qed.

(** Every node has the physical and converted type that the stream operators
require for the C++ type of the field. *)
Lemma nasdaq_nodes_fit_the_fields (f : nasdaq.field) :
  (parquet_type (nasdaq.field_node f), converted_type (nasdaq.field_node f))
  = column_type (nasdaq.field_type f).
Proof.
  destruct f; reflexivity.
Qed.

(** The [switch] runs the layout the catalog gives, and nothing on a type
the catalog lacks. *)
Lemma nasdaq_process_message_catalog (m : memory) (T : Z) (st : (nasdaq.field -> cell) * Z) :
  nasdaq.process_message m T st =
  match nasdaq.catalog T with
  | Some layout => set_all nasdaq.field_beq nasdaq.size nasdaq.decode m layout st
  | None => st
  end.
Proof.
  unfold nasdaq.process_message, nasdaq.catalog. by_message_type T.
Qed.

Lemma nasdaq_catalog_labels (T : Z) :
  match nasdaq.catalog T with Some _ => 0 <= T < 128 | None => True end.
Proof.
  unfold nasdaq.catalog. by_message_type T; try exact I; lia.
Qed.

(** The text fields of the NASDAQ feed decode by the scan. *)
Lemma nasdaq_text_field (f : nasdaq.field) :
  nasdaq.field_type f = t_string ->
  nasdaq.decode f = set_text (nasdaq.size f) /\ 0 < nasdaq.size f.
Proof.
  destruct f; try discriminate; intros _; split; reflexivity.
Qed.

Lemma jnx_field_beq_eq (a b : jnx.field) : jnx.field_beq a b = true <-> a = b.
Proof.
  split; [apply jnx.internal_field_dec_bl | apply jnx.internal_field_dec_lb].
Qed.

(** [record::reset] names every message field of the JNX record. *)
Lemma jnx_reset_order_complete (f : jnx.field) : In f jnx.reset_order.
Proof.
  assert (existsb (jnx.field_beq f) jnx.reset_order = true) as H
    by (destruct f; reflexivity).
  apply existsb_exists in H. destruct H as (g & Hin & Heq).
  apply jnx_field_beq_eq in Heq. now subst g.
Qed.

(** So does [operator<<]. *)
Lemma jnx_written_fields_complete (f : jnx.field) : In f jnx.written_fields.
Proof.
  assert (existsb (jnx.field_beq f) jnx.written_fields = true) as H
    by (destruct f; reflexivity).
  apply existsb_exists in H. destruct H as (g & Hin & Heq).
  apply jnx_field_beq_eq in Heq. now subst g.
Qed.

(** [operator>>] visits the fields in the order of [operator<<], and the
schema lists them in that order too. *)
Lemma jnx_orders_agree :
  jnx.read_fields = jnx.written_fields /\
  jnx.reset_order = jnx.written_fields /\
  skipn 6 jnx.nodes = map jnx.field_node jnx.written_fields.
Proof.
  repeat split.
Qed.

(** What [set] stores has the C++ type of the [data] member. *)
Lemma jnx_decode_typed (f : jnx.field) (m : memory) (p : Z) :
  type_of (jnx.decode f m p) = jnx.field_type f.
Proof.
  destruct f; reflexivity.
Qed.

(** Every node has the physical and converted type that the stream operators
require for the C++ type of the field. *)
Lemma jnx_nodes_fit_the_fields (f : jnx.field) :
  (parquet_type (jnx.field_node f), converted_type (jnx.field_node f))
  = column_type (jnx.field_type f).
Proof.
  destruct f; reflexivity.
Qed.

(** The [switch] runs the layout the catalog gives, and nothing on a type
the catalog lacks. *)
Lemma jnx_process_message_catalog (m : memory) (T : Z) (st : (jnx.field -> cell) * Z) :
  jnx.process_message m T st =
  match jnx.catalog T with
  | Some layout => set_all jnx.field_beq jnx.size jnx.decode m layout st
  | None => st
  end.
Proof.
  unfold jnx.process_message, jnx.catalog. by_message_type T.
Qed.

Lemma jnx_catalog_labels (T : Z) :
  match jnx.catalog T with Some _ => 0 <= T < 128 | None => True end.
Proof.
  unfold jnx.catalog. by_message_type T; try exact I; lia.
Qed.

(** The text fields of the JNX feed decode by the scan. *)
Lemma jnx_text_field (f : jnx.field) :
  jnx.field_type f = t_string ->
  jnx.decode f = set_text (jnx.size f) /\ 0 < jnx.size f.
Proof.
  destruct f; try discriminate; intros _; split; reflexivity.
Qed.

(** The header nodes fit the C++ types of the header fields as well. *)
Lemma header_nodes_fit :
  map (fun n => (parquet_type n, converted_type n))
    [pcap_index_node; pcap_timestamp_node; session_node; message_sequence_node;
     message_index_node; message_type_node]
  = map column_type [t_uint64; t_micros; t_string; t_uint64; t_uint16; t_uint8].
Proof.
  reflexivity.
Qed.

(** ** The scenarios of the specification, evaluated *)

(** Scenario A: one row, event code O, timestamp 57600. *)
Example scenario_A_row :
  let written := rows (writer (state (nasdaq.process 2 scenario_A a_header 0 new_converter))) in
  List.length written = 1%nat /\
  map message_type_of written = [Some (uint8 0x53)] /\
  map message_index_of written = [Some (uint16 1)] /\
  map (column nasdaq.field_beq nasdaq.written_fields nasdaq.event_code) written
  = [Some (uint8 79)] /\
  map (column nasdaq.field_beq nasdaq.written_fields nasdaq.timestamp) written
  = [Some (uint64 57600)].
Proof.
  repeat split.
Qed.

(** Scenario B: the stock column is AAPL, without the padding. *)
Example scenario_B_stock :
  map (column nasdaq.field_beq nasdaq.written_fields nasdaq.stock)
    (rows (writer (state (nasdaq.process 2 scenario_B a_header 0 new_converter))))
  = [Some (utf8 [Byte.x41; Byte.x41; Byte.x50; Byte.x4c])].
Proof.
  reflexivity.
Qed.

(** Scenario E: two rows; the first holds the seconds only. *)
Example scenario_E_rows :
  let written := rows (writer (state (jnx.process 3 scenario_E a_header 0 new_converter))) in
  map message_type_of written = [Some (uint8 84); Some (uint8 72)] /\
  map (column jnx.field_beq jnx.written_fields jnx.timestamp_seconds) written
  = [Some (uint32 34200); None] /\
  map (column jnx.field_beq jnx.written_fields jnx.group) written
  = [None; Some (utf8 [Byte.x4a; Byte.x50; Byte.x4e])].
Proof.
  repeat split.
Qed.

(** The 6-byte timestamp with all bits set is 2^48 - 1. *)
Example timestamp_all_ones :
  nasdaq.decode nasdaq.timestamp all_ones 0 = uint64 (2 ^ 48 - 1).
Proof.
  reflexivity.
Qed.

(** One 802.1Q tag is stepped over: the payload starts 4 bytes later. *)
Example tagged_frame_payload :
  nasdaq.try_get_nasdaq_itch 2 tagged_frame new_record 0
  = finished (pcap_index_increment new_record, true, 46, 34).
Proof.
  reflexivity.
Qed.

(** ** Rows and the catalog *)

(** C5. Every row the NASDAQ converter writes for a message whose type is in
the catalog has a value in exactly the message fields of that type's layout;
every other message field of the row is null.  This holds for the rows of a
run that has finished and for those written so far by one that has not. *)
Theorem C5_catalogued_row_holds_exactly_its_layout
  (fuel : nat) (m : memory) (header : pcap_pkthdr) (packet : Z) (cv : nasdaq.converter) :
  open_row (writer cv) = [] ->
  exists new,
    rows (writer (state (nasdaq.process fuel m header packet cv))) = rows (writer cv) ++ new /\
    forall (row : row) (T : Z) (layout : list nasdaq.field),
      In row new ->
      message_type_of row = Some (uint8 T) ->
      nasdaq.catalog T = Some layout ->
      forall f, column nasdaq.field_beq nasdaq.written_fields f row <> None <-> In f layout.
Proof.
  apply (rows_hold_their_layout nasdaq.field_beq nasdaq.size nasdaq.decode nasdaq.reset_order nasdaq.written_fields
           nasdaq.process_message nasdaq_field_beq_eq nasdaq.catalog
           nasdaq_process_message_catalog nasdaq_catalog_labels
           nasdaq_reset_order_complete nasdaq_written_fields_complete).
Qed.

Lemma C5_witness :
  exists new,
    rows (writer (state (nasdaq.process 2 scenario_A a_header 0 new_converter))) = [] ++ new /\
    forall (row : row) (T : Z) (layout : list nasdaq.field),
      In row new ->
      message_type_of row = Some (uint8 T) ->
      nasdaq.catalog T = Some layout ->
      forall f, column nasdaq.field_beq nasdaq.written_fields f row <> None <-> In f layout.
Proof.
  apply (C5_catalogued_row_holds_exactly_its_layout 2 scenario_A a_header 0 new_converter).
  reflexivity.
Defined.

(** The same in the JNX converter. *)
Lemma jnx_catalogued_row_holds_exactly_its_layout
  (fuel : nat) (m : memory) (header : pcap_pkthdr) (packet : Z) (cv : jnx.converter) :
  open_row (writer cv) = [] ->
  exists new,
    rows (writer (state (jnx.process fuel m header packet cv))) = rows (writer cv) ++ new /\
    forall (row : row) (T : Z) (layout : list jnx.field),
      In row new ->
      message_type_of row = Some (uint8 T) ->
      jnx.catalog T = Some layout ->
      forall f, column jnx.field_beq jnx.written_fields f row <> None <-> In f layout.
Proof.
  apply (rows_hold_their_layout jnx.field_beq jnx.size jnx.decode jnx.reset_order jnx.written_fields
           jnx.process_message jnx_field_beq_eq jnx.catalog
           jnx_process_message_catalog jnx_catalog_labels
           jnx_reset_order_complete jnx_written_fields_complete).
Qed.

(** C1, as the code has it.  For a message block whose type byte has no
catalog entry the NASDAQ driver moves on by 2 + L bytes, L being the declared
length of the block, and writes one row for the block: the row carries the
type byte, and every message field of it is null. *)
Theorem C1_unknown_type_block_writes_a_null_row
  (m : memory) (cv : nasdaq.converter) (current : Z) :
  open_row (writer cv) = [] ->
  nasdaq.catalog (load m (current + 2)) = None ->
  snd (nasdaq.process_block m cv current) = current + 2 + be16 m current /\
  exists row : row,
    rows (writer (fst (nasdaq.process_block m cv current))) = rows (writer cv) ++ [row] /\
    message_type_of row = Some (uint8 (load m (current + 2))) /\
    forall f, column nasdaq.field_beq nasdaq.written_fields f row = None.
Proof.
  apply (unknown_block_null_row nasdaq.field_beq nasdaq.size nasdaq.decode nasdaq.reset_order nasdaq.written_fields
           nasdaq.process_message nasdaq_field_beq_eq nasdaq.catalog
           nasdaq_process_message_catalog nasdaq_catalog_labels
           nasdaq_reset_order_complete nasdaq_written_fields_complete).
Qed.

Lemma C1_witness :
  snd (nasdaq.process_block scenario_C new_converter 83) = 83 + 2 + be16 scenario_C 83 /\
  exists row : row,
    rows (writer (fst (nasdaq.process_block scenario_C new_converter 83))) = [] ++ [row] /\
    message_type_of row = Some (uint8 (load scenario_C (83 + 2))) /\
    forall f, column nasdaq.field_beq nasdaq.written_fields f row = None.
Proof.
  apply (C1_unknown_type_block_writes_a_null_row scenario_C new_converter 83).
  - reflexivity.
  - vm_compute. reflexivity.
Defined.

(** C1, as the specification has it, fails on Scenario C: the packet holds an
Order Delete message, which the catalog knows, and a message of type 0x7A,
which it does not; the run finishes and has written two rows, not one. *)
Lemma C1_counterexample :
  nasdaq.catalog 68 = Some nasdaq.order_delete_message /\
  nasdaq.catalog 0x7A = None /\
  is_finished (nasdaq.process 3 scenario_C a_header 0 new_converter) = true /\
  map message_type_of
    (rows (writer (state (nasdaq.process 3 scenario_C a_header 0 new_converter))))
  = [Some (uint8 68); Some (uint8 0x7A)] /\
  List.length (rows (writer (state (nasdaq.process 3 scenario_C a_header 0 new_converter))))
  <> 1%nat.
Proof.
  repeat split; try (vm_compute; reflexivity).
  vm_compute. discriminate.
Qed.

(** The same in the JNX converter. *)
Lemma jnx_unknown_type_block_writes_a_null_row
  (m : memory) (cv : jnx.converter) (current : Z) :
  open_row (writer cv) = [] ->
  jnx.catalog (load m (current + 2)) = None ->
  snd (jnx.process_block m cv current) = current + 2 + be16 m current /\
  exists row : row,
    rows (writer (fst (jnx.process_block m cv current))) = rows (writer cv) ++ [row] /\
    message_type_of row = Some (uint8 (load m (current + 2))) /\
    forall f, column jnx.field_beq jnx.written_fields f row = None.
Proof.
  apply (unknown_block_null_row jnx.field_beq jnx.size jnx.decode jnx.reset_order jnx.written_fields
           jnx.process_message jnx_field_beq_eq jnx.catalog
           jnx_process_message_catalog jnx_catalog_labels
           jnx_reset_order_complete jnx_written_fields_complete).
Qed.

(** ** The sequence and the count of a packet *)

(** C2, evaluated on Scenario A.  The MoldUDP64 header carries Sequence 100
and Count 1; [converter::process] increments [message_sequence] before it
writes, so the only row carries 101, not 100. *)
Theorem C2_first_row_carries_sequence_plus_one :
  be64 scenario_A (42 + 10) = 100 /\
  be16 scenario_A (42 + 18) = 1 /\
  is_finished (nasdaq.process 2 scenario_A a_header 0 new_converter) = true /\
  map message_sequence_of
    (rows (writer (state (nasdaq.process 2 scenario_A a_header 0 new_converter))))
  = [Some (uint64 101)].
Proof.
  repeat split; vm_compute; reflexivity.
Qed.

(** C3, evaluated on a packet whose Count is 0xFFFF.  The guard
[data <= count] of the loop compares two 16-bit values, so it never fails:
on any fuel the run is unfinished and has written one row per unit of fuel.
The heartbeat with Count 0 finishes at once and writes nothing. *)
Theorem C3_count_ffff_never_leaves_the_loop (fuel : nat) :
  be16 end_of_session (42 + 18) = 0xFFFF /\
  is_finished (nasdaq.process fuel end_of_session a_header 0 new_converter) = false /\
  List.length (rows (writer (state (nasdaq.process fuel end_of_session a_header 0 new_converter))))
  = fuel /\
  be16 heartbeat (42 + 18) = 0 /\
  is_finished (nasdaq.process 1 heartbeat a_header 0 new_converter) = true /\
  rows (writer (state (nasdaq.process 1 heartbeat a_header 0 new_converter))) = [].
Proof.
  split; [vm_compute; reflexivity | ].
  split; [ | split; [ | repeat split; vm_compute; reflexivity]].
  - destruct fuel as [ | fuel]; [reflexivity | ].
    unfold nasdaq.process.
    destruct (process_never_finishes nasdaq.field_beq nasdaq.reset_order
                nasdaq.written_fields nasdaq.process_message (S fuel) end_of_session
                a_header 0 new_converter (pcap_index_increment new_record) 42 20)
      as (cv' & Hrun & _); [vm_compute; reflexivity | vm_compute; reflexivity | ].
    now rewrite Hrun.
  - destruct fuel as [ | fuel]; [reflexivity | ].
    unfold nasdaq.process.
    destruct (process_never_finishes nasdaq.field_beq nasdaq.reset_order
                nasdaq.written_fields nasdaq.process_message (S fuel) end_of_session
                a_header 0 new_converter (pcap_index_increment new_record) 42 20)
      as (cv' & Hrun & Hrows); [vm_compute; reflexivity | vm_compute; reflexivity | ].
    rewrite Hrun. cbn [state]. rewrite Hrows. reflexivity.
Qed.

(** ** The schema *)

(** C4, evaluated on [record::nodes].  The six header columns come first and
are required, the message-field columns follow, all optional and in strictly
increasing byte order of their names; but [pcap_timestamp::name] is the text
timestamp, so the second column is not named pcap_timestamp, and that name
occurs a second time, as the name of the message field. *)
Theorem C4_second_column_is_named_timestamp :
  map name (firstn 6 nasdaq.nodes)
  = ["pcap_index"; "timestamp"; "session"; "message_sequence"; "message_index";
     "message_type"]%string /\
  nth 1 (map name nasdaq.nodes) ""%string <> "pcap_timestamp"%string /\
  count_occ string_dec (map name nasdaq.nodes) "timestamp"%string = 2%nat /\
  forallb is_required (firstn 6 nasdaq.nodes) = true /\
  forallb is_optional (skipn 6 nasdaq.nodes) = true /\
  strictly_sorted (map name (skipn 6 nasdaq.nodes)) = true /\
  List.length nasdaq.nodes = 67%nat.
Proof.
  repeat split; try (vm_compute; reflexivity).
  vm_compute. discriminate.
Qed.

(** The JNX schema has the same six header columns, the second one named
timestamp as well, and its message-field columns are optional and sorted. *)
Example jnx_schema :
  map name (firstn 6 jnx.nodes) = map name (firstn 6 nasdaq.nodes) /\
  forallb is_required (firstn 6 jnx.nodes) = true /\
  forallb is_optional (skipn 6 jnx.nodes) = true /\
  strictly_sorted (map name (skipn 6 jnx.nodes)) = true /\
  List.length jnx.nodes = 31%nat.
Proof.
  repeat split.
Qed.

(** ** Rows and the Message Count *)

(** C7. Once the demuxer has returned a payload, the run of
[converter::process], in either feed, is governed by the Message Count of the
MoldUDP64 header alone: for 0 < Count < 0xFFFF it finishes and has written
Count rows more, whatever the payload length the demuxer computed and whatever
lies behind the header. *)
Theorem C7_rows_follow_the_message_count
  {field : Type} (field_eqb : field -> field -> bool)
  (reset_order written_fields : list field)
  (process_message : memory -> Z -> (field -> cell) * Z -> (field -> cell) * Z)
  (fuel : nat) (m : memory) (header : pcap_pkthdr) (packet : Z)
  (cv : converter) (r1 : record) (payload length : Z) :
  try_get_itch fuel m (the_record cv) packet = finished (r1, true, payload, length) ->
  0 < be16 m (payload + 18) < 0xFFFF ->
  (Z.to_nat (be16 m (payload + 18)) < fuel)%nat ->
  exists cv',
    process field_eqb reset_order written_fields process_message fuel m header packet cv
    = finished cv' /\
    Z.of_nat (List.length (rows (writer cv')))
    = Z.of_nat (List.length (rows (writer cv))) + be16 m (payload + 18).
Proof.
  intros Hget Hcount Hfuel.
  destruct (process_finishes field_eqb reset_order written_fields process_message
              fuel m header packet cv r1 payload length Hget)
    as (cv' & Hrun & Hrows & _); [lia | exact Hfuel | ].
  exists cv'. split; [exact Hrun | exact Hrows].
Qed.

(** The UDP header of [short_datagram] announces a payload of 20 bytes, the
MoldUDP64 header and no block; Count is 3 and three rows are written. *)
Lemma C7_witness :
  exists cv',
    process nasdaq.field_beq nasdaq.reset_order nasdaq.written_fields nasdaq.process_message
      4 short_datagram a_header 0 new_converter
    = finished cv' /\
    Z.of_nat (List.length (rows (writer cv')))
    = Z.of_nat (List.length (rows (writer (@new_converter nasdaq.field))))
      + be16 short_datagram (42 + 18).
Proof.
  apply (C7_rows_follow_the_message_count nasdaq.field_beq nasdaq.reset_order
           nasdaq.written_fields nasdaq.process_message 4 short_datagram a_header 0
           new_converter (pcap_index_increment new_record) 42 20).
  - vm_compute. reflexivity.
  - vm_compute. split; reflexivity.
  - vm_compute. lia.
Defined.

(** The same count in the JNX converter, on the same packet. *)
Lemma jnx_short_datagram_rows :
  is_finished (jnx.process 4 short_datagram a_header 0 new_converter) = true /\
  List.length (rows (writer (state (jnx.process 4 short_datagram a_header 0 new_converter))))
  = 3%nat.
Proof.
  split; vm_compute; reflexivity.
Qed.

(** C9. A packet whose Message Count is 0 is processed to the end without a
row being written, and [pcap_index] has been incremented, as a 64-bit
counter, by one. *)
Theorem C9_count_zero_writes_nothing_and_counts_the_packet
  {field : Type} (field_eqb : field -> field -> bool)
  (reset_order written_fields : list field)
  (process_message : memory -> Z -> (field -> cell) * Z -> (field -> cell) * Z)
  (fuel : nat) (m : memory) (header : pcap_pkthdr) (packet : Z)
  (cv : converter) (r1 : record) (payload length : Z) :
  try_get_itch fuel m (the_record cv) packet = finished (r1, true, payload, length) ->
  be16 m (payload + 18) = 0 ->
  exists cv',
    process field_eqb reset_order written_fields process_message fuel m header packet cv
    = finished cv' /\
    writer cv' = writer cv /\
    pcap_index (the_record cv') = wrap 64 (pcap_index (the_record cv) + 1) /\
    (0 <= pcap_index (the_record cv) < 2 ^ 64 - 1 ->
     pcap_index (the_record cv') = pcap_index (the_record cv) + 1).
Proof.
  intros Hget Hcount.
  pose proof (try_get_itch_fuel fuel m (the_record cv) packet _ Hget) as Hfuel.
  pose proof (try_get_itch_record fuel m (the_record cv) packet) as Hrec.
  rewrite Hget in Hrec. cbn [state fst] in Hrec.
  rewrite (process_eq _ _ _ _ _ _ _ _ _ _ _ _ Hget).
  destruct fuel as [ | fuel]; [lia | ].
  rewrite message_loop_S. cbn zeta.
  unfold message_index_increment; cbn [fst snd the_record header_record
    message_index message_index_count].
  replace (payload + 10 + 8) with (payload + 18) by lia. rewrite Hcount.
  change (wrap 16 (0 + 1) <=? 0) with false. cbv iota.
  eexists. split; [reflexivity | ].
  cbn [writer the_record pcap_index]. split; [reflexivity | ].
  subst r1. cbn [pcap_index_increment pcap_index].
  split; [reflexivity | ].
  intros Hrange. unfold wrap. apply Z.mod_small. lia.
Qed.

Lemma C9_witness :
  exists cv',
    process nasdaq.field_beq nasdaq.reset_order nasdaq.written_fields nasdaq.process_message
      1 heartbeat a_header 0 new_converter
    = finished cv' /\
    writer cv' = writer (@new_converter nasdaq.field) /\
    pcap_index (the_record cv')
    = wrap 64 (pcap_index (the_record (@new_converter nasdaq.field)) + 1) /\
    (0 <= pcap_index (the_record (@new_converter nasdaq.field)) < 2 ^ 64 - 1 ->
     pcap_index (the_record cv') = pcap_index (the_record (@new_converter nasdaq.field)) + 1).
Proof.
  apply (C9_count_zero_writes_nothing_and_counts_the_packet nasdaq.field_beq
           nasdaq.reset_order nasdaq.written_fields nasdaq.process_message 1 heartbeat
           a_header 0 new_converter (pcap_index_increment new_record) 42 20).
  - vm_compute. reflexivity.
  - vm_compute. reflexivity.
Defined.


(** ** Text fields *)

(** The message fields of the NASDAQ catalog that hold text, that is, whose
[data] is an optional string, are these five. *)
Lemma nasdaq_text_fields (f : nasdaq.field) :
  nasdaq.field_type f = t_string <->
  In f [nasdaq.attribution; nasdaq.issue_sub_type; nasdaq.mpid; nasdaq.reason; nasdaq.stock].
Proof.
  split.
  - intros H. destruct f; try discriminate H; cbn [In]; auto 6.
  - intros [<- | [<- | [<- | [<- | [<- | []]]]]]; reflexivity.
Qed.

(** C6, as the code has it.  Decoding one of the optional text fields of the
NASDAQ messages, attribution, issue_sub_type, mpid, reason or stock, keeps the
bytes before the first 0x20 byte of the body of the field, all of them when
there is none, and drops that byte and whatever follows it; the cursor moves
by the width of the field.  The Session of the MoldUDP64 header is not one of
them: [session::set] keeps its ten bytes. *)
Theorem C6_text_is_cut_at_the_first_space
  (f : nasdaq.field) (m : memory) (fs : nasdaq.field -> cell) (current : Z) :
  In f [nasdaq.attribution; nasdaq.issue_sub_type; nasdaq.mpid; nasdaq.reason; nasdaq.stock] ->
  exists k,
    0 <= k <= nasdaq.size f /\
    fst (nasdaq.set f m (fs, current)) f = Some (utf8 (string_view m current k)) /\
    snd (nasdaq.set f m (fs, current)) = current + nasdaq.size f /\
    (forall i, 0 <= i < k -> load m (current + i) <> 32) /\
    (k < nasdaq.size f -> load m (current + k) = 32).
Proof.
  intros Hnamed. apply nasdaq_text_fields in Hnamed.
  destruct (nasdaq_text_field f Hnamed) as [Hdecode Hsize].
  apply (set_text_field _ _ _ nasdaq_field_beq_eq); [exact Hdecode | lia].
Qed.

Lemma C6_witness :
  exists k,
    0 <= k <= nasdaq.size nasdaq.stock /\
    fst (nasdaq.set nasdaq.stock interior_space (fun _ => None, 0)) nasdaq.stock
    = Some (utf8 (string_view interior_space 0 k)) /\
    snd (nasdaq.set nasdaq.stock interior_space (fun _ => None, 0)) = 0 + nasdaq.size nasdaq.stock /\
    (forall i, 0 <= i < k -> load interior_space (0 + i) <> 32) /\
    (k < nasdaq.size nasdaq.stock -> load interior_space (0 + k) = 32).
Proof.
  apply (C6_text_is_cut_at_the_first_space nasdaq.stock interior_space (fun _ => None) 0).
  do 4 right. left. reflexivity.
Defined.

(** C6, as the specification has it, fails on the stock field: in the body
AB CD followed by three spaces the byte C stands behind an interior space, and
the decoded text is AB, without it; a leading space leaves the empty text. *)
Lemma C6_counterexample :
  string_view interior_space 0 8
  = [Byte.x41; Byte.x42; Byte.x20; Byte.x43; Byte.x44; Byte.x20; Byte.x20; Byte.x20] /\
  fst (nasdaq.set nasdaq.stock interior_space (fun _ => None, 0)) nasdaq.stock
  = Some (utf8 [Byte.x41; Byte.x42]) /\
  ~ In Byte.x43 [Byte.x41; Byte.x42] /\
  fst (nasdaq.set nasdaq.stock leading_space (fun _ => None, 0)) nasdaq.stock
  = Some (utf8 []).
Proof.
  repeat split; try (vm_compute; reflexivity).
  intros [H | [H | []]]; discriminate.
Qed.

(** The text fields of the JNX feed are cut the same way. *)
Lemma jnx_text_is_cut_at_the_first_space
  (f : jnx.field) (m : memory) (fs : jnx.field -> cell) (current : Z) :
  jnx.field_type f = t_string ->
  exists k,
    0 <= k <= jnx.size f /\
    fst (jnx.set f m (fs, current)) f = Some (utf8 (string_view m current k)) /\
    snd (jnx.set f m (fs, current)) = current + jnx.size f /\
    (forall i, 0 <= i < k -> load m (current + i) <> 32) /\
    (k < jnx.size f -> load m (current + k) = 32).
Proof.
  intros Htext. destruct (jnx_text_field f Htext) as [Hdecode Hsize].
  apply (set_text_field _ _ _ jnx_field_beq_eq); [exact Hdecode | lia].
Qed.

(** C10, as the code has it.  One of the optional text fields of the NASDAQ
messages, attribution, issue_sub_type, mpid, reason or stock, whose body is
0x20 throughout decodes to a value that is present and is the empty text. *)
Theorem C10_all_spaces_is_present_and_empty
  (f : nasdaq.field) (m : memory) (fs : nasdaq.field -> cell) (current : Z) :
  In f [nasdaq.attribution; nasdaq.issue_sub_type; nasdaq.mpid; nasdaq.reason; nasdaq.stock] ->
  (forall i, 0 <= i < nasdaq.size f -> load m (current + i) = 32) ->
  fst (nasdaq.set f m (fs, current)) f = Some (utf8 []).
Proof.
  intros Hnamed. apply nasdaq_text_fields in Hnamed.
  destruct (nasdaq_text_field f Hnamed) as [Hdecode Hsize].
  now apply (set_text_field_spaces _ _ _ nasdaq_field_beq_eq).
Qed.

Lemma C10_witness :
  fst (nasdaq.set nasdaq.stock all_spaces (fun _ => None, 0)) nasdaq.stock = Some (utf8 []).
Proof.
  apply (C10_all_spaces_is_present_and_empty nasdaq.stock all_spaces (fun _ => None) 0).
  - do 4 right. left. reflexivity.
  - intros i Hi.
    assert (i = 0 \/ i = 1 \/ i = 2 \/ i = 3 \/ i = 4 \/ i = 5 \/ i = 6 \/ i = 7) as Hcases
      by (change (nasdaq.size nasdaq.stock) with 8 in Hi; lia).
    destruct Hcases as [-> | [-> | [-> | [-> | [-> | [-> | [-> | ->]]]]]]]; reflexivity.
Defined.

(** C10, as the specification has it, fails on the Session of the MoldUDP64
header, a fixed-width text that is padded on the right: [session::set] keeps
the ten bytes as they are, so a Session of ten spaces reaches the row as the
text of ten spaces, of length 10, not as the empty text. *)
Lemma C10_counterexample :
  (forall i, 0 <= i < 10 -> load blank_session (42 + i) = 32) /\
  nasdaq.try_get_nasdaq_itch 2 blank_session new_record 0
  = finished (pcap_index_increment new_record, true, 42, 34) /\
  session (fst (session_set blank_session 42 (@new_record nasdaq.field)))
  = repeat Byte.x20 10 /\
  map session_of
    (rows (writer (state (nasdaq.process 2 blank_session a_header 0 new_converter))))
  = [Some (utf8 (repeat Byte.x20 10))] /\
  List.length (repeat Byte.x20 10) = 10%nat /\
  Some (utf8 (repeat Byte.x20 10)) <> Some (utf8 []).
Proof.
  split; [ | repeat split; try (vm_compute; reflexivity); discriminate].
  intros i Hi.
  assert (i = 0 \/ i = 1 \/ i = 2 \/ i = 3 \/ i = 4 \/ i = 5 \/ i = 6 \/ i = 7
          \/ i = 8 \/ i = 9) as Hcases by lia.
  destruct Hcases as [-> | [-> | [-> | [-> | [-> | [-> | [-> | [-> | [-> | ->]]]]]]]]];
    reflexivity.
Qed.

(** A text field of the JNX messages, attribution, group or orderbook_code,
whose body is 0x20 throughout decodes to the empty text as well. *)
Lemma jnx_all_spaces_is_present_and_empty
  (f : jnx.field) (m : memory) (fs : jnx.field -> cell) (current : Z) :
  jnx.field_type f = t_string ->
  (forall i, 0 <= i < jnx.size f -> load m (current + i) = 32) ->
  fst (jnx.set f m (fs, current)) f = Some (utf8 []).
Proof.
  intros Htext. destruct (jnx_text_field f Htext) as [Hdecode Hsize].
  now apply (set_text_field_spaces _ _ _ jnx_field_beq_eq).
Qed.

(** ** Writing a row and reading it back *)

(** Every record the NASDAQ converter writes can be read back: it meets the
two conditions of the round trip below. *)
Lemma nasdaq_block_record_typed (m : memory) (r : nasdaq.record) (current : Z) :
  let written :=
    block_record nasdaq.field_beq nasdaq.reset_order nasdaq.process_message m r current in
  -128 <= message_type written < 128 /\
  forall f v, fields written f = Some v -> type_of v = nasdaq.field_type f.
Proof.
  apply (block_record_typed nasdaq.field_beq nasdaq.size nasdaq.decode nasdaq.field_type
           nasdaq.reset_order nasdaq.process_message nasdaq_field_beq_eq nasdaq.catalog
           nasdaq_process_message_catalog nasdaq_catalog_labels
           nasdaq_reset_order_complete nasdaq_decode_typed).
Qed.

(** C8. A record written as one row by [operator<<] and read back by
[operator>>] gives every column its value again: the six header columns and
every message field, null or not.  The streams are taken as first in, first
out; the record is one the converter can hold, with a [char] as message type
and values of the declared C++ types. *)
Theorem C8_row_read_back_is_the_row_written (r r0 : nasdaq.record) :
  -128 <= message_type r < 128 ->
  (forall f v, fields r f = Some v -> type_of v = nasdaq.field_type f) ->
  exists (rd : StreamReader) (r' : nasdaq.record),
    open_reader (rows (nasdaq.write_record new_writer r)) = Some rd /\
    nasdaq.read_record rd r0 = Some (r', []) /\
    pcap_index r' = pcap_index r /\
    pcap_timestamp r' = pcap_timestamp r /\
    session r' = session r /\
    message_sequence r' = message_sequence r /\
    message_index r' = message_index r /\
    message_type r' = message_type r /\
    forall f, fields r' f = fields r f.
Proof.
  intros Hchar Htyped.
  unfold nasdaq.write_record, nasdaq.read_record.
  rewrite write_record_rows. cbn [new_writer rows open_row app open_reader].
  change nasdaq.read_fields with nasdaq.written_fields.
  destruct (read_record_written nasdaq.field_beq nasdaq.field_type nasdaq.written_fields
              nasdaq_field_beq_eq r r0 [] Hchar Htyped) as (fs & Hread & Hfs).
  eexists. eexists. split; [reflexivity | ]. split; [exact Hread | ].
  cbn [pcap_index pcap_timestamp session message_sequence message_index message_type fields].
  repeat split.
  intros f. rewrite Hfs.
  assert (existsb (nasdaq.field_beq f) nasdaq.written_fields = true) as ->
    by (destruct f; reflexivity).
  reflexivity.
Qed.

Lemma C8_witness :
  let r := the_record (state (nasdaq.process 2 scenario_B a_header 0 new_converter)) in
  exists (rd : StreamReader) (r' : nasdaq.record),
    open_reader (rows (nasdaq.write_record new_writer r)) = Some rd /\
    nasdaq.read_record rd new_record = Some (r', []) /\
    pcap_index r' = pcap_index r /\
    pcap_timestamp r' = pcap_timestamp r /\
    session r' = session r /\
    message_sequence r' = message_sequence r /\
    message_index r' = message_index r /\
    message_type r' = message_type r /\
    forall f, fields r' f = fields r f.
Proof.
  apply (C8_row_read_back_is_the_row_written
           (the_record (state (nasdaq.process 2 scenario_B a_header 0 new_converter)))
           new_record).
  - split; vm_compute; [discriminate | reflexivity].
  - intros f v. destruct f; vm_compute; intros H; inversion H; reflexivity.
Defined.

(** * Further properties *)

(** ** Integers on the wire *)

Lemma big_endian_bound (m : memory) (n : nat) (p value : Z) (k : nat) :
  (k + n <= 8)%nat ->
  0 <= value < 256 ^ Z.of_nat k ->
  0 <= big_endian m p n value < 256 ^ Z.of_nat (k + n).
Proof.
  revert p value k. induction n as [ | n IH]; intros p value k Hk Hv; cbn [big_endian].
  - now rewrite Nat.add_0_r.
  - replace (k + S n)%nat with (S k + n)%nat by lia.
    apply IH; [lia | ].
    pose proof (load_range m p) as Hb.
    assert (256 ^ Z.of_nat (S k) <= 2 ^ 64) as Hmax.
    { change (2 ^ 64) with (256 ^ 8). apply Z.pow_le_mono_r; lia. }
    rewrite Nat2Z.inj_succ, Z.pow_succ_r in Hmax by lia.
    rewrite Nat2Z.inj_succ, Z.pow_succ_r by lia.
    unfold wrap. rewrite Z.shiftl_mul_pow2 by lia. change (2 ^ 8) with 256.
    rewrite Z.mod_small by lia. lia.
Qed.

(** Within eight bytes the 64-bit accumulator does not wrap: the loop is the
positional sum of the bytes. *)
Lemma big_endian_fold (m : memory) (n : nat) (p value : Z) (k : nat) :
  (k + n <= 8)%nat ->
  0 <= value < 256 ^ Z.of_nat k ->
  big_endian m p n value =
  fold_left (fun a b => a * 256 + b)
    (map (fun i => load m (p + Z.of_nat i)) (seq 0 n)) value.
Proof.
  revert p value k. induction n as [ | n IH]; intros p value k Hk Hv;
    [reflexivity | ].
  cbn [big_endian seq map fold_left].
  pose proof (load_range m p) as Hb.
  assert (256 ^ Z.of_nat (S k) <= 2 ^ 64) as Hmax.
  { change (2 ^ 64) with (256 ^ 8). apply Z.pow_le_mono_r; lia. }
  rewrite Nat2Z.inj_succ, Z.pow_succ_r in Hmax by lia.
  assert (wrap 64 (Z.shiftl value 8 + load m p) = value * 256 + load m (p + Z.of_nat 0)) as ->.
  { unfold wrap. rewrite Z.shiftl_mul_pow2 by lia. change (2 ^ 8) with 256.
    cbn [Z.of_nat]. rewrite Z.add_0_r. apply Z.mod_small. lia. }
  rewrite (IH (p + 1) _ (S k)).
  - f_equal. rewrite <- seq_shift, map_map. apply map_ext.
    intros i. f_equal. lia.
  - lia.
  - change (Z.of_nat 0) with 0. rewrite Z.add_0_r.
    rewrite Nat2Z.inj_succ, Z.pow_succ_r by lia. lia.
Qed.

Lemma be_bytes_fold (n : nat) (v acc : Z) :
  fold_left (fun a b => a * 256 + b) (be_bytes n v) acc
  = acc * 256 ^ Z.of_nat n + v mod 256 ^ Z.of_nat n.
Proof.
  revert v. induction n as [ | n IH]; intros v.
  - cbn [be_bytes fold_left Z.of_nat]. rewrite Z.pow_0_r, Z.mod_1_r. lia.
  - cbn [be_bytes]. rewrite fold_left_app, IH. cbn [fold_left].
    rewrite Nat2Z.inj_succ, Z.pow_succ_r by lia.
    rewrite (Z.rem_mul_r v 256 (256 ^ Z.of_nat n)) by lia. ring.
Qed.

(** X2. The integer codecs invert the big-endian encoding: when the n bytes
at the cursor, n up to 8, are the bytes of v, most significant first, the
decoded value is v.  This is the 2-, 4- and 8-byte [set] through [htobe16],
[htobe32] and [htobe64] and the 6-byte loop of [timestamp::set]. *)
Theorem X2_integers_decode_big_endian (m : memory) (p : Z) (n : nat) (v : Z) :
  (n <= 8)%nat ->
  0 <= v < 256 ^ Z.of_nat n ->
  map (fun i => load m (p + Z.of_nat i)) (seq 0 n) = be_bytes n v ->
  big_endian m p n 0 = v /\
  (n = 2%nat -> set_uint16 m p = uint16 v) /\
  (n = 4%nat -> set_uint32 m p = uint32 v) /\
  (n = 6%nat -> set_uint48 m p = uint64 v) /\
  (n = 8%nat -> set_uint64 m p = uint64 v).
Proof.
  intros Hn Hv Hbytes.
  assert (big_endian m p n 0 = v) as Hvalue.
  { rewrite (big_endian_fold m n p 0 0) by (cbn; lia).
    rewrite Hbytes, be_bytes_fold. rewrite Z.mod_small by exact Hv. lia. }
  split; [exact Hvalue | ].
  unfold set_uint16, set_uint32, set_uint48, set_uint64, be16, be32, be64.
  repeat split; intros ->; now rewrite Hvalue.
Qed.

Lemma X2_witness :
  big_endian (memory_of 0 (be_bytes 4 1500000)) 0 4 0 = 1500000 /\
  (4%nat = 2%nat -> set_uint16 (memory_of 0 (be_bytes 4 1500000)) 0 = uint16 1500000) /\
  (4%nat = 4%nat -> set_uint32 (memory_of 0 (be_bytes 4 1500000)) 0 = uint32 1500000) /\
  (4%nat = 6%nat -> set_uint48 (memory_of 0 (be_bytes 4 1500000)) 0 = uint64 1500000) /\
  (4%nat = 8%nat -> set_uint64 (memory_of 0 (be_bytes 4 1500000)) 0 = uint64 1500000).
Proof.
  apply (X2_integers_decode_big_endian (memory_of 0 (be_bytes 4 1500000)) 0 4 1500000).
  - lia.
  - vm_compute. split; [discriminate | reflexivity].
  - vm_compute. reflexivity.
Defined.

Lemma set_char_verbatim (m : memory) (p : Z) : set_char m p = uint8 (load m p).
Proof.
  unfold set_char. now rewrite to_uint8_to_char by apply load_range.
Qed.

Lemma codecs_in_range (m : memory) (p : Z) :
  in_range (set_char m p) /\ in_range (set_uint16 m p) /\ in_range (set_uint32 m p) /\
  in_range (set_uint64 m p) /\ in_range (set_uint48 m p).
Proof.
  rewrite set_char_verbatim.
  unfold set_uint16, set_uint32, set_uint64, set_uint48, be16, be32, be64, in_range.
  pose proof (load_range m p).
  pose proof (big_endian_bound m 2 p 0 0 ltac:(lia) ltac:(cbn; lia)).
  pose proof (big_endian_bound m 4 p 0 0 ltac:(lia) ltac:(cbn; lia)).
  pose proof (big_endian_bound m 8 p 0 0 ltac:(lia) ltac:(cbn; lia)).
  pose proof (big_endian_bound m 6 p 0 0 ltac:(lia) ltac:(cbn; lia)).
  cbn [Nat.add Z.of_nat Pos.of_succ_nat Pos.succ] in *.
  change (256 ^ 2) with (2 ^ 16) in *. change (256 ^ 4) with (2 ^ 32) in *.
  change (256 ^ 8) with (2 ^ 64) in *.
  assert (256 ^ 6 < 2 ^ 64) by (vm_compute; reflexivity).
  change (2 ^ 8) with 256. repeat split; lia.
Qed.

(** X1. Whatever the bytes of the message, every value that a [set] of
either feed stores is within the range of the C++ type of its [data] member
(8, 16, 32 or 64 bits), and the 6-byte NASDAQ timestamp is below 2^48. *)
Theorem X1_decoded_values_fit_their_type :
  (forall f m p, in_range (nasdaq.decode f m p)) /\
  (forall f m p, in_range (jnx.decode f m p)) /\
  (forall m p v, nasdaq.decode nasdaq.timestamp m p = uint64 v -> 0 <= v < 2 ^ 48).
Proof.
  split; [ | split].
  - intros f m p. destruct (codecs_in_range m p) as (H8 & H16 & H32 & H64 & H48).
    destruct f; first [exact H8 | exact H16 | exact H32 | exact H64 | exact H48 | exact I].
  - intros f m p. destruct (codecs_in_range m p) as (H8 & H16 & H32 & H64 & H48).
    destruct f; first [exact H8 | exact H16 | exact H32 | exact H64 | exact H48 | exact I].
  - intros m p v [= <-].
    pose proof (big_endian_bound m 6 p 0 0 ltac:(lia) ltac:(cbn; lia)) as H.
    exact H.
Qed.

(** ** Text and character codes *)

Lemma string_view_in (m : memory) (p k : Z) (b : byte) :
  In b (string_view m p k) -> exists i, 0 <= i < k /\ b = m (p + i).
Proof.
  unfold string_view. intros H. apply in_map_iff in H. destruct H as (j & Hb & Hj).
  apply in_seq in Hj. exists (Z.of_nat j). split; [lia | now symmetry].
Qed.

Lemma string_view_length (m : memory) (p k : Z) :
  List.length (string_view m p k) = Z.to_nat k.
Proof.
  unfold string_view. now rewrite length_map, length_seq.
Qed.

Lemma firstn_seq (n a len : nat) : firstn n (seq a len) = seq a (Nat.min n len).
Proof.
  revert a len. induction n as [ | n IH]; intros a [ | len]; cbn [firstn seq Nat.min];
    try reflexivity.
  now rewrite IH.
Qed.

Lemma string_view_prefix (m : memory) (p k n : Z) :
  0 <= k <= n ->
  string_view m p k = firstn (Z.to_nat k) (string_view m p n).
Proof.
  intros H. unfold string_view. rewrite firstn_map, firstn_seq.
  now rewrite Nat.min_l by lia.
Qed.

Section text_facts.

Context {field : Type}.
Variable field_eqb : field -> field -> bool.
Variable size : field -> Z.
Variable decode : field -> memory -> Z -> value.
Hypothesis field_eqb_eq : forall a b : field, field_eqb a b = true <-> a = b.

(** The text a text field stores: a prefix of the body, free of spaces. *)
Lemma text_field_value (f : field) (m : memory) (fs : field -> cell) (current : Z) :
  decode f = set_text (size f) -> 0 <= size f ->
  exists s,
    fst (set field_eqb size decode f m (fs, current)) f = Some (utf8 s) /\
    ~ In Byte.x20 s /\
    Z.of_nat (List.length s) <= size f /\
    s = firstn (List.length s) (string_view m current (size f)).
Proof using field_eqb_eq.
  intros Hdecode Hsize.
  destruct (set_text_field field_eqb size decode field_eqb_eq f m fs current Hdecode Hsize)
    as (k & Hk & Hset & _ & Hbefore & _).
  exists (string_view m current k). split; [exact Hset | ]. split; [ | split].
  - intros Hin. apply string_view_in in Hin. destruct Hin as (i & Hi & Hb).
    apply (Hbefore i Hi). unfold load. now rewrite <- Hb.
  - rewrite string_view_length. lia.
  - rewrite string_view_length. now apply string_view_prefix.
Qed.

End text_facts.

(** X3. The text that a fixed-width text field of the NASDAQ feed stores
never contains a 0x20 byte, is at most as long as the field is wide, and is
a prefix of the body of the field. *)
Theorem X3_text_is_a_prefix_without_spaces
  (f : nasdaq.field) (m : memory) (fs : nasdaq.field -> cell) (current : Z) :
  nasdaq.field_type f = t_string ->
  exists s,
    fst (nasdaq.set f m (fs, current)) f = Some (utf8 s) /\
    ~ In Byte.x20 s /\
    Z.of_nat (List.length s) <= nasdaq.size f /\
    s = firstn (List.length s) (string_view m current (nasdaq.size f)).
Proof.
  intros Htext. destruct (nasdaq_text_field f Htext) as [Hdecode Hsize].
  apply (text_field_value _ _ _ nasdaq_field_beq_eq); [exact Hdecode | lia].
Qed.

Lemma X3_witness :
  exists s,
    fst (nasdaq.set nasdaq.stock interior_space (fun _ => None, 0)) nasdaq.stock
    = Some (utf8 s) /\
    ~ In Byte.x20 s /\
    Z.of_nat (List.length s) <= nasdaq.size nasdaq.stock /\
    s = firstn (List.length s) (string_view interior_space 0 (nasdaq.size nasdaq.stock)).
Proof.
  apply (X3_text_is_a_prefix_without_spaces nasdaq.stock interior_space (fun _ => None) 0).
  reflexivity.
Defined.

(** X4. A character-code field of the NASDAQ feed stores the byte of the
message as it is, also a byte of 0x80 and above, which passes through a
signed [char] on the way, and moves the cursor by one. *)
Theorem X4_character_codes_are_stored_verbatim
  (f : nasdaq.field) (m : memory) (fs : nasdaq.field -> cell) (current : Z) :
  nasdaq.field_type f = t_uint8 ->
  fst (nasdaq.set f m (fs, current)) f = Some (uint8 (load m current)) /\
  snd (nasdaq.set f m (fs, current)) = current + 1.
Proof.
  intros Hchar.
  destruct (set_value nasdaq.field_beq nasdaq.size nasdaq.decode nasdaq_field_beq_eq
              f m fs current) as [Hvalue Hcursor].
  unfold nasdaq.set. rewrite Hvalue, Hcursor.
  destruct f; try discriminate; cbn [nasdaq.decode nasdaq.size];
    now rewrite set_char_verbatim.
Qed.

Lemma X4_witness :
  fst (nasdaq.set nasdaq.event_code all_ones (fun _ => None, 0)) nasdaq.event_code
  = Some (uint8 (load all_ones 0)) /\
  snd (nasdaq.set nasdaq.event_code all_ones (fun _ => None, 0)) = 0 + 1.
Proof.
  apply (X4_character_codes_are_stored_verbatim nasdaq.event_code all_ones (fun _ => None) 0).
  reflexivity.
Defined.

(** ** What a message reads *)

Lemma agree_shift (m1 m2 : memory) (p n d : Z) :
  agree m1 m2 p n -> 0 <= d -> agree m1 m2 (p + d) (n - d).
Proof.
  intros H Hd i Hi. rewrite <- Z.add_assoc. apply H. lia.
Qed.

Lemma agree_less (m1 m2 : memory) (p n k : Z) :
  agree m1 m2 p n -> k <= n -> agree m1 m2 p k.
Proof.
  intros H Hk i Hi. apply H. lia.
Qed.

Lemma load_agree (m1 m2 : memory) (p n : Z) :
  agree m1 m2 p n -> 0 < n -> load m1 p = load m2 p.
Proof.
  intros H Hn. unfold load. specialize (H 0). rewrite Z.add_0_r in H. rewrite H; [reflexivity | lia].
Qed.

Lemma big_endian_agree (m1 m2 : memory) (n : nat) (p value : Z) :
  agree m1 m2 p (Z.of_nat n) -> big_endian m1 p n value = big_endian m2 p n value.
Proof.
  revert p value. induction n as [ | n IH]; intros p value H; cbn [big_endian];
    [reflexivity | ].
  rewrite (load_agree m1 m2 p (Z.of_nat (S n)) H) by lia.
  apply IH. replace (Z.of_nat n) with (Z.of_nat (S n) - 1) by lia.
  apply agree_shift; [exact H | lia].
Qed.

Lemma scan_agree (m1 m2 : memory) (current : Z) (todo : nat) (index : Z) :
  0 <= index ->
  agree m1 m2 current (index + Z.of_nat todo) ->
  scan m1 current todo index = scan m2 current todo index.
Proof.
  revert index. induction todo as [ | todo IH]; intros index Hindex H; cbn [scan];
    [reflexivity | ].
  assert (load m1 (current + index) = load m2 (current + index)) as ->
    by (unfold load; rewrite H; [reflexivity | lia]).
  destruct (load m2 (current + index) =? 32); [reflexivity | ].
  apply IH; [lia | ]. replace (index + 1 + Z.of_nat todo) with (index + Z.of_nat (S todo)) by lia.
  exact H.
Qed.

Lemma string_view_agree (m1 m2 : memory) (p n k : Z) :
  agree m1 m2 p n -> k <= n -> string_view m1 p k = string_view m2 p k.
Proof.
  intros H Hk. unfold string_view. apply map_ext_in.
  intros j Hj. apply in_seq in Hj. apply H. lia.
Qed.

Lemma set_text_agree (m1 m2 : memory) (size p : Z) :
  0 <= size -> agree m1 m2 p size -> set_text size m1 p = set_text size m2 p.
Proof.
  intros Hsize H. unfold set_text.
  rewrite (scan_agree m1 m2 p (Z.to_nat size) 0) by (try lia; now rewrite Z2Nat.id).
  f_equal. apply (string_view_agree m1 m2 p size); [exact H | ].
  pose proof (scan_bounds m2 p (Z.to_nat size) 0). lia.
Qed.

Lemma codecs_agree (m1 m2 : memory) (p : Z) :
  (agree m1 m2 p 1 -> set_char m1 p = set_char m2 p) /\
  (agree m1 m2 p 2 -> set_uint16 m1 p = set_uint16 m2 p) /\
  (agree m1 m2 p 4 -> set_uint32 m1 p = set_uint32 m2 p) /\
  (agree m1 m2 p 8 -> set_uint64 m1 p = set_uint64 m2 p) /\
  (agree m1 m2 p 6 -> set_uint48 m1 p = set_uint48 m2 p).
Proof.
  unfold set_char, set_uint16, set_uint32, set_uint64, set_uint48, be16, be32, be64.
  repeat split; intros H.
  - now rewrite (load_agree m1 m2 p 1 H) by lia.
  - now rewrite (big_endian_agree m1 m2 2 p 0 H).
  - now rewrite (big_endian_agree m1 m2 4 p 0 H).
  - now rewrite (big_endian_agree m1 m2 8 p 0 H).
  - now rewrite (big_endian_agree m1 m2 6 p 0 H).
Qed.

(** A [set] of the NASDAQ feed reads the bytes of its field and no other. *)
Lemma nasdaq_decode_local (f : nasdaq.field) (m1 m2 : memory) (p : Z) :
  agree m1 m2 p (nasdaq.size f) -> nasdaq.decode f m1 p = nasdaq.decode f m2 p.
Proof.
  destruct (codecs_agree m1 m2 p) as (H8 & H16 & H32 & H64 & H48).
  destruct f; cbn [nasdaq.size nasdaq.decode];
    first [exact H8 | exact H16 | exact H32 | exact H64 | exact H48
          | apply set_text_agree; lia].
Qed.

Lemma jnx_decode_local (f : jnx.field) (m1 m2 : memory) (p : Z) :
  agree m1 m2 p (jnx.size f) -> jnx.decode f m1 p = jnx.decode f m2 p.
Proof.
  destruct (codecs_agree m1 m2 p) as (H8 & H16 & H32 & H64 & H48).
  destruct f; cbn [jnx.size jnx.decode];
    first [exact H8 | exact H16 | exact H32 | exact H64 | exact H48
          | apply set_text_agree; lia].
Qed.

Lemma nasdaq_size_positive (f : nasdaq.field) : 0 < nasdaq.size f.
Proof.
  destruct f; reflexivity.
Qed.

Lemma jnx_size_positive (f : jnx.field) : 0 < jnx.size f.
Proof.
  destruct f; reflexivity.
Qed.

Section layout_facts.

Context {field : Type}.
Variable field_eqb : field -> field -> bool.
Variable size : field -> Z.
Variable decode : field -> memory -> Z -> value.
Variable reset_order : list field.
Variable process_message : memory -> Z -> (field -> cell) * Z -> (field -> cell) * Z.
Variable catalog : Z -> option (list field).

Hypothesis field_eqb_eq : forall a b : field, field_eqb a b = true <-> a = b.
Hypothesis process_message_catalog :
  forall m T st,
    process_message m T st =
    match catalog T with
    | Some layout => set_all field_eqb size decode m layout st
    | None => st
    end.
Hypothesis catalog_labels :
  forall T, match catalog T with Some _ => 0 <= T < 128 | None => True end.
Hypothesis reset_order_complete : forall f, In f reset_order.
Hypothesis size_positive : forall f, 0 < size f.
Hypothesis decode_local :
  forall f m1 m2 p, agree m1 m2 p (size f) -> decode f m1 p = decode f m2 p.

Local Set Default Proof Using "Type".

Lemma width_nonneg (layout : list field) : 0 <= width size layout.
Proof using size_positive.
  induction layout as [ | g layout IH]; [reflexivity | ].
  unfold width in *. cbn [fold_right]. specialize (size_positive g). lia.
Qed.

(** The fields a layout sets depend on the bytes it spans alone. *)
Lemma set_all_local (m1 m2 : memory) (layout : list field)
  (st1 st2 : (field -> cell) * Z) :
  snd st1 = snd st2 ->
  (forall f, fst st1 f = fst st2 f) ->
  agree m1 m2 (snd st1) (width size layout) ->
  forall f,
    fst (set_all field_eqb size decode m1 layout st1) f
    = fst (set_all field_eqb size decode m2 layout st2) f.
Proof using size_positive decode_local.
  unfold set_all. revert st1 st2.
  induction layout as [ | g layout IH]; intros st1 st2 Hsnd Hfst Hagree; cbn [fold_left].
  - exact Hfst.
  - pose proof (width_nonneg layout) as Hwidth.
    unfold width in Hagree. cbn [fold_right] in Hagree. fold (width size layout) in Hagree.
    apply IH.
    + unfold set; cbn [snd]. now rewrite Hsnd.
    + intros f. unfold set, store; cbn [fst].
      destruct (field_eqb f g); [ | apply Hfst].
      f_equal. rewrite <- Hsnd. apply decode_local.
      apply (agree_less _ _ _ _ _ Hagree). lia.
    + unfold set; cbn [snd].
      replace (width size layout) with (size g + width size layout - size g) by lia.
      apply agree_shift; [exact Hagree | ]. specialize (size_positive g). lia.
Qed.

(** The message fields of the record of a block depend on the type byte and
on the bytes the layout of the type spans, and on nothing else. *)
Lemma block_fields_local (m1 m2 : memory) (r1 r2 : record) (current : Z)
  (layout : list field) :
  catalog (load m1 (current + 2)) = Some layout ->
  agree m1 m2 (current + 2) (1 + width size layout) ->
  forall f,
    fields (block_record field_eqb reset_order process_message m1 r1 current) f
    = fields (block_record field_eqb reset_order process_message m2 r2 current) f.
Proof using field_eqb_eq process_message_catalog catalog_labels reset_order_complete
  size_positive decode_local.
  intros Hcat Hagree f.
  pose proof (width_nonneg layout) as Hwidth.
  rewrite !(block_record_fields field_eqb size decode reset_order process_message catalog
              process_message_catalog catalog_labels).
  rewrite <- (load_agree m1 m2 (current + 2) _ Hagree) by lia.
  rewrite Hcat.
  apply set_all_local.
  - reflexivity.
  - intros g. cbn [fst].
    now rewrite !(reset_fields_spec field_eqb reset_order field_eqb_eq)
      by apply reset_order_complete.
  - cbn [snd]. replace (width size layout) with (1 + width size layout - 1) by lia.
    apply agree_shift; [exact Hagree | lia].
Qed.

End layout_facts.

(** X5. In the NASDAQ converter the message fields written for a block of a
catalogued type depend only on the type byte and on the bytes that the layout
of the type spans behind it: not on the declared length of the block, which is
never compared with the layout, not on the record left by the block before,
and not on any other byte of the packet. *)
Theorem X5_fields_depend_on_the_layout_span_alone
  (m1 m2 : memory) (r1 r2 : nasdaq.record) (current : Z) (layout : list nasdaq.field) :
  nasdaq.catalog (load m1 (current + 2)) = Some layout ->
  agree m1 m2 (current + 2) (1 + width nasdaq.size layout) ->
  forall f,
    fields (fst (nasdaq.process_block m1 (mk_converter r1 new_writer) current)).(the_record) f
    = fields (fst (nasdaq.process_block m2 (mk_converter r2 new_writer) current)).(the_record) f.
Proof.
  intros Hcat Hagree f. unfold nasdaq.process_block.
  rewrite !process_block_eq. cbn [fst the_record].
  apply (block_fields_local nasdaq.field_beq nasdaq.size nasdaq.decode nasdaq.reset_order
           nasdaq.process_message nasdaq.catalog nasdaq_field_beq_eq
           nasdaq_process_message_catalog nasdaq_catalog_labels nasdaq_reset_order_complete
           nasdaq_size_positive nasdaq_decode_local m1 m2 r1 r2 current layout Hcat Hagree).
Qed.

Lemma X5_witness :
  fields (fst (nasdaq.process_block scenario_A (mk_converter new_record new_writer) 62)).(the_record)
    nasdaq.event_code
  = fields (fst (nasdaq.process_block short_length
                   (mk_converter
                      (the_record (state (nasdaq.process 2 scenario_B a_header 0 new_converter)))
                      new_writer) 62)).(the_record)
      nasdaq.event_code.
Proof.
  generalize nasdaq.event_code.
  apply (X5_fields_depend_on_the_layout_span_alone scenario_A short_length new_record
           (the_record (state (nasdaq.process 2 scenario_B a_header 0 new_converter)))
           62 nasdaq.system_event_message).
  - vm_compute. reflexivity.
  - intros i Hi.
    assert (i = 0 \/ i = 1 \/ i = 2 \/ i = 3 \/ i = 4 \/ i = 5 \/ i = 6 \/ i = 7
            \/ i = 8 \/ i = 9 \/ i = 10 \/ i = 11) as Hcases
      by (change (1 + width nasdaq.size nasdaq.system_event_message) with 12 in Hi; lia).
    destruct Hcases as [-> | [-> | [-> | [-> | [-> | [-> | [-> | [-> | [-> | [-> | [-> | ->]]]]]]]]]]];
      vm_compute; reflexivity.
Defined.

(** ** The demuxer *)

Lemma header_cell (r cells : row) (i : nat) :
  firstn 6 r = cells -> (i < 6)%nat -> nth i r None = nth i cells None.
Proof.
  intros <- Hi. rewrite nth_firstn.
  destruct (i <? 6)%nat eqn:E; [reflexivity | apply Nat.ltb_ge in E; lia].
Qed.

Lemma to_int64_small (x : Z) : - 2 ^ 63 <= x < 2 ^ 63 -> to_int64 x = x.
Proof.
  intros H. unfold to_int64, wrap. cbn zeta.
  change (2 ^ 63) with 9223372036854775808 in *.
  change (2 ^ 64) with 18446744073709551616.
  destruct (Z.ltb_spec (x mod 18446744073709551616) 9223372036854775808) as [Hlt | Hge].
  - destruct (Z.neg_nonneg_cases x) as [Hneg | Hpos].
    + rewrite <- (Z.mod_add x 1) in Hlt by lia. rewrite Z.mod_small in Hlt; lia.
    + apply Z.mod_small. lia.
  - destruct (Z.neg_nonneg_cases x) as [Hneg | Hpos].
    + rewrite <- (Z.mod_add x 1) by lia. rewrite Z.mod_small; lia.
    + rewrite Z.mod_small in Hge; lia.
Qed.

(** Within the range of the 64-bit signed [rep] the timestamp is exact. *)
Lemma microseconds_exact (header : pcap_pkthdr) :
  - 2 ^ 63 <= tv_sec header * 1000000 < 2 ^ 63 ->
  - 2 ^ 63 <= tv_sec header * 1000000 + tv_usec header < 2 ^ 63 ->
  microseconds header = tv_sec header * 1000000 + tv_usec header.
Proof.
  intros Hseconds Hsum. unfold microseconds.
  rewrite (to_int64_small _ Hseconds). now apply to_int64_small.
Qed.

(** Beyond it the value is the two's complement one. *)
Example microseconds_beyond_the_range :
  microseconds (mk_pkthdr 9223372036855 0) = -9223372036854551616.
Proof.
  reflexivity.
Qed.

Lemma to_int32_wrap (x : Z) : - 2 ^ 31 <= x < 2 ^ 31 -> to_int32 (wrap 64 x) = x.
Proof.
  intros H. unfold to_int32, wrap.
  change (2 ^ 64) with 18446744073709551616. change (2 ^ 32) with 4294967296.
  change (2 ^ 31) with 2147483648 in *.
  destruct (Z_lt_dec x 0) as [Hneg | Hpos].
  - replace (x mod 18446744073709551616) with (x + 18446744073709551616)
      by (apply Z.mod_unique with (q := -1); lia).
    replace ((x + 18446744073709551616) mod 4294967296) with (x + 4294967296)
      by (apply Z.mod_unique with (q := 4294967295); lia).
    destruct (x + 4294967296 <? 2147483648) eqn:E; [apply Z.ltb_lt in E | ]; lia.
  - rewrite (Z.mod_small x 18446744073709551616) by lia.
    rewrite Z.mod_small by lia.
    destruct (x <? 2147483648) eqn:E; [ | apply Z.ltb_ge in E]; lia.
Qed.

Lemma skip_shims_after (m : memory) (k fuel : nat) (p : Z) :
  (k < fuel)%nat ->
  (forall i : nat, (i < k)%nat -> be16 m (p + 4 * Z.of_nat i) <> ETHERTYPE_IP) ->
  be16 m (p + 4 * Z.of_nat k) = ETHERTYPE_IP ->
  skip_shims fuel m p = finished (p + 4 * Z.of_nat k).
Proof.
  revert fuel p. induction k as [ | k IH]; intros [ | fuel] p Hfuel Hbefore Hat;
    try lia; cbn [skip_shims].
  - change (4 * Z.of_nat 0) with 0 in *. rewrite Z.add_0_r in *.
    now rewrite Hat, Z.eqb_refl.
  - pose proof (Hbefore O ltac:(lia)) as H0.
    change (4 * Z.of_nat 0) with 0 in H0. rewrite Z.add_0_r in H0.
    apply Z.eqb_neq in H0. rewrite H0.
    rewrite (IH fuel (p + 4)).
    + f_equal. lia.
    + lia.
    + intros i Hi. replace (p + 4 + 4 * Z.of_nat i) with (p + 4 * Z.of_nat (S i)) by lia.
      apply Hbefore. lia.
    + replace (p + 4 + 4 * Z.of_nat k) with (p + 4 * Z.of_nat (S k)) by lia. exact Hat.
Qed.

Lemma skip_shims_never (m : memory) (fuel : nat) (p : Z) :
  (forall i : nat, be16 m (p + 4 * Z.of_nat i) <> ETHERTYPE_IP) ->
  is_finished (skip_shims fuel m p) = false.
Proof.
  revert p. induction fuel as [ | fuel IH]; intros p H; cbn [skip_shims]; [reflexivity | ].
  pose proof (H O) as H0. change (4 * Z.of_nat 0) with 0 in H0. rewrite Z.add_0_r in H0.
  apply Z.eqb_neq in H0. rewrite H0. apply IH.
  intros i. replace (p + 4 + 4 * Z.of_nat i) with (p + 4 * Z.of_nat (S i)) by lia. apply H.
Qed.

(** X6. The demuxer steps over any number k of 4-byte shims between the MAC
addresses and the IPv4 EtherType, not one only: the payload is found behind
the IPv4 header, whose length is four times the low nibble of its first byte,
and the 8-byte UDP header; the length returned is the UDP length field minus
8, negative when that field is below 8; [pcap_index] has been incremented. *)
Theorem X6_demuxer_steps_over_any_number_of_shims
  {field : Type} (fuel : nat) (m : memory) (r : @record field) (packet : Z) (k : nat) :
  (k < fuel)%nat ->
  (forall i : nat, (i < k)%nat -> be16 m (packet + 12 + 4 * Z.of_nat i) <> ETHERTYPE_IP) ->
  be16 m (packet + 12 + 4 * Z.of_nat k) = ETHERTYPE_IP ->
  load m (packet + 12 + 4 * Z.of_nat k + 2 + 9) = IPPROTO_UDP ->
  let ip := packet + 12 + 4 * Z.of_nat k + 2 in
  let udp := ip + Z.land (load m ip) 15 * 4 in
  try_get_itch fuel m r packet
  = finished (pcap_index_increment r, true, udp + 8, be16 m (udp + 4) - 8).
Proof.
  intros Hfuel Hbefore Hat Hudp. cbn zeta. unfold try_get_itch.
  rewrite (skip_shims_after m k fuel (packet + 12) Hfuel Hbefore Hat).
  rewrite Hudp, Z.eqb_refl. unfold sizeof_udphdr.
  rewrite to_int32_wrap; [reflexivity | ].
  match goal with |- context [be16 m ?a] => pose proof (be16_range m a) end.
  change (2 ^ 31) with 2147483648. lia.
Qed.

Lemma X6_witness :
  try_get_itch 2 tagged_frame (@new_record nasdaq.field) 0
  = finished
      (pcap_index_increment new_record, true,
       0 + 12 + 4 * Z.of_nat 1 + 2
       + Z.land (load tagged_frame (0 + 12 + 4 * Z.of_nat 1 + 2)) 15 * 4 + 8,
       be16 tagged_frame
         (0 + 12 + 4 * Z.of_nat 1 + 2
          + Z.land (load tagged_frame (0 + 12 + 4 * Z.of_nat 1 + 2)) 15 * 4 + 4) - 8).
Proof.
  apply (X6_demuxer_steps_over_any_number_of_shims 2 tagged_frame
           (@new_record nasdaq.field) 0 1).
  - lia.
  - intros i Hi. assert (i = O) as -> by lia. vm_compute. discriminate.
  - vm_compute. reflexivity.
  - vm_compute. reflexivity.
Defined.

Section driver_facts.

Context {field : Type}.
Variable field_eqb : field -> field -> bool.
Variable reset_order : list field.
Variable written_fields : list field.
Variable process_message : memory -> Z -> (field -> cell) * Z -> (field -> cell) * Z.

Local Abbreviation process := (process field_eqb reset_order written_fields process_message).
Local Abbreviation message_loop :=
  (message_loop field_eqb reset_order written_fields process_message).
Local Abbreviation block_record := (block_record field_eqb reset_order process_message).
Local Abbreviation record_cells := (record_cells written_fields).
Local Abbreviation write_parquet_loop :=
  (write_parquet_loop field_eqb reset_order written_fields process_message).
Local Abbreviation write_parquet :=
  (write_parquet field_eqb reset_order written_fields process_message).

Local Set Default Proof Using "Type".

(** X7. When none of the 16-bit words that the demuxer looks at, from byte 12
of the frame on in steps of 4, is the IPv4 EtherType, the demuxer never
returns: on any fuel the run is unfinished; no row has been written and
[pcap_index] has been incremented. *)
Theorem X7_demuxer_does_not_return_without_ipv4
  (fuel : nat) (m : memory) (header : pcap_pkthdr) (packet : Z) (cv : converter) :
  (forall i : nat, be16 m (packet + 12 + 4 * Z.of_nat i) <> ETHERTYPE_IP) ->
  process fuel m header packet cv
  = unfinished (mk_converter (pcap_index_increment (the_record cv)) (writer cv)).
Proof.
  intros H. pose proof (skip_shims_never m fuel (packet + 12) H) as Hskip.
  unfold process, try_get_itch.
  destruct (skip_shims fuel m (packet + 12)); [discriminate | reflexivity].
Qed.

(** X8. A frame whose IPv4 header names another protocol than UDP counts as
a packet and changes nothing else: [pcap_index] is incremented, no row is
written, and the record keeps the timestamp, session and sequence of the
packet before. *)
Theorem X8_other_protocols_only_count
  (fuel : nat) (m : memory) (header : pcap_pkthdr) (packet : Z) (cv : converter) (ethertype : Z) :
  skip_shims fuel m (packet + 12) = finished ethertype ->
  load m (ethertype + 2 + 9) <> IPPROTO_UDP ->
  process fuel m header packet cv
  = finished (mk_converter (pcap_index_increment (the_record cv)) (writer cv)).
Proof.
  intros Hskip Hudp. unfold process, try_get_itch. rewrite Hskip.
  apply Z.eqb_neq in Hudp. now rewrite Hudp.
Qed.

Lemma message_loop_pcap_index (m : memory) (fuel : nat) (cv : converter) (current : Z) :
  pcap_index (the_record (state (message_loop fuel m cv current)))
  = pcap_index (the_record cv).
Proof.
  revert cv current. induction fuel as [ | fuel IH]; intros cv current; [reflexivity | ].
  rewrite message_loop_S. cbn zeta.
  destruct (fst (message_index_increment (the_record cv))); [ | reflexivity].
  rewrite process_block_eq; cbn [fst]. now rewrite IH.
Qed.

(** Whatever a packet is, it is counted. *)
Lemma process_pcap_index (fuel : nat) (m : memory) (header : pcap_pkthdr) (packet : Z)
  (cv : converter) :
  pcap_index (the_record (state (process fuel m header packet cv)))
  = wrap 64 (pcap_index (the_record cv) + 1).
Proof.
  pose proof (try_get_itch_record fuel m (the_record cv) packet) as Hrec.
  destruct (try_get_itch fuel m (the_record cv) packet)
    as [[[[r1 [ | ]] payload] length] | [[[r1 b] payload] length]] eqn:Hget;
    cbn [state fst] in Hrec; subst r1.
  - rewrite (process_eq _ _ _ _ _ _ _ _ _ _ _ _ Hget). now rewrite message_loop_pcap_index.
  - unfold process. now rewrite Hget.
  - unfold process. now rewrite Hget.
Qed.

(** The six header cells of the rows of the loop, row by row. *)
Lemma message_loop_header_cells (m : memory) (fuel : nat) (cv : converter) (current : Z) :
  open_row (writer cv) = [] ->
  exists new,
    rows (writer (state (message_loop fuel m cv current))) = rows (writer cv) ++ new /\
    forall k : nat, (k < List.length new)%nat ->
      firstn 6 (nth k new []) =
      [ Some (uint64 (pcap_index (the_record cv)));
        Some (micros (pcap_timestamp (the_record cv)));
        Some (utf8 (session (the_record cv)));
        Some (uint64 (wrap 64 (message_sequence (the_record cv) + (Z.of_nat k + 1))));
        Some (uint16 (wrap 16 (message_index (the_record cv) + (Z.of_nat k + 1))));
        Some (uint8 (load m (block_address m current k + 2))) ].
Proof.
  revert cv current. induction fuel as [ | fuel IH]; intros cv current Hopen.
  - exists []. split; [now rewrite app_nil_r | cbn [List.length]; lia].
  - rewrite message_loop_S. cbn zeta.
    destruct (fst (message_index_increment (the_record cv))).
    + rewrite process_block_eq; cbn [fst the_record writer].
      match goal with |- context [message_loop fuel m ?c ?p] =>
        destruct (IH c p) as (new & Hrows & Hnew) end; [reflexivity | ].
      rewrite Hrows. cbn [writer]. rewrite write_record_rows, Hopen. cbn [app].
      eexists (_ :: new). rewrite <- app_assoc. split; [reflexivity | ].
      intros [ | k] Hk.
      * cbn [nth]. unfold record_cells, header_cells. cbn [app firstn].
        cbn [block_record message_index_increment snd pcap_index pcap_timestamp session
             message_sequence message_index message_type block_address].
        change (Z.of_nat 0 + 1) with 1.
        now rewrite to_uint8_to_char by apply load_range.
      * cbn [nth]. rewrite Hnew by (cbn [List.length] in Hk; lia).
        cbn [the_record block_record message_index_increment snd pcap_index pcap_timestamp
             session message_sequence message_index block_address].
        rewrite !wrap_wrap_succ.
        replace (Z.of_nat (S k) + 1) with (Z.of_nat k + 1 + 1) by lia. reflexivity.
    + exists []. split; [now rewrite app_nil_r | cbn [List.length]; lia].
Qed.

(** The six header cells of the rows of a packet, row by row. *)
Lemma process_header_cells
  (fuel : nat) (m : memory) (header : pcap_pkthdr) (packet : Z)
  (cv : converter) (r1 : record) (payload length : Z) :
  try_get_itch fuel m (the_record cv) packet = finished (r1, true, payload, length) ->
  open_row (writer cv) = [] ->
  exists new,
    rows (writer (state (process fuel m header packet cv))) = rows (writer cv) ++ new /\
    forall k : nat, (k < List.length new)%nat ->
      firstn 6 (nth k new []) =
      [ Some (uint64 (wrap 64 (pcap_index (the_record cv) + 1)));
        Some (micros (microseconds header));
        Some (utf8 (string_view m payload 10));
        Some (uint64 (wrap 64 (be64 m (payload + 10) + (Z.of_nat k + 1))));
        Some (uint16 (wrap 16 (Z.of_nat k + 1)));
        Some (uint8 (load m (block_address m (payload + 20) k + 2))) ].
Proof.
  intros Hget Hopen.
  pose proof (try_get_itch_record fuel m (the_record cv) packet) as Hrec.
  rewrite Hget in Hrec. cbn [state fst] in Hrec.
  rewrite (process_eq _ _ _ _ _ _ _ _ _ _ _ _ Hget).
  match goal with |- context [message_loop fuel m ?c ?p] =>
    destruct (message_loop_header_cells m fuel c p) as (new & Hrows & Hnew) end;
    [exact Hopen | ].
  exists new. split; [exact Hrows | ].
  intros k Hk. rewrite (Hnew k Hk).
  cbn [the_record header_record pcap_index pcap_timestamp session message_sequence
       message_index].
  subst r1. cbn [pcap_index_increment pcap_index].
  replace (payload + 10 + 8 + 2) with (payload + 20) by lia.
  rewrite Z.add_0_l. reflexivity.
Qed.


(** X9. The six framing columns of every row of a packet, the k-th counted
from 0, whether the run finishes or not: [pcap_index] is that of the packet
before plus one; [pcap_timestamp] is the seconds of the capture header times
10^6 plus its microseconds, for a header whose seconds times 10^6 and whose
sum fit the 64-bit signed [rep] of [std::chrono], in which the code computes
them; [session] is the 10 bytes of the MoldUDP64 header
as they are, padding included; [message_sequence] is the Sequence of the
header plus k + 1, as a 64-bit value; [message_index] is k + 1, as a 16-bit
value; [message_type] is the byte found two bytes into the k-th block, the
blocks being chained by their declared lengths. *)
Theorem X9_framing_columns_of_the_rows_of_a_packet
  (fuel : nat) (m : memory) (header : pcap_pkthdr) (packet : Z)
  (cv : converter) (r1 : record) (payload length : Z) :
  try_get_itch fuel m (the_record cv) packet = finished (r1, true, payload, length) ->
  open_row (writer cv) = [] ->
  - 2 ^ 63 <= tv_sec header * 1000000 < 2 ^ 63 ->
  - 2 ^ 63 <= tv_sec header * 1000000 + tv_usec header < 2 ^ 63 ->
  exists new,
    rows (writer (state (process fuel m header packet cv))) = rows (writer cv) ++ new /\
    forall k : nat, (k < List.length new)%nat ->
      firstn 6 (nth k new []) =
      [ Some (uint64 (wrap 64 (pcap_index (the_record cv) + 1)));
        Some (micros (tv_sec header * 1000000 + tv_usec header));
        Some (utf8 (string_view m payload 10));
        Some (uint64 (wrap 64 (be64 m (payload + 10) + (Z.of_nat k + 1))));
        Some (uint16 (wrap 16 (Z.of_nat k + 1)));
        Some (uint8 (load m (block_address m (payload + 20) k + 2))) ].
Proof.
  intros Hget Hopen Hseconds Hsum.
  rewrite <- (microseconds_exact header Hseconds Hsum).
  exact (process_header_cells fuel m header packet cv r1 payload length Hget Hopen).
Qed.

Lemma process_rows_pcap_index (fuel : nat) (m : memory) (header : pcap_pkthdr)
  (packet : Z) (cv : converter) :
  open_row (writer cv) = [] ->
  exists new,
    rows (writer (state (process fuel m header packet cv))) = rows (writer cv) ++ new /\
    Forall (fun row => pcap_index_of row
                       = Some (uint64 (wrap 64 (pcap_index (the_record cv) + 1)))) new.
Proof.
  intros Hopen.
  destruct (try_get_itch fuel m (the_record cv) packet)
    as [[[[r1 [ | ]] payload] length] | [[[r1 b] payload] length]] eqn:Hget.
  - destruct (process_header_cells fuel m header packet cv r1 payload length Hget Hopen)
      as (new & Hrows & Hnew).
    exists new. split; [exact Hrows | ].
    apply Forall_nth. intros k d Hk. rewrite (nth_indep new d [] Hk).
    unfold pcap_index_of. now rewrite (header_cell _ _ 0 (Hnew k Hk)) by lia.
  - unfold process. rewrite Hget. cbn [state writer].
    exists []. split; [now rewrite app_nil_r | constructor].
  - unfold process. rewrite Hget. cbn [state writer].
    exists []. split; [now rewrite app_nil_r | constructor].
Qed.

(** X10. When the run of a packet finishes, which it does for a Count below
0xFFFF, the rows written for the packet carry the message indices 1, 2, ...,
Count, in this order and without a gap. *)
Theorem X10_message_index_runs_from_1_to_count
  (fuel : nat) (m : memory) (header : pcap_pkthdr) (packet : Z)
  (cv : converter) (r1 : record) (payload length : Z) :
  try_get_itch fuel m (the_record cv) packet = finished (r1, true, payload, length) ->
  be16 m (payload + 18) < 65535 ->
  (Z.to_nat (be16 m (payload + 18)) < fuel)%nat ->
  open_row (writer cv) = [] ->
  exists cv' new,
    process fuel m header packet cv = finished cv' /\
    rows (writer cv') = rows (writer cv) ++ new /\
    map message_index_of new
    = map (fun k => Some (uint16 (Z.of_nat k + 1))) (seq 0 (Z.to_nat (be16 m (payload + 18)))).
Proof.
  intros Hget Hcount Hfuel Hopen.
  pose proof (be16_range m (payload + 18)) as Hrange.
  destruct (process_finishes field_eqb reset_order written_fields process_message
              fuel m header packet cv r1 payload length Hget Hcount Hfuel)
    as (cv' & Hrun & Hlength & _).
  destruct (process_header_cells fuel m header packet cv r1 payload length Hget Hopen)
    as (new & Hrows & Hnew).
  rewrite Hrun in Hrows. cbn [state] in Hrows.
  exists cv', new. split; [exact Hrun | ]. split; [exact Hrows | ].
  assert (List.length new = Z.to_nat (be16 m (payload + 18))) as Hnumber.
  { rewrite Hrows, length_app in Hlength. lia. }
  apply (nth_ext _ _ None None).
  - now rewrite !length_map, length_seq.
  - intros k Hk. rewrite length_map in Hk.
    transitivity (Some (uint16 (Z.of_nat k + 1))).
    + transitivity (message_index_of (nth k new []));
        [exact (map_nth message_index_of new [] k) | ].
      unfold message_index_of. rewrite (header_cell _ _ 4 (Hnew k Hk)) by lia.
      cbn [nth]. unfold wrap. rewrite Z.mod_small; [reflexivity | ].
      change (2 ^ 16) with 65536. lia.
    + symmetry.
      transitivity (nth k (map (fun k => Some (uint16 (Z.of_nat k + 1)))
                             (seq 0 (Z.to_nat (be16 m (payload + 18)))))
                      (Some (uint16 (Z.of_nat 0 + 1)))).
      * apply nth_indep. rewrite length_map, length_seq. lia.
      * transitivity (Some (uint16 (Z.of_nat (nth k (seq 0 (Z.to_nat (be16 m (payload + 18)))) O) + 1)));
          [exact (map_nth (fun k => Some (uint16 (Z.of_nat k + 1))) _ O k) | ].
        now rewrite seq_nth by lia.
Qed.

(** X11. [write_parquet] leaves its loop at the first return value of
[pcap_next_ex] other than 1, whichever it is, a timeout (0) as well as an
error or the end of the file: what the capture holds behind it has no effect
on the file. *)
Theorem X11_capture_ends_at_the_first_other_return_value
  (fuel : nat) (before after : list pcap_next) (code : Z) :
  write_parquet fuel (before ++ next_other code :: after) = write_parquet fuel before.
Proof.
  unfold write_parquet. generalize (@new_converter field).
  induction before as [ | [m header packet | other] before IH]; intros cv;
    cbn [app write_parquet_loop].
  - reflexivity.
  - destruct (process fuel m header packet cv) as [cv' | cv'];
      [apply IH | reflexivity].
  - reflexivity.
Qed.

Lemma write_parquet_loop_pcap_index
  (fuel : nat) (capture : list pcap_next) (cv cv' : converter) :
  0 <= pcap_index (the_record cv) < 2 ^ 64 ->
  forallb is_packet capture = true ->
  write_parquet_loop fuel capture cv = finished cv' ->
  pcap_index (the_record cv')
  = wrap 64 (pcap_index (the_record cv) + Z.of_nat (List.length capture)).
Proof.
  revert cv. induction capture as [ | [m header packet | other] capture IH];
    intros cv Hrange Hpackets Hrun; cbn [write_parquet_loop forallb is_packet andb] in *.
  - injection Hrun as <-. cbn [List.length Z.of_nat]. rewrite Z.add_0_r.
    unfold wrap. now rewrite Z.mod_small.
  - pose proof (process_pcap_index fuel m header packet cv) as Hcount.
    destruct (process fuel m header packet cv) as [cv1 | cv1]; [ | discriminate].
    cbn [state] in Hcount.
    rewrite (IH cv1); [ | | exact Hpackets | exact Hrun].
    + rewrite Hcount, wrap_wrap_succ. f_equal. cbn [List.length]. lia.
    + rewrite Hcount. unfold wrap. apply Z.mod_pos_bound. reflexivity.
  - discriminate.
Qed.

(** X12. When a capture of packets only has been processed to the end,
[pcap_index] is the number of the packets, as a 64-bit value: it has been
incremented once for every packet, whatever the packets hold, IPv4 or not,
UDP or not, with messages or without. *)
Theorem X12_pcap_index_counts_the_packets
  (fuel : nat) (capture : list pcap_next) (cv' : converter) :
  forallb is_packet capture = true ->
  write_parquet_loop fuel capture new_converter = finished cv' ->
  pcap_index (the_record cv') = wrap 64 (Z.of_nat (List.length capture)).
Proof.
  intros Hpackets Hrun.
  rewrite (write_parquet_loop_pcap_index fuel capture new_converter cv');
    [reflexivity | cbn; lia | exact Hpackets | exact Hrun].
Qed.

Lemma StronglySorted_app (l1 l2 : list Z) :
  StronglySorted Z.le l1 -> StronglySorted Z.le l2 ->
  (forall x y, In x l1 -> In y l2 -> x <= y) ->
  StronglySorted Z.le (l1 ++ l2).
Proof.
  induction l1 as [ | a l1 IH]; intros H1 H2 Hle; cbn [app]; [exact H2 | ].
  apply StronglySorted_inv in H1. destruct H1 as [H1 Ha].
  constructor.
  - apply IH; [exact H1 | exact H2 | ]. intros x y Hx Hy. apply Hle; [now right | exact Hy].
  - apply Forall_app. split; [exact Ha | ].
    apply Forall_forall. intros y Hy. apply Hle; [now left | exact Hy].
Qed.

Lemma StronglySorted_repeat (x : Z) (n : nat) : StronglySorted Z.le (repeat x n).
Proof.
  induction n as [ | n IH]; cbn [repeat]; constructor; [exact IH | ].
  apply Forall_forall. intros y Hy. apply repeat_spec in Hy. lia.
Qed.

Lemma pcap_index_of_repeat (new : list row) (x : Z) :
  Forall (fun r => pcap_index_of r = Some (uint64 x)) new ->
  map pcap_index_of new = map (fun i => Some (uint64 i)) (repeat x (List.length new)).
Proof.
  induction 1 as [ | r new Hr Hnew IH]; [reflexivity | ].
  cbn [map List.length repeat]. now rewrite Hr, IH.
Qed.

(** The [pcap_index] column through the loop of [write_parquet]. *)
Lemma write_parquet_loop_order (fuel : nat) (capture : list pcap_next) (cv : converter)
  (indices : list Z) :
  open_row (writer cv) = [] ->
  map pcap_index_of (rows (writer cv)) = map (fun i => Some (uint64 i)) indices ->
  StronglySorted Z.le indices ->
  Forall (fun i => 1 <= i <= pcap_index (the_record cv)) indices ->
  0 <= pcap_index (the_record cv) ->
  pcap_index (the_record cv) + Z.of_nat (List.length capture) < 2 ^ 64 ->
  exists indices',
    map pcap_index_of (rows (writer (state (write_parquet_loop fuel capture cv))))
    = map (fun i => Some (uint64 i)) indices' /\
    StronglySorted Z.le indices' /\
    Forall (fun i => 1 <= i <= pcap_index (the_record cv) + Z.of_nat (List.length capture))
      indices'.
Proof.
  revert cv indices.
  induction capture as [ | [m header packet | other] capture IH];
    intros cv indices Hopen Hcells Hsorted Hbound Hlow Hhigh;
    cbn [write_parquet_loop state].
  - exists indices. split; [exact Hcells | ]. split; [exact Hsorted | ].
    eapply Forall_impl; [ | exact Hbound]. cbn beta. intros. lia.
  - pose proof (process_pcap_index fuel m header packet cv) as Hcount.
    pose proof (process_open_row field_eqb reset_order written_fields process_message
                  fuel m header packet cv Hopen) as Hopen1.
    destruct (process_rows_pcap_index fuel m header packet cv Hopen) as (new & Hrows & Hnew).
    assert (wrap 64 (pcap_index (the_record cv) + 1) = pcap_index (the_record cv) + 1) as Hwrap
      by (unfold wrap; apply Z.mod_small; cbn [List.length] in Hhigh; lia).
    rewrite Hwrap in Hcount, Hnew.
    set (indices1 := indices ++ repeat (pcap_index (the_record cv) + 1) (List.length new)).
    assert (map pcap_index_of (rows (writer (state (process fuel m header packet cv))))
            = map (fun i => Some (uint64 i)) indices1) as Hcells1.
    { rewrite Hrows, map_app, Hcells, (pcap_index_of_repeat new _ Hnew).
      unfold indices1. now rewrite map_app. }
    assert (StronglySorted Z.le indices1) as Hsorted1.
    { apply StronglySorted_app; [exact Hsorted | apply StronglySorted_repeat | ].
      intros x y Hx Hy. apply repeat_spec in Hy.
      apply (proj1 (Forall_forall _ indices) Hbound) in Hx. lia. }
    assert (Forall (fun i => 1 <= i <= pcap_index (the_record cv) + 1) indices1) as Hbound1.
    { apply Forall_app. split.
      - eapply Forall_impl; [ | exact Hbound]. cbn beta. intros. lia.
      - apply Forall_forall. intros y Hy. apply repeat_spec in Hy. lia. }
    destruct (process fuel m header packet cv) as [cv1 | cv1]; cbn [state] in *.
    + destruct (IH cv1 indices1) as (indices' & Hcells' & Hsorted' & Hbound');
        try assumption.
      * now rewrite Hcount.
      * lia.
      * rewrite Hcount. cbn [List.length] in Hhigh. lia.
      * exists indices'. split; [exact Hcells' | ]. split; [exact Hsorted' | ].
        eapply Forall_impl; [ | exact Hbound']. cbn beta. intros i Hi.
        rewrite Hcount in Hi. cbn [List.length]. lia.
    + exists indices1. split; [exact Hcells1 | ]. split; [exact Hsorted1 | ].
      eapply Forall_impl; [ | exact Hbound1]. cbn beta. intros. cbn [List.length]. lia.
  - exists indices. split; [exact Hcells | ]. split; [exact Hsorted | ].
    eapply Forall_impl; [ | exact Hbound]. cbn beta. intros. lia.
Qed.

(** X13. The rows of the file are in the order of the capture: down the file
the [pcap_index] column never decreases, and each of its values is the
position, counted from 1, of a packet of the capture.  This holds for the
file of a run that has finished and for what a run that has not has written.
The capture has fewer than 2^64 packets. *)
Theorem X13_rows_are_in_the_order_of_the_capture
  (fuel : nat) (capture : list pcap_next) :
  Z.of_nat (List.length capture) < 2 ^ 64 ->
  exists indices,
    map pcap_index_of (state (write_parquet fuel capture))
    = map (fun i => Some (uint64 i)) indices /\
    StronglySorted Z.le indices /\
    Forall (fun i => 1 <= i <= Z.of_nat (List.length capture)) indices.
Proof.
  intros Hlength.
  destruct (write_parquet_loop_order fuel capture new_converter []
              eq_refl eq_refl (SSorted_nil Z.le) (Forall_nil _))
    as (indices & Hcells & Hsorted & Hbound);
    [cbn; lia | exact Hlength | ].
  exists indices. unfold write_parquet.
  destruct (write_parquet_loop fuel capture new_converter); cbn [state close] in *;
    (split; [exact Hcells | split; [exact Hsorted | exact Hbound]]).
Qed.

End driver_facts.

Lemma zeros_load (p : Z) : load zeros p = 0.
Proof.
  unfold load, zeros, memory_of. destruct (p <? 0); [reflexivity | ].
  cbn [map]. now destruct (Z.to_nat (p - 0)).
Qed.

Lemma X7_witness :
  process nasdaq.field_beq nasdaq.reset_order nasdaq.written_fields nasdaq.process_message
    5 zeros a_header 0 (@new_converter nasdaq.field)
  = unfinished (mk_converter (pcap_index_increment (the_record (@new_converter nasdaq.field)))
                  (writer (@new_converter nasdaq.field))).
Proof.
  apply (X7_demuxer_does_not_return_without_ipv4 nasdaq.field_beq nasdaq.reset_order
           nasdaq.written_fields nasdaq.process_message 5 zeros a_header 0 new_converter).
  intros i. rewrite be16_eq, !zeros_load. unfold ETHERTYPE_IP. lia.
Defined.

Lemma X8_witness :
  process nasdaq.field_beq nasdaq.reset_order nasdaq.written_fields nasdaq.process_message
    1 tcp_frame a_header 0 (@new_converter nasdaq.field)
  = finished (mk_converter (pcap_index_increment (the_record (@new_converter nasdaq.field)))
                (writer (@new_converter nasdaq.field))).
Proof.
  apply (X8_other_protocols_only_count nasdaq.field_beq nasdaq.reset_order
           nasdaq.written_fields nasdaq.process_message 1 tcp_frame a_header 0
           new_converter 12).
  - reflexivity.
  - vm_compute. discriminate.
Defined.

Lemma X9_witness :
  exists new,
    rows (writer (state (process nasdaq.field_beq nasdaq.reset_order nasdaq.written_fields
                           nasdaq.process_message 3 scenario_C a_header 0 new_converter)))
    = rows (writer (@new_converter nasdaq.field)) ++ new /\
    forall k : nat, (k < List.length new)%nat ->
      firstn 6 (nth k new []) =
      [ Some (uint64 (wrap 64 (pcap_index (the_record (@new_converter nasdaq.field)) + 1)));
        Some (micros (tv_sec a_header * 1000000 + tv_usec a_header));
        Some (utf8 (string_view scenario_C 42 10));
        Some (uint64 (wrap 64 (be64 scenario_C (42 + 10) + (Z.of_nat k + 1))));
        Some (uint16 (wrap 16 (Z.of_nat k + 1)));
        Some (uint8 (load scenario_C (block_address scenario_C (42 + 20) k + 2))) ].
Proof.
  apply (X9_framing_columns_of_the_rows_of_a_packet nasdaq.field_beq nasdaq.reset_order
           nasdaq.written_fields nasdaq.process_message 3 scenario_C a_header 0
           new_converter (pcap_index_increment new_record) 42 46).
  - vm_compute. reflexivity.
  - reflexivity.
  - split; vm_compute; [discriminate | reflexivity].
  - split; vm_compute; [discriminate | reflexivity].
Defined.

Lemma X10_witness :
  exists cv' new,
    process nasdaq.field_beq nasdaq.reset_order nasdaq.written_fields nasdaq.process_message
      3 scenario_C a_header 0 new_converter = finished cv' /\
    rows (writer cv') = rows (writer (@new_converter nasdaq.field)) ++ new /\
    map message_index_of new
    = map (fun k => Some (uint16 (Z.of_nat k + 1)))
        (seq 0 (Z.to_nat (be16 scenario_C (42 + 18)))).
Proof.
  apply (X10_message_index_runs_from_1_to_count nasdaq.field_beq nasdaq.reset_order
           nasdaq.written_fields nasdaq.process_message 3 scenario_C a_header 0
           new_converter (pcap_index_increment new_record) 42 46).
  - vm_compute. reflexivity.
  - vm_compute. reflexivity.
  - vm_compute. lia.
  - reflexivity.
Defined.

Lemma X12_witness :
  pcap_index
    (the_record
       (state (write_parquet_loop nasdaq.field_beq nasdaq.reset_order nasdaq.written_fields
                 nasdaq.process_message 3 (firstn 3 a_capture) new_converter)))
  = wrap 64 (Z.of_nat (List.length (firstn 3 a_capture))).
Proof.
  apply (X12_pcap_index_counts_the_packets nasdaq.field_beq nasdaq.reset_order
           nasdaq.written_fields nasdaq.process_message 3 (firstn 3 a_capture)).
  - reflexivity.
  - vm_compute. reflexivity.
Defined.

Lemma X13_witness :
  exists indices,
    map pcap_index_of (state (nasdaq_write_parquet 3 a_capture))
    = map (fun i => Some (uint64 i)) indices /\
    StronglySorted Z.le indices /\
    Forall (fun i => 1 <= i <= Z.of_nat (List.length a_capture)) indices.
Proof.
  apply (X13_rows_are_in_the_order_of_the_capture nasdaq.field_beq nasdaq.reset_order
           nasdaq.written_fields nasdaq.process_message 3 a_capture).
  vm_compute. reflexivity.
Defined.

(** X16. For every packet whose Message Count is 0xFFFF, in either feed, the
loop of [converter::process] never ends: on any fuel the run is unfinished
and has written as many rows as there was fuel. *)
Theorem X16_count_ffff_loops_on_every_packet
  {field : Type} (field_eqb : field -> field -> bool)
  (reset_order written_fields : list field)
  (process_message : memory -> Z -> (field -> cell) * Z -> (field -> cell) * Z)
  (fuel : nat) (m : memory) (header : pcap_pkthdr) (packet : Z)
  (cv : converter) (r1 : record) (payload length : Z) :
  try_get_itch fuel m (the_record cv) packet = finished (r1, true, payload, length) ->
  be16 m (payload + 18) = 0xFFFF ->
  exists cv',
    process field_eqb reset_order written_fields process_message fuel m header packet cv
    = unfinished cv' /\
    List.length (rows (writer cv')) = (List.length (rows (writer cv)) + fuel)%nat.
Proof.
  apply process_never_finishes.
Qed.

Lemma X16_witness :
  exists cv',
    process jnx.field_beq jnx.reset_order jnx.written_fields jnx.process_message
      7 end_of_session a_header 0 new_converter
    = unfinished cv' /\
    List.length (rows (writer cv'))
    = (List.length (rows (writer (@new_converter jnx.field))) + 7)%nat.
Proof.
  apply (X16_count_ffff_loops_on_every_packet jnx.field_beq jnx.reset_order
           jnx.written_fields jnx.process_message 7 end_of_session a_header 0
           new_converter (pcap_index_increment new_record) 42 20).
  - vm_compute. reflexivity.
  - vm_compute. reflexivity.
Defined.

(** ** Reading the file back *)

Section readback_facts.

Context {field : Type}.
Variable field_eqb : field -> field -> bool.
Variable size : field -> Z.
Variable decode : field -> memory -> Z -> value.
Variable field_type : field -> data_type.
Variable reset_order : list field.
Variable written_fields : list field.
Variable process_message : memory -> Z -> (field -> cell) * Z -> (field -> cell) * Z.
Variable catalog : Z -> option (list field).

Hypothesis field_eqb_eq : forall a b : field, field_eqb a b = true <-> a = b.
Hypothesis process_message_catalog :
  forall m T st,
    process_message m T st =
    match catalog T with
    | Some layout => set_all field_eqb size decode m layout st
    | None => st
    end.
Hypothesis catalog_labels :
  forall T, match catalog T with Some _ => 0 <= T < 128 | None => True end.
Hypothesis reset_order_complete : forall f, In f reset_order.
Hypothesis decode_typed : forall f m p, type_of (decode f m p) = field_type f.

Local Abbreviation readable := (readable field_type written_fields).
Local Abbreviation process := (process field_eqb reset_order written_fields process_message).
Local Abbreviation write_parquet_loop :=
  (write_parquet_loop field_eqb reset_order written_fields process_message).

(** Every row of a packet is one that can be read. *)
Lemma process_rows_readable (fuel : nat) (m : memory) (header : pcap_pkthdr)
  (packet : Z) (cv : converter) :
  open_row (writer cv) = [] ->
  Forall readable (rows (writer cv)) ->
  Forall readable (rows (writer (state (process fuel m header packet cv)))).
Proof using field_eqb_eq process_message_catalog catalog_labels reset_order_complete
  decode_typed.
  intros Hopen Hrows.
  destruct (process_rows field_eqb reset_order written_fields process_message m readable)
    with (fuel := fuel) (header := header) (packet := packet) (cv := cv)
    as (new & Hnew & Hreadable).
  - intros r current. eexists. split; [reflexivity | ].
    apply (block_record_typed field_eqb size decode field_type reset_order
             process_message field_eqb_eq catalog process_message_catalog catalog_labels
             reset_order_complete decode_typed).
  - exact Hopen.
  - rewrite Hnew. apply Forall_app. now split.
Qed.

Lemma write_parquet_loop_readable (fuel : nat) (capture : list pcap_next) (cv : converter) :
  open_row (writer cv) = [] ->
  Forall readable (rows (writer cv)) ->
  Forall readable (rows (writer (state (write_parquet_loop fuel capture cv)))).
Proof using field_eqb_eq process_message_catalog catalog_labels reset_order_complete
  decode_typed.
  revert cv. induction capture as [ | [m header packet | other] capture IH];
    intros cv Hopen Hrows; cbn [write_parquet_loop state]; try exact Hrows.
  pose proof (process_rows_readable fuel m header packet cv Hopen Hrows) as Hrows1.
  pose proof (process_open_row field_eqb reset_order written_fields process_message
                fuel m header packet cv Hopen) as Hopen1.
  destruct (process fuel m header packet cv) as [cv1 | cv1]; cbn [state] in *.
  - now apply IH.
  - exact Hrows1.
Qed.

(** The loop of [read_parquet] on such rows reads every one of them, and the
records it reads hold the cells of the rows. *)
Lemma read_records_readable (file : list row) (r0 : record) :
  Forall readable file ->
  exists rs,
    read_records field_eqb field_type written_fields file r0 = Some rs /\
    map (record_cells written_fields) rs = file.
Proof using field_eqb_eq.
  intros Hfile. revert r0.
  induction Hfile as [ | cells rest (r & -> & Hchar & Htyped) _ IH]; intros r0.
  - exists []. split; reflexivity.
  - destruct (read_record_written field_eqb field_type written_fields field_eqb_eq
                r r0 rest Hchar Htyped) as (fs & Hread & Hfs).
    cbn [read_records]. rewrite Hread.
    match goal with |- context [read_records _ _ _ rest ?r1] =>
      destruct (IH r1) as (rs & Hrs & Hcells) end.
    rewrite Hrs. eexists. split; [reflexivity | ].
    cbn [map]. rewrite Hcells. f_equal.
    unfold record_cells, header_cells.
    cbn [pcap_index pcap_timestamp session message_sequence message_index message_type fields].
    f_equal. apply map_ext_in. intros f Hf. rewrite Hfs.
    assert (existsb (field_eqb f) written_fields = true) as ->; [ | reflexivity].
    apply existsb_exists. exists f. split; [exact Hf | now apply field_eqb_eq].
Qed.

End readback_facts.

(** X14. Whatever the capture, the file that the NASDAQ converter writes can
be read back by the loop of [read_parquet] without a failure of the reader:
there is one record for every row, in the order of the rows, and written
again the records give the cells of the file, column for column.  This holds
for what a run that has not finished has written, too. *)
Theorem X14_nasdaq_file_reads_back_row_for_row (fuel : nat) (capture : list pcap_next) :
  exists rs,
    nasdaq_read_records (state (nasdaq_write_parquet fuel capture)) new_record = Some rs /\
    map (record_cells nasdaq.written_fields) rs = state (nasdaq_write_parquet fuel capture).
Proof.
  unfold nasdaq_read_records. change nasdaq.read_fields with nasdaq.written_fields.
  apply (read_records_readable nasdaq.field_beq nasdaq.field_type nasdaq.written_fields
           nasdaq_field_beq_eq).
  unfold nasdaq_write_parquet, write_parquet.
  pose proof (write_parquet_loop_readable nasdaq.field_beq nasdaq.size nasdaq.decode
                nasdaq.field_type nasdaq.reset_order nasdaq.written_fields
                nasdaq.process_message nasdaq.catalog nasdaq_field_beq_eq
                nasdaq_process_message_catalog nasdaq_catalog_labels
                nasdaq_reset_order_complete nasdaq_decode_typed
                fuel capture new_converter eq_refl (Forall_nil _)) as H.
  now destruct (write_parquet_loop nasdaq.field_beq nasdaq.reset_order nasdaq.written_fields
                  nasdaq.process_message fuel capture new_converter).
Qed.

(** X15. The same for the file of the JNX converter. *)
Theorem X15_jnx_file_reads_back_row_for_row (fuel : nat) (capture : list pcap_next) :
  exists rs,
    jnx_read_records (state (jnx_write_parquet fuel capture)) new_record = Some rs /\
    map (record_cells jnx.written_fields) rs = state (jnx_write_parquet fuel capture).
Proof.
  unfold jnx_read_records. change jnx.read_fields with jnx.written_fields.
  apply (read_records_readable jnx.field_beq jnx.field_type jnx.written_fields
           jnx_field_beq_eq).
  unfold jnx_write_parquet, write_parquet.
  pose proof (write_parquet_loop_readable jnx.field_beq jnx.size jnx.decode
                jnx.field_type jnx.reset_order jnx.written_fields
                jnx.process_message jnx.catalog jnx_field_beq_eq
                jnx_process_message_catalog jnx_catalog_labels
                jnx_reset_order_complete jnx_decode_typed
                fuel capture new_converter eq_refl (Forall_nil _)) as H.
  now destruct (write_parquet_loop jnx.field_beq jnx.reset_order jnx.written_fields
                  jnx.process_message fuel capture new_converter).
Qed.

(** ** The JNX feed *)

(** X17. Every row the JNX converter writes for a message whose type is in
its catalog has a value in exactly the message fields of the layout of the
type, and null in every other message field. *)
Theorem X17_jnx_row_holds_exactly_its_layout
  (fuel : nat) (m : memory) (header : pcap_pkthdr) (packet : Z) (cv : jnx.converter) :
  open_row (writer cv) = [] ->
  exists new,
    rows (writer (state (jnx.process fuel m header packet cv))) = rows (writer cv) ++ new /\
    forall (row : row) (T : Z) (layout : list jnx.field),
      In row new ->
      message_type_of row = Some (uint8 T) ->
      jnx.catalog T = Some layout ->
      forall f, column jnx.field_beq jnx.written_fields f row <> None <-> In f layout.
Proof.
  apply jnx_catalogued_row_holds_exactly_its_layout.
Qed.

Lemma X17_witness :
  exists new,
    rows (writer (state (jnx.process 3 scenario_E a_header 0 new_converter))) = [] ++ new /\
    forall (row : row) (T : Z) (layout : list jnx.field),
      In row new ->
      message_type_of row = Some (uint8 T) ->
      jnx.catalog T = Some layout ->
      forall f, column jnx.field_beq jnx.written_fields f row <> None <-> In f layout.
Proof.
  apply (X17_jnx_row_holds_exactly_its_layout 3 scenario_E a_header 0 new_converter).
  reflexivity.
Defined.

(** X18. In the JNX converter, too, a block of a type that the catalog lacks
is stepped over by its declared length and gets a row of its own: the row
carries the type byte and null in every message field. *)
Theorem X18_jnx_unknown_type_block_writes_a_null_row
  (m : memory) (cv : jnx.converter) (current : Z) :
  open_row (writer cv) = [] ->
  jnx.catalog (load m (current + 2)) = None ->
  snd (jnx.process_block m cv current) = current + 2 + be16 m current /\
  exists row : row,
    rows (writer (fst (jnx.process_block m cv current))) = rows (writer cv) ++ [row] /\
    message_type_of row = Some (uint8 (load m (current + 2))) /\
    forall f, column jnx.field_beq jnx.written_fields f row = None.
Proof.
  apply jnx_unknown_type_block_writes_a_null_row.
Qed.

Lemma X18_witness :
  snd (jnx.process_block scenario_C new_converter 83) = 83 + 2 + be16 scenario_C 83 /\
  exists row : row,
    rows (writer (fst (jnx.process_block scenario_C new_converter 83))) = [] ++ [row] /\
    message_type_of row = Some (uint8 (load scenario_C (83 + 2))) /\
    forall f, column jnx.field_beq jnx.written_fields f row = None.
Proof.
  apply (X18_jnx_unknown_type_block_writes_a_null_row scenario_C new_converter 83).
  - reflexivity.
  - vm_compute. reflexivity.
Defined.

(** X19. The text fields of the JNX feed are cut at the first 0x20 byte as
those of the NASDAQ feed are: the text is the bytes before it, all of them
when there is none, and the cursor moves by the width of the field. *)
Theorem X19_jnx_text_is_cut_at_the_first_space
  (f : jnx.field) (m : memory) (fs : jnx.field -> cell) (current : Z) :
  jnx.field_type f = t_string ->
  exists k,
    0 <= k <= jnx.size f /\
    fst (jnx.set f m (fs, current)) f = Some (utf8 (string_view m current k)) /\
    snd (jnx.set f m (fs, current)) = current + jnx.size f /\
    (forall i, 0 <= i < k -> load m (current + i) <> 32) /\
    (k < jnx.size f -> load m (current + k) = 32).
Proof.
  apply jnx_text_is_cut_at_the_first_space.
Qed.

Lemma X19_witness :
  exists k,
    0 <= k <= jnx.size jnx.group /\
    fst (jnx.set jnx.group interior_space (fun _ => None, 0)) jnx.group
    = Some (utf8 (string_view interior_space 0 k)) /\
    snd (jnx.set jnx.group interior_space (fun _ => None, 0)) = 0 + jnx.size jnx.group /\
    (forall i, 0 <= i < k -> load interior_space (0 + i) <> 32) /\
    (k < jnx.size jnx.group -> load interior_space (0 + k) = 32).
Proof.
  apply (X19_jnx_text_is_cut_at_the_first_space jnx.group interior_space (fun _ => None) 0).
  reflexivity.
Defined.
